(** * Vikunja MCP server: position allocator, sort keys, configuration
      merge, template expansion and the batch orchestrator

    A shallow embedding of [src/vikunja_mcp/server.py].  Python values are
    modelled as follows.

    - Task dictionaries follow the task schema given in the docstring of
      [_batch_create_tasks_impl]: a record with one optional field per key.
      [d.get(k)] is the field and [d[k]] raises [KeyError] when the field is
      [None], that is, when the key is missing; a key that holds a value of
      another type than the schema gives it is outside the model.
    - Positions are IEEE 754 binary64 numbers, as Python's [float]; they are
      primitive floats here, so the arithmetic below is Python's, bit for
      bit.  A position that the service sends as an integer is taken as the
      float of the same value.
    - Sort keys are strings or integers.  Strings are byte strings; the
      byte-wise order of UTF-8 text is Python's code-point order.  Case is
      changed on ASCII text only: [str.lower()] is modelled on the letters
      A to Z, and the facts about lower-cased titles are stated for titles
      of ASCII characters.
    - Dictionaries that the code mutates or that may be shared live in an
      explicit object store, addressed by location; lists are plain values.
    - Calls to the remote service are answered by an oracle that sees the
      whole history of calls; the history is threaded through every
      operation, and an exception is a result of its own.

    The definitions come first, module by module; the facts about them
    follow in modules of their own. *)

From Stdlib Require Uint63.
From Stdlib Require Import PrimFloat ZArith String Ascii List Lia Sorted Permutation.
From stdpp Require Import gmap strings list pretty sorting.
From Equations Require Import Equations.

#[local] Set Warnings "-register-all".
Local Open Scope string_scope.
Local Open Scope Z_scope.
Local Open Scope list_scope.

(** ** Python primitives *)

Module Py.

(** [x or d] on an optional string: [None] and the empty string are falsy. *)
Definition or_str (x : option string) (d : string) : string :=
  match x with
  | Some s => if String.eqb s "" then d else s
  | None => d
  end.

(** [x or d] on an optional integer: [None] and [0] are falsy. *)
Definition or_int (x : option Z) (d : Z) : Z :=
  match x with
  | Some z => if Z.eqb z 0 then d else z
  | None => d
  end.

(** [d.get(k, default)]. *)
Definition get_default {A} (x : option A) (d : A) : A :=
  match x with
  | Some a => a
  | None => d
  end.

Definition truthy_str (x : option string) : bool :=
  match x with
  | Some s => negb (String.eqb s "")
  | None => false
  end.

Definition truthy_int (z : Z) : bool := negb (Z.eqb z 0).

Definition truthy_list {A} (x : option (list A)) : bool :=
  match x with
  | Some (_ :: _) => true
  | _ => false
  end.

(** [str.lower()] on text of ASCII characters: the letters A to Z become
    a to z and every other character is kept.  Python lower-cases the
    other cased characters of Unicode as well; that mapping is not
    modelled, and the bytes of a character outside ASCII are kept as they
    are, so [lower] stands for [str.lower()] on ASCII text only. *)
Definition lower_ascii (c : ascii) : ascii :=
  let n := nat_of_ascii c in
  if (Nat.leb 65 n && Nat.leb n 90)%bool then ascii_of_nat (n + 32) else c.

Fixpoint lower (s : string) : string :=
  match s with
  | EmptyString => EmptyString
  | String c s' => String (lower_ascii c) (lower s')
  end.

(** The outcome of a call: a value, or an exception with its message. *)
Inductive result (A : Type) :=
| Ok (a : A)
| Raise (msg : string).
Arguments Ok {A} a.
Arguments Raise {A} msg.

(** [d[key]]: [KeyError] when the key is missing; [str(e)] of a
    [KeyError] is the quoted key. *)
Definition getitem {A} (x : option A) (key : string) : result A :=
  match x with
  | Some a => Ok a
  | None => Raise ("'" +:+ key +:+ "'")
  end.

(** [list.insert(i, x)]: before index [i], at the end when [i] is past it. *)
Definition list_insert_at {A} (i : nat) (x : A) (l : list A) : list A :=
  take i l ++ x :: drop i l.

End Py.

(** ** Sort keys (section 4.1) *)

Module SortKeys.
Import Py.

(** A raw task of the service (API response format). *)
Record ApiTask := {
  at_id : option Z;
  at_title : option string;
  at_start_date : option string;
  at_due_date : option string;
  at_end_date : option string;
  at_priority : option Z;
  at_position : option float
}.

(** A task to create (the task schema of [_batch_create_tasks_impl]). *)
Record TaskInput := {
  ti_title : option string;
  ti_description : option string;
  ti_start_date : option string;
  ti_end_date : option string;
  ti_due_date : option string;
  ti_priority : option Z;
  ti_labels : option (list string);
  ti_bucket : option string;
  ti_ref : option string;
  ti_blocked_by : option (list string);
  ti_blocks : option (list string);
  ti_subtask_of : option string
}.

(** What [_create_task_impl] returns: [_format_task] always sets both. *)
Record CreatedTask := {
  ct_id : Z;
  ct_title : string
}.

Inductive SortKey :=
| KStr (s : string)
| KInt (z : Z).

Definition _get_task_sort_key (task : ApiTask) (strategy : string) : SortKey :=
  if String.eqb strategy "start_date" then
    KStr (or_str (at_start_date task) "9999-12-31")
  else if String.eqb strategy "due_date" then
    KStr (or_str (at_due_date task) "9999-12-31")
  else if String.eqb strategy "end_date" then
    KStr (or_str (at_end_date task) "9999-12-31")
  else if String.eqb strategy "priority" then
    KInt (- (or_int (at_priority task) 0))
  else if String.eqb strategy "alphabetical" then
    KStr (lower (or_str (at_title task) ""))
  else if String.eqb strategy "created" then
    KInt (or_int (at_id task) 0)
  else KInt 0.

Definition _get_input_sort_key (task_input : TaskInput) (created_task : CreatedTask)
    (strategy : string) : SortKey :=
  if String.eqb strategy "start_date" then
    KStr (or_str (ti_start_date task_input) "9999-12-31")
  else if String.eqb strategy "due_date" then
    KStr (or_str (ti_due_date task_input) "9999-12-31")
  else if String.eqb strategy "end_date" then
    KStr (or_str (ti_end_date task_input) "9999-12-31")
  else if String.eqb strategy "priority" then
    KInt (- (or_int (ti_priority task_input) 0))
  else if String.eqb strategy "alphabetical" then
    KStr (lower (get_default (ti_title task_input) ""))
  else if String.eqb strategy "created" then
    KInt (or_int (Some (ct_id created_task)) 0)
  else KInt 0.

(** Python's [<] on keys.  Comparing a string with an integer raises
    [TypeError] in Python; [key_kind_by_strategy] below shows that the keys
    of one strategy are all of one kind, so that case is never consulted. *)
Definition key_ltb (a b : SortKey) : bool :=
  match a, b with
  | KStr s, KStr t => String.ltb s t
  | KInt x, KInt y => Z.ltb x y
  | _, _ => false
  end.

Definition is_str_key (k : SortKey) : bool :=
  match k with KStr _ => true | KInt _ => false end.

(** The strategies whose keys are strings. *)
Definition string_strategy (strategy : string) : bool :=
  (String.eqb strategy "start_date" || String.eqb strategy "due_date"
   || String.eqb strategy "end_date" || String.eqb strategy "alphabetical")%bool.






Definition sample_api_task : ApiTask :=
  {| at_id := Some 7; at_title := Some "Cherry"; at_start_date := None;
     at_due_date := Some "2025-01-10"; at_end_date := None;
     at_priority := Some 5; at_position := None |}.

Definition sample_input : TaskInput :=
  {| ti_title := Some "banana"; ti_description := None; ti_start_date := None;
     ti_end_date := None; ti_due_date := None; ti_priority := Some 1;
     ti_labels := None; ti_bucket := None; ti_ref := None;
     ti_blocked_by := None; ti_blocks := None; ti_subtask_of := None |}.





End SortKeys.

(** ** Position allocator (section 4.2) *)

Module Allocator.
Import Py SortKeys.

(** [bisect.bisect_left(a, x)] of the Python standard library (its loop,
    as in [Lib/bisect.py], with [lo = 0] and [hi = len(a)]).  The middle
    index is always in range there; the [None] branch stands for the
    [IndexError] of a call with [hi] beyond the list, which is never made. *)
Equations? bisect_loop (a : list SortKey) (x : SortKey) (lo hi : nat) : nat
  by wf (hi - lo)%nat lt :=
  bisect_loop a x lo hi with decide (lo < hi)%nat => {
    | right _ := lo
    | left _ with a !! ((lo + hi) / 2)%nat => {
        | Some am with key_ltb am x => {
            | true := bisect_loop a x ((lo + hi) / 2 + 1)%nat hi
            | false := bisect_loop a x lo ((lo + hi) / 2)%nat }
        | None := lo } }.
Proof.
  all: change (Nat.divmod (lo + hi) 1 0 1).1 with ((lo + hi) / 2)%nat.
  all: pose proof (Nat.div_mod_eq (lo + hi) 2);
    pose proof (Nat.mod_upper_bound (lo + hi) 2 ltac:(lia)); lia.
Qed.

Definition bisect_left (a : list SortKey) (x : SortKey) : nat :=
  bisect_loop a x 0 (length a).

(** [existing_sorted[i][1]]; the index is in range wherever it is used. *)
Definition pos_at (existing_sorted : list (SortKey * float)) (i : nat) : float :=
  match existing_sorted !! i with
  | Some (_, p) => p
  | None => nan
  end.

(** The block "Calculate position between neighbors", which
    [_set_task_position_impl] and [_batch_create_tasks_impl] share
    line for line. *)
Definition new_position (existing_sorted : list (SortKey * float))
    (insert_idx : nat) : float :=
  match existing_sorted with
  | [] => 1000%float
  | _ :: _ =>
    if Nat.eqb insert_idx 0 then
      let first_pos := pos_at existing_sorted 0 in
      if PrimFloat.ltb 0 first_pos then (first_pos / 2)%float else (-1000)%float
    else if Nat.leb (length existing_sorted) insert_idx then
      let last_pos := pos_at existing_sorted (length existing_sorted - 1) in
      (last_pos + 1000)%float
    else
      let prev_pos := pos_at existing_sorted (insert_idx - 1) in
      let next_pos := pos_at existing_sorted insert_idx in
      ((prev_pos + next_pos) / 2)%float
  end.

(** Binary search over the keys of the existing entries, then the block. *)
Definition allocate (existing_sorted : list (SortKey * float)) (new_key : SortKey)
    : float :=
  new_position existing_sorted (bisect_left (map fst existing_sorted) new_key).

(** Where the new entry goes in the working sequence. *)
Definition place (existing_sorted : list (SortKey * float)) (new_key : SortKey)
    : list (SortKey * float) :=
  list_insert_at (bisect_left (map fst existing_sorted) new_key)
    (new_key, allocate existing_sorted new_key) existing_sorted.

Definition keys_ascending (l : list SortKey) : Prop :=
  StronglySorted (fun a b => key_ltb b a = false) l.

Definition positions_ascending (l : list float) : Prop :=
  StronglySorted (fun p q => PrimFloat.leb p q = true) l.

(** All keys are of the kind of [x]. *)
Definition same_kind (x : SortKey) (l : list SortKey) : Prop :=
  Forall (fun a => is_str_key a = is_str_key x) l.

(** The working sequence after the given keys were placed one by one. *)
Definition working_positions (existing_sorted : list (SortKey * float))
    (new_keys : list SortKey) : list (SortKey * float) :=
  fold_left place new_keys existing_sorted.

(** A bucket under the [due_date] strategy whose only task, due on
    2025-06-01, stands at position -5000.0. *)
Definition far_left_bucket : list (SortKey * float) :=
  [(KStr "2025-06-01", (-5000)%float)].

(** The same bucket with its task at position 0.0, where a task stands
    that was never given a position. *)
Definition unpositioned_bucket : list (SortKey * float) :=
  [(KStr "2025-06-01", 0%float)].

End Allocator.

(** ** Project configuration store: deep merge (section 4.3) *)

Module Config.

(** A Python value that is not a dictionary.  [_deep_merge] never looks
    inside one, so lists are kept as plain data. *)
Inductive atom :=
| ANone
| ABool (b : bool)
| AInt (z : Z)
| AStr (s : string)
| AList (items : list atom).

(** Dictionaries are mutable objects: a value is an atom or a reference
    to a dictionary in the store. *)
Abbreviation loc := nat (only parsing).

Inductive val :=
| VAtom (a : atom)
| VDict (l : loc).

(** A dictionary keeps its keys in insertion order. *)
Abbreviation dict := (list (string * val)) (only parsing).

(** The store: location [l] holds the dictionary [h !! l]; a new
    dictionary is appended. *)
Abbreviation heap := (list (list (string * val))) (only parsing).

(** [d.get(key)], on any association list. *)
Fixpoint dict_get {V : Type} (d : list (string * V)) (key : string) : option V :=
  match d with
  | [] => None
  | (k, v) :: d' => if String.eqb k key then Some v else dict_get d' key
  end.

(** [d[key] = v]: an existing key keeps its place, a new one goes last. *)
Fixpoint dict_set {V : Type} (d : list (string * V)) (key : string) (v : V)
    : list (string * V) :=
  match d with
  | [] => [(key, v)]
  | (k, w) :: d' =>
    if String.eqb k key then (k, v) :: d' else (k, w) :: dict_set d' key v
  end.

(** [_deep_merge(base, updates)].  [result = base.copy()] allocates a new
    dictionary; the loop writes to that dictionary only.  The fuel bounds
    the depth of the recursion; [None] is returned when it runs out or when
    a location is dangling (which Python excludes). *)
Fixpoint _deep_merge (fuel : nat) (h : heap) (base updates : loc)
    : option (heap * loc) :=
  match fuel with
  | O => None
  | S fuel' =>
    match h !! base, h !! updates with
    | Some b, Some u =>
      let result := length h in
      fold_left
        (fun acc kv =>
           match acc with
           | None => None
           | Some (h1, _) =>
             match h1 !! result with
             | None => None
             | Some r =>
               match dict_get r kv.1, kv.2 with
               | Some (VDict rk), VDict uv =>
                 match _deep_merge fuel' h1 rk uv with
                 | Some (h2, m) =>
                   match h2 !! result with
                   | Some r2 =>
                     Some (<[result := dict_set r2 kv.1 (VDict m)]> h2, result)
                   | None => None
                   end
                 | None => None
                 end
               | _, _ => Some (<[result := dict_set r kv.1 kv.2]> h1, result)
               end
             end
           end)
        u (Some (h ++ [b], result))
    | _, _ => None
    end
  end.

(** *** The merge as the specification words it *)

(** A dictionary as a plain nested value. *)
Inductive tree :=
| TAtom (a : atom)
| TDict (d : list (string * tree)).

Fixpoint depth (t : tree) : nat :=
  match t with
  | TAtom _ => O
  | TDict d =>
    S ((fix go (d : list (string * tree)) : nat :=
          match d with
          | [] => O
          | kv :: d' => Nat.max (depth kv.2) (go d')
          end) d)
  end.

(** For every key of the update: where the existing and the new value are
    both mappings they are merged, otherwise the new value replaces the
    existing one; keys absent from the update stay. *)
Fixpoint merge_tree (base : list (string * tree)) (updates : tree) {struct updates}
    : list (string * tree) :=
  match updates with
  | TAtom _ => base
  | TDict us =>
    fold_left
      (fun acc kv =>
         dict_set acc kv.1
           match dict_get acc kv.1, kv.2 with
           | Some (TDict x), TDict _ => TDict (merge_tree x kv.2)
           | _, _ => kv.2
           end)
      us base
  end.

(** [den h A v t]: in the store [h], the value [v] is the nested value
    [t], and reading it never visits a location in [A]. *)
Inductive den (h : heap) (A : loc -> Prop) : val -> tree -> Prop :=
| den_atom (a : atom) : den h A (VAtom a) (TAtom a)
| den_dict (l : loc) (d : dict) (td : list (string * tree)) :
    ~ A l ->
    h !! l = Some d ->
    NoDup (map fst d) ->
    Forall2 (fun kv kt => kv.1 = kt.1 /\ den h A kv.2 kt.2) d td ->
    den h A (VDict l) (TDict td).

Definition denotes (h : heap) (v : val) (t : tree) : Prop :=
  den h (fun _ => False) v t.

(** Two association lists with the same keys, related value by value. *)
Definition related {V W : Type} (Q : V -> W -> Prop)
    (d : list (string * V)) (td : list (string * W)) : Prop :=
  Forall2 (fun kv kt => kv.1 = kt.1 /\ Q kv.2 kt.2) d td.

(** The merged value of one key, and one step of the merge. *)
Definition combine_values (old : option tree) (new : tree) : tree :=
  match old, new with
  | Some (TDict x), TDict _ => TDict (merge_tree x new)
  | _, _ => new
  end.

Definition tree_step (acc : list (string * tree)) (kv : string * tree)
    : list (string * tree) :=
  dict_set acc kv.1 (combine_values (dict_get acc kv.1) kv.2).

(** The body of the loop of [_deep_merge], with the recursive call as a
    parameter. *)
Definition merge_step (rec : heap -> loc -> loc -> option (heap * loc))
    (result : loc) (acc : option (heap * loc)) (kv : string * val)
    : option (heap * loc) :=
  match acc with
  | None => None
  | Some (h1, _) =>
    match h1 !! result with
    | None => None
    | Some r =>
      match dict_get r kv.1, kv.2 with
      | Some (VDict rk), VDict uv =>
        match rec h1 rk uv with
        | Some (h2, m) =>
          match h2 !! result with
          | Some r2 => Some (<[result := dict_set r2 kv.1 (VDict m)]> h2, result)
          | None => None
          end
        | None => None
        end
      | _, _ => Some (<[result := dict_set r kv.1 kv.2]> h1, result)
      end
    end
  end.

(** What one call establishes: the result is a new dictionary that reads
    as the merged value, and every dictionary that existed is unchanged. *)
Definition merge_post (h : heap) (A : loc -> Prop) (tb : list (string * tree))
    (tu : tree) (out : option (heap * loc)) : Prop :=
  exists h',
    out = Some (h', length h) /\
    (length h < length h')%nat /\
    (forall l d, h !! l = Some d -> h' !! l = Some d) /\
    den h' A (VDict (length h)) (TDict (merge_tree tb tu)).

Definition merge_ok (n : nat) : Prop :=
  forall h A base updates tb tu,
    (depth (TDict tu) <= n)%nat ->
    (forall l, A l -> (l < length h)%nat) ->
    den h A (VDict base) (TDict tb) ->
    den h A (VDict updates) (TDict tu) ->
    merge_post h A tb (TDict tu) (_deep_merge n h base updates).

(** [{"a": {"b": 1}}] at location 1 and [{"a": {"c": 2}}] at location 3. *)
Definition sample_heap : heap :=
  [ [("b", VAtom (AInt 1))]; [("a", VDict 0%nat)];
    [("c", VAtom (AInt 2))]; [("a", VDict 2%nat)] ].

End Config.

(** ** Template expansion (section 4.4) *)

Module Template.
Import Py SortKeys.

(** *** Dates, after CPython's [datetime] *)

(** A [datetime] by its wall-clock fields.  A time zone, when the anchor
    has one, is carried along unchanged: neither [datetime + timedelta]
    nor the [strftime] directives used here look at it.  Microseconds
    are left out: whole hours do not change them and the formats do not
    print them. *)
Record datetime := {
  year : Z;
  month : Z;
  day : Z;
  hour : Z;
  minute : Z;
  second : Z
}.

Definition _is_leap (y : Z) : bool :=
  ((y mod 4 =? 0) && (negb (y mod 100 =? 0) || (y mod 400 =? 0)))%bool.

Definition _days_before_year (y : Z) : Z :=
  let y := y - 1 in
  y * 365 + y / 4 - y / 100 + y / 400.

Definition _DAYS_IN_MONTH : list Z :=
  [-1; 31; 28; 31; 30; 31; 30; 31; 31; 30; 31; 30; 31].

Definition _DAYS_BEFORE_MONTH : list Z :=
  [-1; 0; 31; 59; 90; 120; 151; 181; 212; 243; 273; 304; 334].

Definition table (t : list Z) (m : Z) : Z := nth (Z.to_nat m) t 0.

Definition _days_before_month (y m : Z) : Z :=
  table _DAYS_BEFORE_MONTH m + (if ((2 <? m) && _is_leap y)%bool then 1 else 0).

Definition _ymd2ord (y m d : Z) : Z :=
  _days_before_year y + _days_before_month y m + d.

Definition _ord2ymd (n : Z) : Z * Z * Z :=
  let n := n - 1 in
  let n400 := n / 146097 in
  let n := n mod 146097 in
  let y := n400 * 400 + 1 in
  let n100 := n / 36524 in
  let n := n mod 36524 in
  let n4 := n / 1461 in
  let n := n mod 1461 in
  let n1 := n / 365 in
  let n := n mod 365 in
  let y := y + n100 * 100 + n4 * 4 + n1 in
  if ((n1 =? 4) || (n100 =? 4))%bool then (y - 1, 12, 31)
  else
    let leapyear := ((n1 =? 3) && (negb (n4 =? 24) || (n100 =? 3)))%bool in
    let m := Z.shiftr (n + 50) 5 in
    let preceding :=
      table _DAYS_BEFORE_MONTH m + (if ((2 <? m) && leapyear)%bool then 1 else 0) in
    if n <? preceding then
      let m := m - 1 in
      let preceding :=
        preceding
        - (table _DAYS_IN_MONTH m + (if ((m =? 2) && leapyear)%bool then 1 else 0)) in
      (y, m, n - preceding + 1)
    else (y, m, n - preceding + 1).

Definition _MAXORDINAL : Z := 3652059.

Definition _MAX_DELTA_DAYS : Z := 999999999.

(** [timedelta(hours=h)], for a whole number of hours: the days and the
    seconds of the delta, or the [OverflowError] of a delta out of range.
    CPython's C implementation converts the number of days to a C [int]
    before it checks the range of a delta, which gives two messages. *)
Definition timedelta_hours (h : Z) : result (Z * Z) :=
  let seconds := h * 3600 in
  let days := seconds / 86400 in
  if negb ((-2147483648 <=? days) && (days <=? 2147483647))%bool then
    Raise "Python int too large to convert to C int"
  else if negb ((- _MAX_DELTA_DAYS <=? days) && (days <=? _MAX_DELTA_DAYS))%bool then
    Raise ("days=" +:+ pretty days +:+ "; must have magnitude <= 999999999")
  else Ok (days, seconds mod 86400).

(** [dt + timedelta(hours=h)], for a whole number of hours. *)
Definition add_hours (dt : datetime) (h : Z) : result datetime :=
  match timedelta_hours h with
  | Raise e => Raise e
  | Ok (delta_days, delta_seconds) =>
    let days := _ymd2ord (year dt) (month dt) (day dt) + delta_days in
    let seconds := hour dt * 3600 + minute dt * 60 + second dt + delta_seconds in
    let days := days + seconds / 86400 in
    let seconds := seconds mod 86400 in
    if ((0 <? days) && (days <=? _MAXORDINAL))%bool then
      let '(y, m, d) := _ord2ymd days in
      Ok {| year := y; month := m; day := d;
            hour := seconds / 3600;
            minute := (seconds mod 3600) / 60;
            second := (seconds mod 3600) mod 60 |}
    else Raise "date value out of range"
  end.

Definition digit (d : Z) : string :=
  String (ascii_of_nat (48 + Z.to_nat (d mod 10))) EmptyString.

Definition pad2 (n : Z) : string := digit (n / 10) +:+ digit n.

(** [dt.strftime("%Y-%m-%d" + tail)], for a literal [tail].  [%Y] is
    the year as the C library prints it, in decimal and without padding:
    four digits from the year 1000 on, fewer before. *)
Definition strftime_date (dt : datetime) (tail : string) : string :=
  pretty (year dt) +:+ "-" +:+ pad2 (month dt) +:+ "-" +:+ pad2 (day dt) +:+ tail.

(** *** Templates *)

Record TaskDef := {
  td_title : option string;
  td_offset_hours : option Z;
  td_duration_hours : option Z;
  td_ref : option string;
  td_blocked_by : option (list string)
}.

Record TemplateDef := {
  tmpl_default_labels : option (list string);
  tmpl_tasks : option (list TaskDef)
}.

(** The body of the loop "for task_def in tmpl.get("tasks", [])" of
    [_create_from_template_impl]: the task built from one definition. *)
Definition expand_task_def (anchor_dt : datetime) (all_labels : list string)
    (title_suffix : string) (bucket : option string) (task_def : TaskDef)
    : result TaskInput :=
  let offset_hours := get_default (td_offset_hours task_def) 0 in
  let duration_hours := get_default (td_duration_hours task_def) 1 in
  match add_hours anchor_dt offset_hours with
  | Raise e => Raise e
  | Ok start_dt =>
    match add_hours start_dt duration_hours with
    | Raise e => Raise e
    | Ok end_dt =>
      let start_date := strftime_date start_dt "T00:00:00Z" in
      let end_date := strftime_date start_dt "T23:59:00Z" in
      match getitem (td_title task_def) "title" with
      | Raise e => Raise e
      | Ok title =>
        let title :=
          if negb (String.eqb title_suffix "") then title +:+ " " +:+ title_suffix
          else title in
        Ok {| ti_title := Some title;
              ti_description := None;
              ti_start_date := Some start_date;
              ti_end_date := Some end_date;
              ti_due_date := None;
              ti_priority := None;
              ti_labels := Some all_labels;
              ti_bucket := if truthy_str bucket then bucket else None;
              ti_ref := if truthy_str (td_ref task_def) then td_ref task_def else None;
              ti_blocked_by :=
                if truthy_list (td_blocked_by task_def) then td_blocked_by task_def
                else None;
              ti_blocks := None;
              ti_subtask_of := None |}
      end
    end
  end.

(** The whole loop: the task list, or the first exception. *)
Fixpoint expand_tasks (anchor_dt : datetime) (all_labels : list string)
    (title_suffix : string) (bucket : option string) (defs : list TaskDef)
    : result (list TaskInput) :=
  match defs with
  | [] => Ok []
  | task_def :: rest =>
    match expand_task_def anchor_dt all_labels title_suffix bucket task_def with
    | Raise e => Raise e
    | Ok task =>
      match expand_tasks anchor_dt all_labels title_suffix bucket rest with
      | Raise e => Raise e
      | Ok tasks => Ok (task :: tasks)
      end
    end
  end.

(** The end of a task as section 4.4 words it: 23:59:00 of the date of
    [start + duration_hours]. *)
Definition spec_end_date (anchor_dt : datetime) (task_def : TaskDef) : result string :=
  match add_hours anchor_dt (get_default (td_offset_hours task_def) 0) with
  | Raise e => Raise e
  | Ok start_dt =>
    match add_hours start_dt (get_default (td_duration_hours task_def) 1) with
    | Raise e => Raise e
    | Ok end_dt => Ok (strftime_date end_dt "T23:59:00Z")
    end
  end.

(** A late-evening task that runs past midnight. *)
Definition evening_anchor : datetime :=
  {| year := 2025; month := 3; day := 10; hour := 22; minute := 0; second := 0 |}.

Definition evening_task : TaskDef :=
  {| td_title := Some "Bake"; td_offset_hours := Some 0;
     td_duration_hours := Some 4; td_ref := None; td_blocked_by := None |}.

End Template.

(** ** The remote service and the batch orchestrator (section 4.5) *)

Module Batch.
Import Py SortKeys Allocator Template.

(** *** Data *)

Record Label := { label_id : Z; label_title : string }.
Record Bucket := { bucket_id : Z; bucket_title : string }.
Record View := { view_id : Z }.

Record SortStrategy := {
  ss_default : option string;
  ss_buckets : option (gmap string string)
}.

Record ProjectConfig := {
  cfg_name : option string;
  cfg_sort_strategy : option SortStrategy;
  cfg_default_labels : option (list string);
  cfg_default_bucket : option string;
  cfg_templates : option (list (string * TemplateDef))
}.

(** [if project_config:], for a dictionary: it has some key. *)
Definition config_truthy (c : option ProjectConfig) : bool :=
  match c with
  | None => false
  | Some c =>
    (bool_decide (is_Some (cfg_name c)) || bool_decide (is_Some (cfg_sort_strategy c))
     || bool_decide (is_Some (cfg_default_labels c))
     || bool_decide (is_Some (cfg_default_bucket c))
     || bool_decide (is_Some (cfg_templates c)))%bool
  end.

(** The arguments of [_create_task_impl]. *)
Record TaskData := {
  data_title : string;
  data_description : string;
  data_start_date : string;
  data_end_date : string;
  data_due_date : string;
  data_priority : Z
}.

(** *** The service *)

(** One constructor per helper that talks to the outside: the HTTP
    helpers and the reader of the configuration file. *)
Inductive call :=
| CListLabels
| CCreateLabel (title hex_color : string)
| CGetKanbanView (project_id : Z)
| CListBuckets (project_id view : Z)
| CCreateBucket (project_id view : Z) (title : string) (position : Z)
| CCreateTask (project_id : Z) (data : TaskData)
| CAddLabel (task_id label : Z)
| CCreateRelation (task_id : Z) (relation_kind : string) (other_task_id : Z)
| CPlaceInBucket (task_id project_id view bucket : Z)
| CGetTask (task_id : Z)
| CGetBucketTasksRaw (project_id view bucket : Z)
| CSetViewPosition (task_id view : Z) (position : float)
| CGetProjectConfig (project_id : Z).

Definition answer (c : call) : Type :=
  match c with
  | CListLabels => list Label
  | CCreateLabel _ _ => Label
  | CGetKanbanView _ => View
  | CListBuckets _ _ => list Bucket
  | CCreateBucket _ _ _ _ => Bucket
  | CCreateTask _ _ => CreatedTask
  | CAddLabel _ _ => unit
  | CCreateRelation _ _ _ => unit
  | CPlaceInBucket _ _ _ _ => unit
  | CGetTask _ => ApiTask
  | CGetBucketTasksRaw _ _ _ => list ApiTask
  | CSetViewPosition _ _ _ => unit
  | CGetProjectConfig _ => option ProjectConfig
  end.

(** The outside world answers a call from the calls made so far. *)
Definition service := list call -> forall c : call, result (answer c).

(** A computation reads and extends the history of calls and returns a
    value or raises. *)
Definition M (A : Type) : Type := list call -> result A * list call.

Definition ret {A} (a : A) : M A := fun tr => (Ok a, tr).

Definition bind {A B} (m : M A) (k : A -> M B) : M B :=
  fun tr =>
    match m tr with
    | (Ok a, tr') => k a tr'
    | (Raise e, tr') => (Raise e, tr')
    end.

Definition lift {A} (r : result A) : M A := fun tr => (r, tr).

(** [try: ... except Exception as e: ...]: the outcome, never raising. *)
Definition try_ {A} (m : M A) : M (result A) :=
  fun tr => let '(r, tr') := m tr in (Ok r, tr').

Notation "x <- m ;; k" := (bind m (fun x => k))
  (at level 100, m at next level, right associativity).

(** [for x in xs: acc = body(acc, x)]; an exception ends the loop. *)
Fixpoint for_each {A B} (xs : list A) (acc : B) (body : B -> A -> M B) : M B :=
  match xs with
  | [] => ret acc
  | x :: xs' => acc' <- body acc x ;; for_each xs' acc' body
  end.

(** [enumerate(xs)]. *)
Definition enumerate {A} (xs : list A) : list (Z * A) :=
  imap (fun i x => (Z.of_nat i, x)) xs.

(** *** The report *)

Record TaskEntry := { te_ref : option string; te_id : Z; te_title : string }.

Record Report := {
  created : Z;
  tasks : list TaskEntry;
  labels_created : list string;
  relations_created : Z;
  errors : list string
}.

Definition empty_report : Report :=
  {| created := 0; tasks := []; labels_created := []; relations_created := 0;
     errors := [] |}.

Definition add_error (msg : string) (r : Report) : Report :=
  {| created := created r; tasks := tasks r; labels_created := labels_created r;
     relations_created := relations_created r; errors := errors r ++ [msg] |}.

Definition add_label_created (name : string) (r : Report) : Report :=
  {| created := created r; tasks := tasks r;
     labels_created := labels_created r ++ [name];
     relations_created := relations_created r; errors := errors r |}.

Definition add_created (e : TaskEntry) (r : Report) : Report :=
  {| created := created r + 1; tasks := tasks r ++ [e];
     labels_created := labels_created r;
     relations_created := relations_created r; errors := errors r |}.

Definition add_relation (r : Report) : Report :=
  {| created := created r; tasks := tasks r; labels_created := labels_created r;
     relations_created := relations_created r + 1; errors := errors r |}.

(** *** Small Python helpers *)

Definition str_of_Z (z : Z) : string := pretty z.

(** [s.add(x)] on a set, kept as the list of its elements in the order
    they were first added. *)
Definition set_add (s : list string) (x : string) : list string :=
  if bool_decide (x ∈ s) then s else s ++ [x].

(** [{x["title"]: x["id"] for x in xs}]. *)
Definition name_map {A} (title : A -> string) (id : A -> Z) (xs : list A)
    : gmap string Z :=
  fold_left (fun m x => <[title x := id x]> m) xs ∅.

(** [map.get(name)] followed by [if id:]. *)
Definition lookup_truthy (m : gmap string Z) (name : string) : option Z :=
  match m !! name with
  | Some id => if truthy_int id then Some id else None
  | None => None
  end.

Definition set_labels (labels : list string) (t : TaskInput) : TaskInput :=
  {| ti_title := ti_title t; ti_description := ti_description t;
     ti_start_date := ti_start_date t; ti_end_date := ti_end_date t;
     ti_due_date := ti_due_date t; ti_priority := ti_priority t;
     ti_labels := Some labels; ti_bucket := ti_bucket t; ti_ref := ti_ref t;
     ti_blocked_by := ti_blocked_by t; ti_blocks := ti_blocks t;
     ti_subtask_of := ti_subtask_of t |}.

Definition set_bucket (bucket : string) (t : TaskInput) : TaskInput :=
  {| ti_title := ti_title t; ti_description := ti_description t;
     ti_start_date := ti_start_date t; ti_end_date := ti_end_date t;
     ti_due_date := ti_due_date t; ti_priority := ti_priority t;
     ti_labels := ti_labels t; ti_bucket := Some bucket; ti_ref := ti_ref t;
     ti_blocked_by := ti_blocked_by t; ti_blocks := ti_blocks t;
     ti_subtask_of := ti_subtask_of t |}.

(** [xs.sort(key=lambda x: x[0])]: Python's sort is stable, and a stable
    sort has one result; insertion after the equal keys computes it. *)
Fixpoint insert_by_key (x : SortKey * float) (l : list (SortKey * float))
    : list (SortKey * float) :=
  match l with
  | [] => [x]
  | y :: l' => if key_ltb x.1 y.1 then x :: y :: l' else y :: insert_by_key x l'
  end.

Definition sort_by_key (l : list (SortKey * float)) : list (SortKey * float) :=
  fold_left (fun acc x => insert_by_key x acc) l [].

(** "Build sorted list of (sort_key, position) for existing tasks". *)
Definition build_existing_sorted (existing_raw : list ApiTask) (strategy : string)
    : list (SortKey * float) :=
  sort_by_key
    (map (fun t => (_get_task_sort_key t strategy,
                    get_default (at_position t) 0%float)) existing_raw).

(** [[t for t in existing_raw if keep(t["id"])]]. *)
Fixpoint filter_by_id (keep : Z -> bool) (existing_raw : list ApiTask)
    : result (list ApiTask) :=
  match existing_raw with
  | [] => Ok []
  | t :: rest =>
    match getitem (at_id t) "id" with
    | Raise e => Raise e
    | Ok id =>
      match filter_by_id keep rest with
      | Raise e => Raise e
      | Ok rest' => Ok (if keep id then t :: rest' else rest')
      end
    end
  end.

(** The task input dictionaries of the caller: location [l] holds
    [σ !! l]; the list [tasks] of a batch call is a list of locations. *)
Abbreviation store := (list TaskInput) (only parsing).

(** What [_set_task_position_impl] returns. *)
Record PositionResult := {
  pr_task_id : Z;
  pr_bucket_id : Z;
  pr_view_id : Z;
  pr_position_set : bool;
  pr_position : option float
}.

(** [repr] of a list of plain strings. *)
Definition list_repr (l : list string) : string :=
  "[" +:+ String.concat ", " (map (fun s => "'" +:+ s +:+ "'") l) +:+ "]".

Definition colors : list string :=
  ["#3498db"; "#e74c3c"; "#2ecc71"; "#f39c12"; "#9b59b6"; "#1abc9c"].

(** [tasks_by_bucket[bucket_name].append(x)], creating the entry first
    when the name is new; the dictionary keeps insertion order. *)
Fixpoint group_add {A} (groups : list (string * list A)) (name : string) (x : A)
    : list (string * list A) :=
  match groups with
  | [] => [(name, [x])]
  | (n, xs) :: rest =>
    if String.eqb n name then (n, xs ++ [x]) :: rest
    else (n, xs) :: group_add rest name x
  end.

(** *** Relation entries *)

(** The three places of a task input that name another task. *)
Inductive rel_field := BlockedBy | Blocks | SubtaskOf.

Record rel_entry := { e_task : Z; e_field : rel_field; e_ref : string }.

Definition relation_kind (f : rel_field) : string :=
  match f with
  | BlockedBy => "blocked"
  | Blocks => "blocking"
  | SubtaskOf => "parenttask"
  end.

Definition field_name (f : rel_field) : string :=
  match f with
  | BlockedBy => "blocked_by"
  | Blocks => "blocks"
  | SubtaskOf => "subtask_of"
  end.

Definition failure_name (f : rel_field) : string :=
  match f with
  | BlockedBy => "blocked"
  | Blocks => "blocking"
  | SubtaskOf => "subtask"
  end.

(** The entries of one created task, in the order step 7 visits them. *)
Definition entries_of (tc : TaskInput * CreatedTask) : list rel_entry :=
  let task_id := ct_id tc.2 in
  map (fun r => {| e_task := task_id; e_field := BlockedBy; e_ref := r |})
    (get_default (ti_blocked_by tc.1) [])
  ++ map (fun r => {| e_task := task_id; e_field := Blocks; e_ref := r |})
       (get_default (ti_blocks tc.1) [])
  ++ match ti_subtask_of tc.1 with
     | Some r =>
       if negb (String.eqb r "")
       then [{| e_task := task_id; e_field := SubtaskOf; e_ref := r |}]
       else []
     | None => []
     end.

Definition unknown_ref_message (e : rel_entry) : string :=
  "Unknown ref '" +:+ e_ref e +:+ "' in " +:+ field_name (e_field e)
  +:+ " for task " +:+ str_of_Z (e_task e).

Definition relation_failed_message (e : rel_entry) (err : string) : string :=
  "Failed to create " +:+ failure_name (e_field e) +:+ " relation for task "
  +:+ str_of_Z (e_task e) +:+ ": " +:+ err.

Section Orchestrator.
(** The service, and the order in which Python iterates over a set of
    strings, given the elements in the order they were added. *)
Context (svc : service) (set_iter : list string -> list string).

Definition perform (c : call) : M (answer c) :=
  fun tr => (svc tr c, tr ++ [c]).

Definition _set_task_position_impl (task_id project_id view bucket : Z)
    (apply_sort : bool) : M PositionResult :=
  _ <- perform (CPlaceInBucket task_id project_id view bucket) ;;
  let result :=
    {| pr_task_id := task_id; pr_bucket_id := bucket; pr_view_id := view;
       pr_position_set := false; pr_position := None |} in
  if negb apply_sort then ret result
  else
    project_config <- perform (CGetProjectConfig project_id) ;;
    if negb (config_truthy project_config) then ret result
    else
      let sort_strategy :=
        get_default (project_config ≫= cfg_sort_strategy)
          {| ss_default := None; ss_buckets := None |} in
      let default_strategy := get_default (ss_default sort_strategy) "manual" in
      let bucket_strategies := get_default (ss_buckets sort_strategy) ∅ in
      buckets <- perform (CListBuckets project_id view) ;;
      let bucket_name :=
        bucket_title <$> List.find (fun b => Z.eqb (bucket_id b) bucket) buckets in
      match bucket_name with
      | None => ret result
      | Some bucket_name =>
        if String.eqb bucket_name "" then ret result
        else
          let strategy :=
            get_default (bucket_strategies !! bucket_name) default_strategy in
          if String.eqb strategy "manual" then ret result
          else
            task <- perform (CGetTask task_id) ;;
            existing_raw <- perform (CGetBucketTasksRaw project_id view bucket) ;;
            existing_raw <-
              lift (filter_by_id (fun id => negb (Z.eqb id task_id)) existing_raw) ;;
            let existing_sorted := build_existing_sorted existing_raw strategy in
            let new_key := _get_task_sort_key task strategy in
            let existing_keys := map fst existing_sorted in
            let insert_idx := bisect_left existing_keys new_key in
            let new_pos := new_position existing_sorted insert_idx in
            _ <- perform (CSetViewPosition task_id view new_pos) ;;
            ret {| pr_task_id := task_id; pr_bucket_id := bucket;
                   pr_view_id := view; pr_position_set := true;
                   pr_position := Some new_pos |}
      end.

(** "Apply config defaults to tasks": the loop writes into the
    dictionaries of the caller. *)
Definition apply_config_defaults (project_config : ProjectConfig)
    (apply_default_labels : bool) (tasks : list nat) (σ : store) : store :=
  let default_labels := get_default (cfg_default_labels project_config) [] in
  let default_bucket := get_default (cfg_default_bucket project_config) "" in
  fold_left
    (fun σ l =>
       match σ !! l with
       | None => σ
       | Some task =>
         let σ :=
           if (apply_default_labels && negb (truthy_list (ti_labels task))
               && truthy_list (Some default_labels))%bool
           then <[l := set_labels default_labels task]> σ
           else σ in
         match σ !! l with
         | None => σ
         | Some task =>
           if (negb (truthy_str (ti_bucket task))
               && negb (String.eqb default_bucket ""))%bool
           then <[l := set_bucket default_bucket task]> σ
           else σ
         end
       end)
    tasks σ.

(** Step 2: "Find all label names needed". *)
Definition needed_labels (label_map : gmap string Z) (tasks : list TaskInput)
    : list string :=
  fold_left
    (fun needed task =>
       fold_left
         (fun needed label_name =>
            if bool_decide (is_Some (label_map !! label_name)) then needed
            else set_add needed label_name)
         (get_default (ti_labels task) []) needed)
    tasks [].

(** Step 3: "Create missing labels if enabled". *)
Definition step3_create_labels (create_missing_labels : bool)
    (needed : list string) (label_map : gmap string Z) (rep : Report)
    : M (gmap string Z * Report) :=
  if (create_missing_labels && bool_decide (needed <> []))%bool then
    for_each (enumerate (set_iter needed)) (label_map, rep)
      (fun '(label_map, rep) '(i, label_name) =>
         r <- try_ (perform
                      (CCreateLabel label_name
                         (nth (Z.to_nat (i mod Z.of_nat (length colors))) colors ""))) ;;
         match r with
         | Ok new_label =>
           ret (<[label_name := label_id new_label]> label_map,
                add_label_created label_name rep)
         | Raise e =>
           ret (label_map,
                add_error ("Failed to create label '" +:+ label_name +:+ "': " +:+ e)
                  rep)
         end)
  else ret (label_map, rep).

(** The bucket names that tasks refer to and the map does not have. *)
Definition needed_buckets (bucket_map : gmap string Z) (tasks : list TaskInput)
    : list string :=
  fold_left
    (fun needed task =>
       match ti_bucket task with
       | Some bucket_name =>
         if (negb (String.eqb bucket_name "")
             && negb (bool_decide (is_Some (bucket_map !! bucket_name))))%bool
         then set_add needed bucket_name
         else needed
       | None => needed
       end)
    tasks [].

(** "Create missing buckets if enabled": the inner loop of step 4. *)
Definition create_missing_bucket_loop (project_id view : Z)
    (existing_buckets : list Bucket) (needed : list string)
    (bucket_map : gmap string Z) (rep : Report) : M (gmap string Z * Report) :=
  for_each (enumerate (set_iter needed)) (bucket_map, rep)
    (fun '(bucket_map, rep) '(i, bucket_name) =>
       r <- try_ (perform
                    (CCreateBucket project_id view bucket_name
                       (Z.of_nat (length existing_buckets) + i))) ;;
       match r with
       | Ok new_bucket =>
         ret (<[bucket_name := bucket_id new_bucket]> bucket_map, rep)
       | Raise e =>
         ret (bucket_map,
              add_error ("Failed to create bucket '" +:+ bucket_name +:+ "': " +:+ e)
                rep)
       end).

(** Step 4: "Fetch kanban view and buckets for bucket positioning".
    [view_id] is assigned before the buckets are listed, so it stays
    set when listing them fails. *)
Definition step4_buckets (project_id : Z) (tasks : list TaskInput)
    (create_missing_buckets : bool) (rep : Report)
    : M (option Z * gmap string Z * Report) :=
  let needs_buckets := existsb (fun task => truthy_str (ti_bucket task)) tasks in
  if needs_buckets then
    r <- try_ (perform (CGetKanbanView project_id)) ;;
    match r with
    | Raise e => ret (None, ∅, add_error ("Failed to get kanban view: " +:+ e) rep)
    | Ok view =>
      let view := view_id view in
      r <- try_ (perform (CListBuckets project_id view)) ;;
      match r with
      | Raise e =>
        ret (Some view, ∅, add_error ("Failed to get kanban view: " +:+ e) rep)
      | Ok existing_buckets =>
        let bucket_map := name_map bucket_title bucket_id existing_buckets in
        if create_missing_buckets then
          out <-
            create_missing_bucket_loop project_id view existing_buckets
              (needed_buckets bucket_map tasks) bucket_map rep ;;
          let '(bucket_map, rep) := out in
          ret (Some view, bucket_map, rep)
        else ret (Some view, bucket_map, rep)
      end
    end
  else ret (None, ∅, rep).

(** Step 5: "Create all tasks and build ref→id map". *)
Definition step5_create_tasks (project_id : Z) (tasks : list TaskInput)
    (rep : Report)
    : M (gmap string Z * list (TaskInput * CreatedTask) * Report) :=
  for_each tasks (∅, [], rep)
    (fun '(ref_map, created_tasks, rep) task_input =>
       r <- try_ (title <- lift (getitem (ti_title task_input) "title") ;;
                  perform
                    (CCreateTask project_id
                       {| data_title := title;
                          data_description :=
                            get_default (ti_description task_input) "";
                          data_start_date :=
                            get_default (ti_start_date task_input) "";
                          data_end_date := get_default (ti_end_date task_input) "";
                          data_due_date := get_default (ti_due_date task_input) "";
                          data_priority :=
                            get_default (ti_priority task_input) 0 |})) ;;
       match r with
       | Ok created_task =>
         let rep :=
           add_created
             {| te_ref := ti_ref task_input; te_id := ct_id created_task;
                te_title := ct_title created_task |} rep in
         let ref_map :=
           match ti_ref task_input with
           | Some ref =>
             if negb (String.eqb ref "") then <[ref := ct_id created_task]> ref_map
             else ref_map
           | None => ref_map
           end in
         ret (ref_map, created_tasks ++ [(task_input, created_task)], rep)
       | Raise e =>
         ret (ref_map, created_tasks,
              add_error
                ("Failed to create task '"
                 +:+ get_default (ti_title task_input) "?" +:+ "': " +:+ e) rep)
       end).

(** Step 6: "Add labels to tasks". *)
Definition step6_add_labels (label_map : gmap string Z)
    (created_tasks : list (TaskInput * CreatedTask)) (rep : Report) : M Report :=
  for_each created_tasks rep
    (fun rep '(task_input, created_task) =>
       for_each (get_default (ti_labels task_input) []) rep
         (fun rep label_name =>
            match lookup_truthy label_map label_name with
            | Some label =>
              r <- try_ (perform (CAddLabel (ct_id created_task) label)) ;;
              match r with
              | Ok _ => ret rep
              | Raise e =>
                ret (add_error
                       ("Failed to add label '" +:+ label_name +:+ "' to task "
                        +:+ str_of_Z (ct_id created_task) +:+ ": " +:+ e) rep)
              end
            | None =>
              ret (add_error
                     ("Label '" +:+ label_name +:+ "' not found for task "
                      +:+ str_of_Z (ct_id created_task)) rep)
            end)).

(** Step 7: "Create relations". *)
Definition step7_create_relations (ref_map : gmap string Z)
    (created_tasks : list (TaskInput * CreatedTask)) (rep : Report) : M Report :=
  for_each created_tasks rep
    (fun rep '(task_input, created_task) =>
       let task_id := ct_id created_task in
       (* blocked_by: this task is blocked by other tasks *)
       rep <-
         for_each (get_default (ti_blocked_by task_input) []) rep
           (fun rep blocker_ref =>
              match lookup_truthy ref_map blocker_ref with
              | Some blocker_id =>
                r <- try_ (perform (CCreateRelation task_id "blocked" blocker_id)) ;;
                match r with
                | Ok _ => ret (add_relation rep)
                | Raise e =>
                  ret (add_error
                         ("Failed to create blocked relation for task "
                          +:+ str_of_Z task_id +:+ ": " +:+ e) rep)
                end
              | None =>
                ret (add_error
                       ("Unknown ref '" +:+ blocker_ref
                        +:+ "' in blocked_by for task " +:+ str_of_Z task_id) rep)
              end) ;;
       (* blocks: this task blocks other tasks *)
       rep <-
         for_each (get_default (ti_blocks task_input) []) rep
           (fun rep blocked_ref =>
              match lookup_truthy ref_map blocked_ref with
              | Some blocked_id =>
                r <- try_ (perform (CCreateRelation task_id "blocking" blocked_id)) ;;
                match r with
                | Ok _ => ret (add_relation rep)
                | Raise e =>
                  ret (add_error
                         ("Failed to create blocking relation for task "
                          +:+ str_of_Z task_id +:+ ": " +:+ e) rep)
                end
              | None =>
                ret (add_error
                       ("Unknown ref '" +:+ blocked_ref
                        +:+ "' in blocks for task " +:+ str_of_Z task_id) rep)
              end) ;;
       (* subtask_of: this task is a subtask of another *)
       match ti_subtask_of task_input with
       | Some parent_ref =>
         if negb (String.eqb parent_ref "") then
           match lookup_truthy ref_map parent_ref with
           | Some parent_id =>
             r <- try_ (perform (CCreateRelation task_id "parenttask" parent_id)) ;;
             match r with
             | Ok _ => ret (add_relation rep)
             | Raise e =>
               ret (add_error
                      ("Failed to create subtask relation for task "
                       +:+ str_of_Z task_id +:+ ": " +:+ e) rep)
             end
           | None =>
             ret (add_error
                    ("Unknown ref '" +:+ parent_ref
                     +:+ "' in subtask_of for task " +:+ str_of_Z task_id) rep)
           end
         else ret rep
       | None => ret rep
       end).

(** [if view_id:] on the optional identifier of the view. *)
Definition view_truthy (view : option Z) : bool :=
  match view with
  | Some v => truthy_int v
  | None => false
  end.

(** Step 8: "Set bucket positions". *)
Definition step8_place_in_buckets (project_id : Z) (view : option Z)
    (bucket_map : gmap string Z)
    (created_tasks : list (TaskInput * CreatedTask)) (rep : Report) : M Report :=
  match view with
  | Some view_id =>
    if (truthy_int view_id && negb (bool_decide (bucket_map = ∅)))%bool then
      for_each created_tasks rep
        (fun rep '(task_input, created_task) =>
           match ti_bucket task_input with
           | Some bucket_name =>
             if negb (String.eqb bucket_name "") then
               match lookup_truthy bucket_map bucket_name with
               | Some bucket =>
                 r <- try_ (_set_task_position_impl (ct_id created_task)
                              project_id view_id bucket false) ;;
                 match r with
                 | Ok _ => ret rep
                 | Raise e =>
                   ret (add_error
                          ("Failed to set bucket for task "
                           +:+ str_of_Z (ct_id created_task) +:+ ": " +:+ e) rep)
                 end
               | None =>
                 ret (add_error
                        ("Bucket '" +:+ bucket_name +:+ "' not found for task "
                         +:+ str_of_Z (ct_id created_task)) rep)
               end
             else ret rep
           | None => ret rep
           end)
    else ret rep
  | None => ret rep
  end.

(** "Group newly created tasks by bucket". *)
Definition group_by_bucket (created_tasks : list (TaskInput * CreatedTask))
    : list (string * list (TaskInput * CreatedTask)) :=
  fold_left
    (fun groups '(task_input, created_task) =>
       match ti_bucket task_input with
       | Some bucket_name =>
         if negb (String.eqb bucket_name "")
         then group_add groups bucket_name (task_input, created_task)
         else groups
       | None => groups
       end)
    created_tasks [].

(** "For each new task, find insertion point and calculate position":
    the inner loop of step 9, on the working sequence of one bucket. *)
Definition place_new_tasks (view : Z) (strategy : string)
    (bucket_tasks : list (TaskInput * CreatedTask))
    (existing_sorted : list (SortKey * float)) (existing_keys : list SortKey)
    (rep : Report)
    : M (list (SortKey * float) * list SortKey * Report) :=
  for_each bucket_tasks (existing_sorted, existing_keys, rep)
    (fun '(existing_sorted, existing_keys, rep) '(task_input, created_task) =>
       let new_key := _get_input_sort_key task_input created_task strategy in
       let insert_idx := bisect_left existing_keys new_key in
       let new_pos := new_position existing_sorted insert_idx in
       r <- try_ (perform (CSetViewPosition (ct_id created_task) view new_pos)) ;;
       let rep :=
         match r with
         | Ok _ => rep
         | Raise e =>
           add_error ("Failed to set position for task "
                      +:+ str_of_Z (ct_id created_task) +:+ ": " +:+ e) rep
         end in
       ret (list_insert_at insert_idx (new_key, new_pos) existing_sorted,
            list_insert_at insert_idx new_key existing_keys, rep)).

(** Step 9: "Auto-sort tasks based on project config sort_strategy". *)
Definition step9_auto_sort (project_id : Z) (apply_sort : bool)
    (project_config : option ProjectConfig) (view : option Z)
    (bucket_map : gmap string Z)
    (created_tasks : list (TaskInput * CreatedTask)) (rep : Report) : M Report :=
  match view with
  | Some view_id =>
    if (apply_sort && config_truthy project_config && truthy_int view_id)%bool then
      let sort_strategy :=
        get_default (project_config ≫= cfg_sort_strategy)
          {| ss_default := None; ss_buckets := None |} in
      let default_strategy := get_default (ss_default sort_strategy) "manual" in
      let bucket_strategies := get_default (ss_buckets sort_strategy) ∅ in
      for_each (group_by_bucket created_tasks) rep
        (fun rep '(bucket_name, bucket_tasks) =>
           let strategy :=
             get_default (bucket_strategies !! bucket_name) default_strategy in
           if String.eqb strategy "manual" then ret rep
           else
             match lookup_truthy bucket_map bucket_name with
             | None => ret rep
             | Some bucket =>
               r <- try_ (perform (CGetBucketTasksRaw project_id view_id bucket)) ;;
               match r with
               | Raise e =>
                 ret (add_error
                        ("Failed to fetch existing tasks in bucket '"
                         +:+ bucket_name +:+ "': " +:+ e) rep)
               | Ok existing_raw =>
                 let new_task_ids := map (fun tc => ct_id tc.2) bucket_tasks in
                 existing_raw <-
                   lift (filter_by_id
                           (fun id => negb (bool_decide (id ∈ new_task_ids)))
                           existing_raw) ;;
                 let existing_sorted := build_existing_sorted existing_raw strategy in
                 let existing_keys := map fst existing_sorted in
                 out <-
                   place_new_tasks view_id strategy bucket_tasks
                     existing_sorted existing_keys rep ;;
                 let '(_, _, rep) := out in
                 ret rep
               end
             end)
    else ret rep
  | None => ret rep
  end.

(** Steps 1 to 9, on the task inputs as the defaults left them. *)
Definition batch_steps (project_id : Z) (tasks : list TaskInput)
    (create_missing_labels create_missing_buckets apply_sort : bool)
    (project_config : option ProjectConfig) : M Report :=
  let rep := empty_report in
  (* Step 1: Fetch existing labels and build name→id map *)
  existing_labels <- perform CListLabels ;;
  let label_map := name_map label_title label_id existing_labels in
  (* Steps 2 and 3 *)
  out <-
    step3_create_labels create_missing_labels (needed_labels label_map tasks)
      label_map rep ;;
  let '(label_map, rep) := out in
  out <- step4_buckets project_id tasks create_missing_buckets rep ;;
  let '(view, bucket_map, rep) := out in
  out <- step5_create_tasks project_id tasks rep ;;
  let '(ref_map, created_tasks, rep) := out in
  rep <- step6_add_labels label_map created_tasks rep ;;
  rep <- step7_create_relations ref_map created_tasks rep ;;
  rep <- step8_place_in_buckets project_id view bucket_map created_tasks rep ;;
  step9_auto_sort project_id apply_sort project_config view bucket_map
    created_tasks rep.

(** [_batch_create_tasks_impl]: the report or the exception, the
    dictionaries of the caller after the call, and the calls made. *)
Definition _batch_create_tasks_impl (project_id : Z) (tasks : list nat)
    (create_missing_labels create_missing_buckets use_project_config
       apply_sort apply_default_labels : bool)
    (σ : store) (tr : list call) : result Report * store * list call :=
  (* Load project config if enabled *)
  match (if use_project_config then perform (CGetProjectConfig project_id)
         else ret None) tr with
  | (Raise e, tr) => (Raise e, σ, tr)
  | (Ok project_config, tr) =>
    (* Apply config defaults to tasks *)
    let σ :=
      match project_config with
      | Some c =>
        if config_truthy project_config
        then apply_config_defaults c apply_default_labels tasks σ
        else σ
      | None => σ
      end in
    let '(r, tr) :=
      batch_steps project_id (omap (fun l => σ !! l) tasks)
        create_missing_labels create_missing_buckets apply_sort
        project_config tr in
    (r, σ, tr)
  end.

(** [_create_from_template_impl], from the parsed anchor time on. *)
Definition _create_from_template_impl (project_id : Z) (template : string)
    (anchor_dt : datetime) (labels : option (list string))
    (title_suffix : string) (bucket : option string) : M Report :=
  project_config <- perform (CGetProjectConfig project_id) ;;
  if negb (config_truthy project_config) then
    lift (Raise ("No config found for project " +:+ str_of_Z project_id))
  else
    let templates := get_default (project_config ≫= cfg_templates) [] in
    match List.find (fun nt => String.eqb nt.1 template) templates with
    | None =>
      let available :=
        match templates with
        | [] => "none"
        | _ => list_repr (map fst templates)
        end in
      lift (Raise ("Template '" +:+ template +:+ "' not found. Available: "
                   +:+ available))
    | Some (_, tmpl) =>
      let template_labels := get_default (tmpl_default_labels tmpl) [] in
      let all_labels := template_labels ++ get_default labels [] in
      tasks <-
        lift (expand_tasks anchor_dt all_labels title_suffix bucket
                (get_default (tmpl_tasks tmpl) [])) ;;
      fun tr =>
        let '(r, _, tr) :=
          _batch_create_tasks_impl project_id (seq 0 (length tasks))
            true false true true false tasks tr in
        (r, tr)
    end.

(** What step 7 does with one entry: its three loops run this body,
    with the kind and the wording of the field. *)
Definition relate_one (ref_map : gmap string Z) (rep : Report) (e : rel_entry)
    : M Report :=
  match lookup_truthy ref_map (e_ref e) with
  | Some other =>
    r <- try_ (perform
                 (CCreateRelation (e_task e) (relation_kind (e_field e)) other)) ;;
    match r with
    | Ok _ => ret (add_relation rep)
    | Raise err => ret (add_error (relation_failed_message e err) rep)
    end
  | None => ret (add_error (unknown_ref_message e) rep)
  end.

End Orchestrator.

(** The ref map that step 5 builds from the created tasks. *)
Definition ref_map_of (created_tasks : list (TaskInput * CreatedTask))
    : gmap string Z :=
  fold_left
    (fun ref_map tc =>
       match ti_ref tc.1 with
       | Some ref =>
         if negb (String.eqb ref "") then <[ref := ct_id tc.2]> ref_map else ref_map
       | None => ref_map
       end)
    created_tasks ∅.


(** The relation calls of a history, in order. *)
Definition relation_calls_in (tr : list call) : list call :=
  List.filter (fun c => match c with CCreateRelation _ _ _ => true | _ => false end) tr.


(** *** Placing several tasks, as section 4.2 words it *)

Abbreviation working_sequence := working_positions (only parsing).

(** The position-set calls for the new tasks of one bucket: each position
    is allocated in the sequence that holds the earlier tasks. *)
Fixpoint position_calls (view : Z) (strategy : string)
    (existing_sorted : list (SortKey * float))
    (bucket_tasks : list (TaskInput * CreatedTask)) : list call :=
  match bucket_tasks with
  | [] => []
  | (task_input, created_task) :: rest =>
    let new_key := _get_input_sort_key task_input created_task strategy in
    CSetViewPosition (ct_id created_task) view (allocate existing_sorted new_key)
    :: position_calls view strategy (place existing_sorted new_key) rest
  end.

(** *** A small service to run the orchestrator on *)

Definition empty_api_task (id : Z) : ApiTask :=
  {| at_id := Some id; at_title := None; at_start_date := None;
     at_due_date := None; at_end_date := None; at_priority := None;
     at_position := None |}.

(** Two buckets exist; every call succeeds; a new entity gets an
    identifier that grows with the history. *)
Definition sample_service (config : option ProjectConfig)
    (in_bucket : list ApiTask) : service :=
  fun tr c =>
    match c return result (answer c) with
    | CListLabels => Ok []
    | CCreateLabel title _ =>
      Ok {| label_id := 1 + Z.of_nat (length tr); label_title := title |}
    | CGetKanbanView _ => Ok {| view_id := 7 |}
    | CListBuckets _ _ =>
      Ok [ {| bucket_id := 11; bucket_title := "To Do" |};
           {| bucket_id := 12; bucket_title := "Done" |} ]
    | CCreateBucket _ _ title _ =>
      Ok {| bucket_id := 20 + Z.of_nat (length tr); bucket_title := title |}
    | CCreateTask _ data =>
      Ok {| ct_id := 100 + Z.of_nat (length tr); ct_title := data_title data |}
    | CAddLabel _ _ => Ok tt
    | CCreateRelation _ _ _ => Ok tt
    | CPlaceInBucket _ _ _ _ => Ok tt
    | CGetTask id => Ok (empty_api_task id)
    | CGetBucketTasksRaw _ _ _ => Ok in_bucket
    | CSetViewPosition _ _ _ => Ok tt
    | CGetProjectConfig _ => Ok config
    end.

Definition task_named (title : string) : TaskInput :=
  {| ti_title := Some title; ti_description := None; ti_start_date := None;
     ti_end_date := None; ti_due_date := None; ti_priority := None;
     ti_labels := None; ti_bucket := None; ti_ref := None;
     ti_blocked_by := None; ti_blocks := None; ti_subtask_of := None |}.

Definition with_ref (ref : string) (t : TaskInput) : TaskInput :=
  {| ti_title := ti_title t; ti_description := ti_description t;
     ti_start_date := ti_start_date t; ti_end_date := ti_end_date t;
     ti_due_date := ti_due_date t; ti_priority := ti_priority t;
     ti_labels := ti_labels t; ti_bucket := ti_bucket t; ti_ref := Some ref;
     ti_blocked_by := ti_blocked_by t; ti_blocks := ti_blocks t;
     ti_subtask_of := ti_subtask_of t |}.

Definition with_blocked_by (refs : list string) (t : TaskInput) : TaskInput :=
  {| ti_title := ti_title t; ti_description := ti_description t;
     ti_start_date := ti_start_date t; ti_end_date := ti_end_date t;
     ti_due_date := ti_due_date t; ti_priority := ti_priority t;
     ti_labels := ti_labels t; ti_bucket := ti_bucket t; ti_ref := ti_ref t;
     ti_blocked_by := Some refs; ti_blocks := ti_blocks t;
     ti_subtask_of := ti_subtask_of t |}.


Definition with_due_date (date : string) (t : TaskInput) : TaskInput :=
  {| ti_title := ti_title t; ti_description := ti_description t;
     ti_start_date := ti_start_date t; ti_end_date := ti_end_date t;
     ti_due_date := Some date; ti_priority := ti_priority t;
     ti_labels := ti_labels t; ti_bucket := ti_bucket t; ti_ref := ti_ref t;
     ti_blocked_by := ti_blocked_by t; ti_blocks := ti_blocks t;
     ti_subtask_of := ti_subtask_of t |}.

(** A task already in the bucket, due on 2025-06-01, at position 1000.0. *)
Definition june_task : ApiTask :=
  {| at_id := Some 50; at_title := Some "Old"; at_start_date := None;
     at_due_date := Some "2025-06-01"; at_end_date := None; at_priority := None;
     at_position := Some 1000%float |}.

(** The same task at position -5000.0. *)
Definition far_left_task : ApiTask :=
  {| at_id := Some 50; at_title := Some "Old"; at_start_date := None;
     at_due_date := Some "2025-06-01"; at_end_date := None; at_priority := None;
     at_position := Some (-5000)%float |}.

(** The batch of the end-to-end scenario of section 8. *)
Definition design_and_build : list TaskInput :=
  [ with_due_date "2025-01-10" (with_ref "d" (task_named "Design"));
    with_blocked_by ["d"] (with_ref "b" (task_named "Build")) ].

(** A configuration with a default bucket and the [due_date] strategy. *)
Definition sample_config : ProjectConfig :=
  {| cfg_name := Some "Kitchen";
     cfg_sort_strategy := Some {| ss_default := Some "due_date"; ss_buckets := None |};
     cfg_default_labels := Some ["home"];
     cfg_default_bucket := Some "To Do";
     cfg_templates := None |}.

(** *** Definitions used to state the facts *)

(** What the loop makes of one task input. *)
Definition with_defaults (project_config : ProjectConfig)
    (apply_default_labels : bool) (task : TaskInput) : TaskInput :=
  let default_labels := get_default (cfg_default_labels project_config) [] in
  let default_bucket := get_default (cfg_default_bucket project_config) "" in
  let task :=
    if (apply_default_labels && negb (truthy_list (ti_labels task))
        && truthy_list (Some default_labels))%bool
    then set_labels default_labels task else task in
  if (negb (truthy_str (ti_bucket task)) && negb (String.eqb default_bucket ""))%bool
  then set_bucket default_bucket task else task.

Definition defaults_step (c : ProjectConfig) (adl : bool) (σ : list TaskInput)
    (l : nat) : list TaskInput :=
  match σ !! l with
  | Some t => <[l := with_defaults c adl t]> σ
  | None => σ
  end.

(** The calls that step 7 makes for one entry. *)
Definition calls_of_entry (ref_map : gmap string Z) (e : rel_entry) : list call :=
  match lookup_truthy ref_map (e_ref e) with
  | Some other => [CCreateRelation (e_task e) (relation_kind (e_field e)) other]
  | None => []
  end.

(** The batch of section 8: B, blocked by "a", listed before A. *)
Definition forward_batch : list TaskInput :=
  [ with_blocked_by ["a"] (with_ref "b" (task_named "B"));
    with_ref "a" (task_named "A") ].

Definition dangling_created : list (TaskInput * CreatedTask) :=
  [ (with_blocked_by ["missing"] (task_named "T"), {| ct_id := 5; ct_title := "T" |}) ].

(** The sort key of a new task of a bucket. *)
Definition input_key (strategy : string) (tc : TaskInput * CreatedTask) : SortKey :=
  _get_input_sort_key tc.1 tc.2 strategy.

Definition two_siblings : list (TaskInput * CreatedTask) :=
  [ (task_named "A", {| ct_id := 1; ct_title := "A" |});
    (task_named "B", {| ct_id := 2; ct_title := "B" |}) ].



End Batch.

(** ** Sorting a bucket (section 4.2, [sort_bucket]) *)

Module BucketSort.
Import Py SortKeys Allocator Batch.

(** [sorted(xs, key=key)]: the stable sort again, on any elements. *)
Fixpoint insert_sorted {A} (key : A -> SortKey) (x : A) (l : list A) : list A :=
  match l with
  | [] => [x]
  | y :: l' =>
    if key_ltb (key x) (key y) then x :: y :: l' else y :: insert_sorted key x l'
  end.

Definition sorted {A} (l : list A) (key : A -> SortKey) : list A :=
  fold_left (fun acc x => insert_sorted key x acc) l [].

(** The pair that the loop "Build sorted list of (sort_key, position)"
    appends for one existing task. *)
Definition key_and_position (strategy : string) (t : ApiTask) : SortKey * float :=
  (_get_task_sort_key t strategy, get_default (at_position t) 0%float).

(** Every task of the answer has an ["id"]. *)
Definition all_have_id (existing_raw : list ApiTask) : bool :=
  forallb (fun t => bool_decide (is_Some (at_id t))) existing_raw.

(** Equality of two keys. *)
Definition key_eqb (a b : SortKey) : bool :=
  match a, b with
  | KStr s, KStr t => String.eqb s t
  | KInt x, KInt y => Z.eqb x y
  | _, _ => false
  end.

(** One entry of the [positions] argument of [_batch_set_positions_impl]. *)
Record PositionEntry := {
  pe_task_id : option Z;
  pe_position : option float
}.

(** What [_batch_set_positions_impl] returns. *)
Record PositionsReport := {
  ps_updated : Z;
  ps_tasks : list (Z * float);
  ps_errors : list string
}.

Definition ps_add_error (msg : string) (r : PositionsReport) : PositionsReport :=
  {| ps_updated := ps_updated r; ps_tasks := ps_tasks r;
     ps_errors := ps_errors r ++ [msg] |}.

(** What [_sort_bucket_impl] returns. *)
Record SortReport := {
  sr_sorted : Z;
  sr_tasks : list (Z * float);
  sr_strategy : string;
  sr_errors : list string
}.

(** [(i + 1) * 1000.0]: the integer is converted to a float first. *)
Definition gap_position (i : Z) : float :=
  (PrimFloat.of_uint63 (Uint63.of_Z (i + 1)) * 1000)%float.

(** "Assign new positions with gaps (1000, 2000, 3000...)". *)
Definition assign_gap_positions (sorted_tasks : list ApiTask)
    : M (list PositionEntry) :=
  for_each (enumerate sorted_tasks) []
    (fun positions '(i, task) =>
       id <- lift (getitem (at_id task) "id") ;;
       ret (positions
            ++ [{| pe_task_id := Some id; pe_position := Some (gap_position i) |}])).

Section WithService.
Context (svc : service).

(** The body of the loop of [_batch_set_positions_impl]. *)
Definition set_one_position (view_id : Z) (result : PositionsReport)
    (pos : PositionEntry) : M PositionsReport :=
  let task_id := pe_task_id pos in
  let position := pe_position pos in
  if negb (truthy_int (get_default task_id 0)) then
    ret (ps_add_error "Position entry missing task_id" result)
  else
    let task_id := get_default task_id 0 in
    match position with
    | None =>
      ret (ps_add_error
             ("Position entry for task " +:+ str_of_Z task_id
              +:+ " missing position") result)
    | Some position =>
      r <- try_ (perform svc (CSetViewPosition task_id view_id position)) ;;
      match r with
      | Ok _ =>
        ret {| ps_updated := ps_updated result + 1;
               ps_tasks := ps_tasks result ++ [(task_id, position)];
               ps_errors := ps_errors result |}
      | Raise e =>
        ret (ps_add_error
               ("Failed to set position for task " +:+ str_of_Z task_id
                +:+ ": " +:+ e) result)
      end
    end.

Definition _batch_set_positions_impl (view_id : Z) (positions : list PositionEntry)
    : M PositionsReport :=
  for_each positions {| ps_updated := 0; ps_tasks := []; ps_errors := [] |}
    (set_one_position view_id).

Definition _sort_bucket_impl (project_id view_id bucket_id : Z) : M SortReport :=
  let result :=
    {| sr_sorted := 0; sr_tasks := []; sr_strategy := "manual"; sr_errors := [] |} in
  (* Get project config for sort strategy *)
  project_config <- perform svc (CGetProjectConfig project_id) ;;
  if negb (config_truthy project_config) then
    ret {| sr_sorted := 0; sr_tasks := []; sr_strategy := "manual";
           sr_errors := ["No project config found"] |}
  else
    let sort_strategy :=
      get_default (project_config ≫= cfg_sort_strategy)
        {| ss_default := None; ss_buckets := None |} in
    let default_strategy := get_default (ss_default sort_strategy) "manual" in
    let bucket_strategies := get_default (ss_buckets sort_strategy) ∅ in
    (* Get bucket name from bucket_id *)
    buckets <- perform svc (CListBuckets project_id view_id) ;;
    let bucket_name :=
      bucket_title <$> List.find (fun b => Z.eqb (Batch.bucket_id b) bucket_id) buckets in
    if negb (truthy_str bucket_name) then
      ret {| sr_sorted := 0; sr_tasks := []; sr_strategy := "manual";
             sr_errors := ["Bucket " +:+ str_of_Z bucket_id +:+ " not found"] |}
    else
      let bucket_name := get_default bucket_name "" in
      (* Get sort strategy for this bucket *)
      let strategy := get_default (bucket_strategies !! bucket_name) default_strategy in
      if String.eqb strategy "manual" then
        ret {| sr_sorted := 0; sr_tasks := []; sr_strategy := strategy;
               sr_errors := ["Bucket uses manual sorting - no auto-sort applied"] |}
      else
        (* Fetch all tasks in bucket *)
        tasks_raw <- perform svc (CGetBucketTasksRaw project_id view_id bucket_id) ;;
        match tasks_raw with
        | [] =>
          ret {| sr_sorted := 0; sr_tasks := []; sr_strategy := strategy;
                 sr_errors := [] |}
        | _ :: _ =>
          (* Sort tasks by strategy *)
          let sorted_tasks :=
            sorted tasks_raw (fun t => _get_task_sort_key t strategy) in
          positions <- assign_gap_positions sorted_tasks ;;
          (* Apply positions in batch *)
          batch_result <- _batch_set_positions_impl view_id positions ;;
          ret {| sr_sorted := ps_updated batch_result;
                 sr_tasks := ps_tasks batch_result;
                 sr_strategy := strategy;
                 sr_errors := [] ++ ps_errors batch_result |}
        end.

End WithService.

(** The strategy of a bucket under a configuration. *)
Definition strategy_of (project_config : option ProjectConfig) (bucket_name : string)
    : string :=
  let sort_strategy :=
    get_default (project_config ≫= cfg_sort_strategy)
      {| ss_default := None; ss_buckets := None |} in
  get_default (get_default (ss_buckets sort_strategy) ∅ !! bucket_name)
    (get_default (ss_default sort_strategy) "manual").

(** The position calls of a re-sort: the [i]-th task of the sorted list is
    sent position [(i + 1) * 1000.0]. *)
Definition gap_calls (view : Z) (sorted_tasks : list ApiTask) : list call :=
  imap (fun i t =>
          CSetViewPosition (get_default (at_id t) 0) view (gap_position (Z.of_nat i)))
    sorted_tasks.

(** The entry that the re-sort builds for the task at index [i]. *)
Definition gap_entry (i : nat) (t : ApiTask) : PositionEntry :=
  {| pe_task_id := at_id t; pe_position := Some (gap_position (Z.of_nat i)) |}.

(** The position calls of a history, in order. *)
Definition position_calls_in (tr : list call) : list call :=
  List.filter (fun c => match c with CSetViewPosition _ _ _ => true | _ => false end) tr.

(** The entries that [_batch_set_positions_impl] sends to the service. *)
Definition sendable (pos : PositionEntry) : bool :=
  (truthy_int (get_default (pe_task_id pos) 0)
   && bool_decide (is_Some (pe_position pos)))%bool.

Definition call_of_entry (view : Z) (pos : PositionEntry) : list call :=
  match pe_position pos with
  | Some position =>
    if truthy_int (get_default (pe_task_id pos) 0)
    then [CSetViewPosition (get_default (pe_task_id pos) 0) view position]
    else []
  | None => []
  end.

(** The pair that is reported for an entry that was sent. *)
Definition entry_pair (pos : PositionEntry) : option (Z * float) :=
  match pe_position pos with
  | Some position =>
    if truthy_int (get_default (pe_task_id pos) 0)
    then Some (get_default (pe_task_id pos) 0, position)
    else None
  | None => None
  end.

(** The task has an ["id"] other than 0. *)
Definition has_truthy_id (t : ApiTask) : bool :=
  match at_id t with
  | Some id => truthy_int id
  | None => false
  end.

(** The sorted tasks as [_sort_bucket_impl] sees them. *)
Definition sorted_tasks_of (tasks_raw : list ApiTask) (strategy : string)
    : list ApiTask :=
  sorted tasks_raw (fun t => _get_task_sort_key t strategy).

(** The one message of a call that sets no position. *)
Definition skip_message (project_config : option ProjectConfig)
    (bucket_name : option string) (bucket_id : Z) : string :=
  if negb (config_truthy project_config) then "No project config found"
  else if negb (truthy_str bucket_name)
  then "Bucket " +:+ str_of_Z bucket_id +:+ " not found"
  else "Bucket uses manual sorting - no auto-sort applied".

(** Three tasks of a bucket, with priorities 1, 5 and 1. *)
Definition three_tasks : list ApiTask :=
  [ {| at_id := Some 31; at_title := Some "a"; at_start_date := None;
       at_due_date := None; at_end_date := None; at_priority := Some 1;
       at_position := Some 10%float |};
    {| at_id := Some 32; at_title := Some "b"; at_start_date := None;
       at_due_date := None; at_end_date := None; at_priority := Some 5;
       at_position := Some 20%float |};
    {| at_id := Some 33; at_title := Some "c"; at_start_date := None;
       at_due_date := None; at_end_date := None; at_priority := Some 1;
       at_position := Some 30%float |} ].

(** A configuration that sorts every bucket by priority. *)
Definition priority_config : ProjectConfig :=
  {| cfg_name := None;
     cfg_sort_strategy := Some {| ss_default := Some "priority"; ss_buckets := None |};
     cfg_default_labels := None; cfg_default_bucket := None; cfg_templates := None |}.

(** A configuration that names the project and says nothing else. *)
Definition named_config : ProjectConfig :=
  {| cfg_name := Some "Kitchen"; cfg_sort_strategy := None;
     cfg_default_labels := None; cfg_default_bucket := None; cfg_templates := None |}.

End BucketSort.

(** ** Setting up a project ([setup_project]) *)

Module Setup.
Import Py SortKeys Batch.

(** One entry of the [labels] argument: [{"name": str, "color": str}]. *)
Record LabelSpec := { ls_name : option string; ls_color : option string }.

(** What [_setup_project_impl] returns. *)
Record SetupReport := {
  su_buckets_created : list string;
  su_labels_created : list string;
  su_tasks_result : option Report;
  su_errors : list string
}.

Definition su_empty : SetupReport :=
  {| su_buckets_created := []; su_labels_created := []; su_tasks_result := None;
     su_errors := [] |}.

Definition su_add_error (msg : string) (r : SetupReport) : SetupReport :=
  {| su_buckets_created := su_buckets_created r;
     su_labels_created := su_labels_created r;
     su_tasks_result := su_tasks_result r; su_errors := su_errors r ++ [msg] |}.

Definition su_add_bucket (name : string) (r : SetupReport) : SetupReport :=
  {| su_buckets_created := su_buckets_created r ++ [name];
     su_labels_created := su_labels_created r;
     su_tasks_result := su_tasks_result r; su_errors := su_errors r |}.

Definition su_add_label (name : string) (r : SetupReport) : SetupReport :=
  {| su_buckets_created := su_buckets_created r;
     su_labels_created := su_labels_created r ++ [name];
     su_tasks_result := su_tasks_result r; su_errors := su_errors r |}.

Definition su_set_tasks_result (rep : Report) (r : SetupReport) : SetupReport :=
  {| su_buckets_created := su_buckets_created r;
     su_labels_created := su_labels_created r;
     su_tasks_result := Some rep; su_errors := su_errors r |}.

Section WithService.
Context (svc : service) (set_iter : list string -> list string).

(** "Step 1: Get kanban view": the identifier of the view, or the report
    that the function returns at once. *)
Definition step1_kanban_view (project_id : Z) (buckets : list string)
    (result : SetupReport) : M (option Z + SetupReport) :=
  match buckets with
  | [] => ret (inl None)
  | _ :: _ =>
    r <- try_ (perform svc (CGetKanbanView project_id)) ;;
    match r with
    | Ok view => ret (inl (Some (view_id view)))
    | Raise e =>
      ret (inr (su_add_error ("Failed to get kanban view: " +:+ e) result))
    end
  end.

(** The body of the loop of step 2. *)
Definition ensure_bucket (project_id view : Z) (existing_names : list string)
    (result : SetupReport) (ib : Z * string) : M SetupReport :=
  let '(i, bucket_name) := ib in
  if bool_decide (bucket_name ∈ existing_names) then ret result
  else
    r <- try_ (perform svc (CCreateBucket project_id view bucket_name i)) ;;
    match r with
    | Ok _ => ret (su_add_bucket bucket_name result)
    | Raise e =>
      ret (su_add_error
             ("Failed to create bucket '" +:+ bucket_name +:+ "': " +:+ e) result)
    end.

(** "Step 2: Create missing buckets". *)
Definition step2_create_buckets (project_id : Z) (view : option Z)
    (buckets : list string) (result : SetupReport) : M SetupReport :=
  if (view_truthy view && truthy_list (Some buckets))%bool then
    let view_id := get_default view 0 in
    existing_buckets <- perform svc (CListBuckets project_id view_id) ;;
    let existing_names := map bucket_title existing_buckets in
    for_each (enumerate buckets) result
      (ensure_bucket project_id view_id existing_names)
  else ret result.

(** The body of the loop of step 3. *)
Definition ensure_label (existing_label_names : list string)
    (result : SetupReport) (label : LabelSpec) : M SetupReport :=
  let label_name := get_default (ls_name label) "" in
  if (negb (String.eqb label_name "")
      && negb (bool_decide (label_name ∈ existing_label_names)))%bool then
    r <- try_ (perform svc
                 (CCreateLabel label_name (get_default (ls_color label) "#3498db"))) ;;
    match r with
    | Ok _ => ret (su_add_label label_name result)
    | Raise e =>
      ret (su_add_error
             ("Failed to create label '" +:+ label_name +:+ "': " +:+ e) result)
    end
  else ret result.

(** "Step 3: Create missing labels". *)
Definition step3_create_labels (labels : list LabelSpec) (result : SetupReport)
    : M SetupReport :=
  match labels with
  | [] => ret result
  | _ :: _ =>
    existing_labels <- perform svc CListLabels ;;
    let existing_label_names := map label_title existing_labels in
    for_each labels result (ensure_label existing_label_names)
  end.

(** [_setup_project_impl]: the report or the exception, the dictionaries
    of the caller after the call, and the calls made. *)
Definition _setup_project_impl (project_id : Z) (buckets : option (list string))
    (labels : option (list LabelSpec)) (tasks : option (list nat))
    (σ : store) (tr : list call) : result SetupReport * store * list call :=
  let buckets := get_default buckets [] in
  let labels := get_default labels [] in
  let tasks := get_default tasks [] in
  let result := su_empty in
  match (out <- step1_kanban_view project_id buckets result ;;
         match out with
         | inr result => ret (inr result)
         | inl view =>
           result <- step2_create_buckets project_id view buckets result ;;
           result <- step3_create_labels labels result ;;
           ret (inl result)
         end) tr with
  | (Raise e, tr) => (Raise e, σ, tr)
  | (Ok (inr result), tr) => (Ok result, σ, tr)
  | (Ok (inl result), tr) =>
    (* Step 4: Create tasks using batch_create_tasks *)
    match tasks with
    | [] => (Ok result, σ, tr)
    | _ :: _ =>
      let '(r, σ, tr) :=
        _batch_create_tasks_impl svc set_iter project_id tasks
          false false true true false σ tr in
      match r with
      | Ok rep => (Ok (su_set_tasks_result rep result), σ, tr)
      | Raise e => (Raise e, σ, tr)
      end
    end
  end.

End WithService.

(** The calls of step 2 for the listed names: one for each name that no
    existing bucket has, with its index in the list as position. *)
Definition setup_bucket_calls (project_id view : Z) (existing_names : list string)
    (buckets : list string) : list call :=
  flat_map
    (fun ib : Z * string =>
       if bool_decide (ib.2 ∈ existing_names) then []
       else [CCreateBucket project_id view ib.2 ib.1])
    (enumerate buckets).

(** The names of the label entries that step 3 asks the service for. *)
Definition wanted_label (existing_label_names : list string) (label : LabelSpec)
    : bool :=
  (negb (String.eqb (get_default (ls_name label) "") "")
   && negb (bool_decide (get_default (ls_name label) "" ∈ existing_label_names)))%bool.

Definition setup_label_calls (existing_label_names : list string)
    (labels : list LabelSpec) : list call :=
  flat_map
    (fun label =>
       if wanted_label existing_label_names label
       then [CCreateLabel (get_default (ls_name label) "")
               (get_default (ls_color label) "#3498db")]
       else [])
    labels.

(** A service whose project has no kanban view. *)
Definition no_kanban_service : service :=
  fun tr c =>
    match c return result (answer c) with
    | CGetKanbanView project_id =>
      Raise ("No kanban view found for project " +:+ str_of_Z project_id)
    | c => sample_service None [] tr c
    end.

End Setup.

(** ** What a batch call may do *)

Module Behaviour.
Import Py SortKeys Batch.

(** [behaves P E Q m]: from any history, [m] appends calls that all
    satisfy [P]; when it raises, the message satisfies [E]; when it
    returns, the value satisfies [Q]. *)
Definition behaves {A} (P : call -> Prop) (E : string -> Prop) (Q : A -> Prop)
    (m : M A) : Prop :=
  forall tr, exists cs,
    (m tr).2 = tr ++ cs /\ Forall P cs /\
    match (m tr).1 with
    | Ok a => Q a
    | Raise e => E e
    end.

(** The calls that a batch may make after it has listed the labels, by
    the flags of the call: [sorting] stands for [apply_sort] together with
    a configuration, [with_buckets] for a task that names a bucket. *)
Definition allowed (create_missing_labels create_missing_buckets sorting
    with_buckets : bool) (c : call) : bool :=
  match c with
  | CListLabels => false
  | CCreateLabel _ _ => create_missing_labels
  | CGetKanbanView _ => with_buckets
  | CListBuckets _ _ => with_buckets
  | CCreateBucket _ _ _ _ => (with_buckets && create_missing_buckets)%bool
  | CCreateTask _ _ => true
  | CAddLabel _ _ => true
  | CCreateRelation _ _ _ => true
  | CPlaceInBucket _ _ _ _ => with_buckets
  | CGetTask _ => false
  | CGetBucketTasksRaw _ _ _ => (with_buckets && sorting)%bool
  | CSetViewPosition _ _ _ => (with_buckets && sorting)%bool
  | CGetProjectConfig _ => false
  end.

Definition may (create_missing_labels create_missing_buckets sorting
    with_buckets : bool) (c : call) : Prop :=
  allowed create_missing_labels create_missing_buckets sorting with_buckets c = true.

(** No exception; any value. *)
Definition never (e : string) : Prop := False.
Definition anything {A} (a : A) : Prop := True.

(** Some task names a bucket. *)
Definition names_bucket (tasks : list TaskInput) : bool :=
  existsb (fun task => truthy_str (ti_bucket task)) tasks.

(** The arguments that step 5 passes for a task with a title. *)
Definition data_of (title : string) (task_input : TaskInput) : TaskData :=
  {| data_title := title;
     data_description := get_default (ti_description task_input) "";
     data_start_date := get_default (ti_start_date task_input) "";
     data_end_date := get_default (ti_end_date task_input) "";
     data_due_date := get_default (ti_due_date task_input) "";
     data_priority := get_default (ti_priority task_input) 0 |}.

(** The calls of step 5: one for each task input that has a title. *)
Definition create_calls (project_id : Z) (tasks : list TaskInput) : list call :=
  flat_map
    (fun task_input =>
       match ti_title task_input with
       | Some title => [CCreateTask project_id (data_of title task_input)]
       | None => []
       end)
    tasks.

(** The entry of the report for a created task. *)
Definition entry_of (tc : TaskInput * CreatedTask) : TaskEntry :=
  {| te_ref := ti_ref tc.1; te_id := ct_id tc.2; te_title := ct_title tc.2 |}.

(** The task is to go to the bucket of that name. *)
Definition in_bucket (name : string) (tc : TaskInput * CreatedTask) : bool :=
  match ti_bucket tc.1 with
  | Some bucket_name => String.eqb bucket_name name
  | None => false
  end.

(** The calls of step 3 for the given names: the colours are taken in
    turn and start again after the sixth. *)
Definition label_calls (names : list string) : list call :=
  imap (fun i name => CCreateLabel name (nth (i mod 6)%nat colors "")) names.



(** A label name is missing when some task names it and the map of the
    existing labels does not have it. *)
Definition missing_label (label_map : gmap string Z) (tasks : list TaskInput)
    (name : string) : Prop :=
  label_map !! name = None /\
  exists task labels, task ∈ tasks /\ ti_labels task = Some labels /\ name ∈ labels.

(** What a task definition of a template and the arguments of the call
    determine of the task input, the two dates apart. *)
Definition expands_to (all_labels : list string) (title_suffix : string)
    (bucket : option string) (task_def : Template.TaskDef) (task : TaskInput) : Prop :=
  (exists title,
     Template.td_title task_def = Some title /\
     ti_title task
     = Some (if String.eqb title_suffix "" then title
             else title +:+ " " +:+ title_suffix)) /\
  ti_labels task = Some all_labels /\
  ti_bucket task = (if truthy_str bucket then bucket else None) /\
  ti_ref task
  = (if truthy_str (Template.td_ref task_def) then Template.td_ref task_def else None) /\
  ti_blocked_by task
  = (if truthy_list (Template.td_blocked_by task_def)
     then Template.td_blocked_by task_def else None) /\
  ti_description task = None /\ ti_due_date task = None /\
  ti_priority task = None /\ ti_blocks task = None /\ ti_subtask_of task = None.

(** A template of two tasks, the second blocked by the first. *)
Definition bake_template : Template.TemplateDef :=
  {| Template.tmpl_default_labels := Some ["baking"];
     Template.tmpl_tasks :=
       Some [ {| Template.td_title := Some "Mix"; Template.td_offset_hours := Some (-24);
                 Template.td_duration_hours := None; Template.td_ref := Some "mix";
                 Template.td_blocked_by := None |};
              {| Template.td_title := Some "Bake"; Template.td_offset_hours := Some 0;
                 Template.td_duration_hours := Some 4; Template.td_ref := None;
                 Template.td_blocked_by := Some ["mix"] |} ] |}.

(** A configuration with a default bucket and that template. *)
Definition bakery_config : ProjectConfig :=
  {| cfg_name := Some "Bakery"; cfg_sort_strategy := None;
     cfg_default_labels := None; cfg_default_bucket := Some "To Do";
     cfg_templates := Some [("bake", bake_template)] |}.

(** A template with a task definition that has no title. *)
Definition untitled_template : Template.TemplateDef :=
  {| Template.tmpl_default_labels := None;
     Template.tmpl_tasks :=
       Some [ {| Template.td_title := None; Template.td_offset_hours := None;
                 Template.td_duration_hours := None; Template.td_ref := None;
                 Template.td_blocked_by := None |} ] |}.

Definition untitled_config : ProjectConfig :=
  {| cfg_name := Some "Bakery"; cfg_sort_strategy := None;
     cfg_default_labels := None; cfg_default_bucket := None;
     cfg_templates := Some [("bake", untitled_template)] |}.


End Behaviour.

(** ** The configuration file and the operations on it (section 4.3) *)

Module ConfigStore.
Import Py Config.

(** The parsed configuration document: the mapping under ["projects"],
    from [str(project_id)] to the configuration of the project, when the
    document has that key, and the other top-level keys.  A document
    whose ["projects"] is not a mapping of mappings is outside the
    model. *)
Record document := {
  doc_projects : option (list (string * list (string * tree)));
  doc_others : list (string * tree)
}.

(** [CONFIG_FILE]: missing, not parseable ([yaml.safe_load] raises
    [YAMLError] with that message), or holding a document.  An empty file
    loads as [None], which [or {}] turns into the empty document. *)
Inductive file :=
| Absent
| Malformed (msg : string)
| Holds (doc : document).

(** [del d[key]], on any association list: the entries of the key go
    (a dictionary has at most one). *)
Fixpoint dict_del {V : Type} (d : list (string * V)) (key : string)
    : list (string * V) :=
  match d with
  | [] => []
  | (k, v) :: d' =>
    if String.eqb k key then dict_del d' key else (k, v) :: dict_del d' key
  end.

Definition _load_config (fs : file) : result document :=
  match fs with
  | Absent => Ok {| doc_projects := Some []; doc_others := [] |}
  | Malformed msg => Raise ("Malformed config file: " +:+ msg)
  | Holds config =>
    Ok match doc_projects config with
       | Some _ => config
       | None => {| doc_projects := Some []; doc_others := doc_others config |}
       end
  end.

(** A computation on the file: a value or an exception, and the file
    afterwards. *)
Definition F (A : Type) : Type := file -> result A * file.

Definition pure {A} (a : A) : F A := fun fs => (Ok a, fs).

Definition and_then {A B} (m : F A) (k : A -> F B) : F B :=
  fun fs =>
    match m fs with
    | (Ok a, fs') => k a fs'
    | (Raise e, fs') => (Raise e, fs')
    end.

Definition of_result {A} (r : result A) : F A := fun fs => (r, fs).

Notation "x <-- m ;; k" := (and_then m (fun x => k))
  (at level 100, m at next level, right associativity).

(** [yaml.safe_load] builds new objects for a value read from the file:
    the dictionaries of [t] are appended to the store, innermost first. *)
Fixpoint alloc (t : tree) (h : list (list (string * val)))
    : list (list (string * val)) * val :=
  match t with
  | TAtom a => (h, VAtom a)
  | TDict d =>
    let '(h', d') :=
      (fix go (d : list (string * tree)) (h : list (list (string * val)))
         : list (list (string * val)) * list (string * val) :=
         match d with
         | [] => (h, [])
         | kt :: d' =>
           let '(h1, v) := alloc kt.2 h in
           let '(h2, vs) := go d' h1 in
           (h2, (kt.1, v) :: vs)
         end) d h in
    (h' ++ [d'], VDict (length h'))
  end.

(** [yaml.dump] reads a value off the store; the fuel bounds the
    nesting, and [None] stands for a value that cannot be written (a
    dangling location, which Python excludes, or nesting beyond the
    fuel). *)
Fixpoint read (fuel : nat) (h : list (list (string * val))) (v : val) : option tree :=
  match v with
  | VAtom a => Some (TAtom a)
  | VDict l =>
    match fuel with
    | O => None
    | S fuel' =>
      match h !! l with
      | None => None
      | Some d =>
        option_map TDict
          ((fix go (d : list (string * val)) : option (list (string * tree)) :=
              match d with
              | [] => Some []
              | kv :: d' =>
                match read fuel' h kv.2, go d' with
                | Some t, Some ts => Some ((kv.1, t) :: ts)
                | _, _ => None
                end
              end) d)
      end
    end
  end.

(** The two inner loops, by name. *)
Fixpoint alloc_items (d : list (string * tree)) (h : list (list (string * val)))
    : list (list (string * val)) * list (string * val) :=
  match d with
  | [] => (h, [])
  | kt :: d' =>
    let '(h1, v) := alloc kt.2 h in
    let '(h2, vs) := alloc_items d' h1 in
    (h2, (kt.1, v) :: vs)
  end.

Fixpoint read_items (fuel : nat) (h : list (list (string * val)))
    (d : list (string * val)) : option (list (string * tree)) :=
  match d with
  | [] => Some []
  | kv :: d' =>
    match read fuel h kv.2, read_items fuel h d' with
    | Some t, Some ts => Some ((kv.1, t) :: ts)
    | _, _ => None
    end
  end.

Record GetResult := {
  get_project_id : Z;
  get_config : option (list (string * tree))
}.

Record SetResult := {
  set_project_id : Z;
  set_config : list (string * tree);
  set_created : bool
}.

Record UpdateResult := {
  upd_project_id : Z;
  upd_config : list (string * tree)
}.

Record DeleteResult := {
  del_project_id : Z;
  del_deleted : bool
}.

(** [key in d]. *)
Definition has_key {V : Type} (d : list (string * V)) (key : string) : bool :=
  bool_decide (is_Some (dict_get d key)).

Definition with_projects (projects : list (string * list (string * tree)))
    (config : document) : document :=
  {| doc_projects := Some projects; doc_others := doc_others config |}.

Section WithDisk.
(** Whether writing a document fails, and with which message: the disk
    is full, the directory cannot be written, and so on.  [recursion_limit]
    is the depth at which Python gives up a recursion. *)
Context (write_error : document -> option string) (recursion_limit : nat).

(** "Atomic write: write to temp file, then rename": on any exception
    the temporary file is removed and [CONFIG_FILE] is as it was.  After
    a write the file holds the document that was dumped: its values are
    [None], booleans, integers, strings, lists of these and mappings with
    string keys, which [yaml.safe_load] reads back as [yaml.dump] wrote
    them, the keys in the order of the mapping ([sort_keys=False]). *)
Definition _save_config (config : document) : F unit :=
  fun fs =>
    match write_error config with
    | Some e => (Raise e, fs)
    | None => (Ok tt, Holds config)
    end.

Definition load : F document := fun fs => (_load_config fs, fs).

Definition _get_project_config_impl (project_id : Z) : F GetResult :=
  config <-- load ;;
  projects <-- of_result (getitem (doc_projects config) "projects") ;;
  let project_config := dict_get projects (pretty project_id) in
  pure {| get_project_id := project_id; get_config := project_config |}.

Definition _set_project_config_impl (project_id : Z)
    (project_config : list (string * tree)) : F SetResult :=
  config <-- load ;;
  projects <-- of_result (getitem (doc_projects config) "projects") ;;
  let created := negb (has_key projects (pretty project_id)) in
  let config :=
    with_projects (dict_set projects (pretty project_id) project_config) config in
  _ <-- _save_config config ;;
  pure {| set_project_id := project_id; set_config := project_config;
          set_created := created |}.

(** [_deep_merge(existing, updates)] on the objects that the two values
    are, and the value of its result. *)
Definition deep_merge_values (existing updates : list (string * tree))
    : result (list (string * tree)) :=
  let '(h1, base) := alloc (TDict existing) [] in
  let '(h2, upd) := alloc (TDict updates) h1 in
  match base, upd with
  | VDict base, VDict upd =>
    match _deep_merge recursion_limit h2 base upd with
    | Some (h3, merged) =>
      match read recursion_limit h3 (VDict merged) with
      | Some (TDict merged) => Ok merged
      | _ => Raise "RecursionError"
      end
    | None => Raise "RecursionError"
    end
  | _, _ => Raise "RecursionError"
  end.

Definition _update_project_config_impl (project_id : Z)
    (updates : list (string * tree)) : F UpdateResult :=
  config <-- load ;;
  projects <-- of_result (getitem (doc_projects config) "projects") ;;
  let existing := get_default (dict_get projects (pretty project_id)) [] in
  merged <-- of_result (deep_merge_values existing updates) ;;
  let config := with_projects (dict_set projects (pretty project_id) merged) config in
  _ <-- _save_config config ;;
  pure {| upd_project_id := project_id; upd_config := merged |}.

Definition _delete_project_config_impl (project_id : Z) : F DeleteResult :=
  config <-- load ;;
  projects <-- of_result (getitem (doc_projects config) "projects") ;;
  let deleted := has_key projects (pretty project_id) in
  if deleted then
    let config := with_projects (dict_del projects (pretty project_id)) config in
    _ <-- _save_config config ;;
    pure {| del_project_id := project_id; del_deleted := deleted |}
  else pure {| del_project_id := project_id; del_deleted := deleted |}.

End WithDisk.

(** *** Definitions used to state the facts *)

(** Every dictionary of the value has each key once, as a Python
    dictionary has. *)
Fixpoint well_formed (t : tree) : Prop :=
  match t with
  | TAtom _ => True
  | TDict d =>
    NoDup (map fst d) /\
    (fix all (d : list (string * tree)) : Prop :=
       match d with
       | [] => True
       | kt :: d' => well_formed kt.2 /\ all d'
       end) d
  end.

(** The same, as a test. *)
Fixpoint well_formedb (t : tree) : bool :=
  match t with
  | TAtom _ => true
  | TDict d =>
    (bool_decide (NoDup (map fst d))
     && (fix all (d : list (string * tree)) : bool :=
           match d with
           | [] => true
           | kt :: d' => (well_formedb kt.2 && all d')%bool
           end) d)%bool
  end.

(** The projects of the file, as [_load_config] sees them. *)
Definition projects_in (fs : file) : list (string * list (string * tree)) :=
  match _load_config fs with
  | Ok config => get_default (doc_projects config) []
  | Raise _ => []
  end.

(** The stored configuration of a project. *)
Definition stored (fs : file) (project_id : Z) : option (list (string * tree)) :=
  dict_get (projects_in fs) (pretty project_id).

(** The other top-level keys of the file. *)
Definition others_in (fs : file) : list (string * tree) :=
  match _load_config fs with
  | Ok config => doc_others config
  | Raise _ => []
  end.



Definition readable (fs : file) : Prop :=
  match fs with
  | Malformed _ => False
  | _ => True
  end.

(** A disk that never fails, and one that always does. *)
Definition good_disk (config : document) : option string := None.
Definition full_disk (config : document) : option string :=
  Some "[Errno 28] No space left on device".

(** An update of that file: another default, and a strategy for a bucket. *)
Definition kitchen_update : list (string * tree) :=
  [("sort_strategy",
    TDict [("default", TAtom (AStr "priority"));
           ("buckets", TDict [("Done", TAtom (AStr "manual"))])]);
   ("default_bucket", TAtom (AStr "To Do"))].

(** A file with one project. *)
Definition kitchen_file : file :=
  Holds {| doc_projects :=
             Some [("7", [("name", TAtom (AStr "Kitchen"));
                          ("sort_strategy",
                           TDict [("default", TAtom (AStr "due_date"))])])];
           doc_others := [("version", TAtom (AInt 1))] |}.

End ConfigStore.

(** ** What the service answered to step 5, and the phases of a batch *)

Module Creation.
Import Py SortKeys Batch Behaviour.

(** What step 5 gets for each task input, in the order of the list: the
    answer of the service to the call that asks for the task, made after
    the calls for the inputs before it; for a task input without a title,
    the [KeyError] of [task_input["title"]], and no call. *)
Fixpoint outcomes (svc : service) (project_id : Z) (tasks : list TaskInput)
    (tr : list call) : list (TaskInput * result CreatedTask) :=
  match tasks with
  | [] => []
  | task_input :: rest =>
    match ti_title task_input with
    | Some title =>
      (task_input, svc tr (CCreateTask project_id (data_of title task_input)))
      :: outcomes svc project_id rest
           (tr ++ [CCreateTask project_id (data_of title task_input)])
    | None => (task_input, Raise "'title'") :: outcomes svc project_id rest tr
    end
  end.

(** The task inputs for which the service returned a task, each with
    that task. *)
Definition created_of (os : list (TaskInput * result CreatedTask))
    : list (TaskInput * CreatedTask) :=
  omap (fun o : TaskInput * result CreatedTask =>
          match o.2 with
          | Ok created_task => Some (o.1, created_task)
          | Raise _ => None
          end) os.

(** The message that step 5 records for a task input that failed. *)
Definition failure_message (task_input : TaskInput) (e : string) : string :=
  "Failed to create task '" +:+ get_default (ti_title task_input) "?" +:+ "': " +:+ e.

(** The messages for the task inputs for which no task was returned. *)
Definition failures_of (os : list (TaskInput * result CreatedTask)) : list string :=
  omap (fun o : TaskInput * result CreatedTask =>
          match o.2 with
          | Ok _ => None
          | Raise e => Some (failure_message o.1 e)
          end) os.

(** The calls of steps 3 and 4: labels and buckets are set up. *)
Definition is_setup_call (c : call) : bool :=
  match c with
  | CCreateLabel _ _ | CGetKanbanView _ | CListBuckets _ _ | CCreateBucket _ _ _ _ =>
    true
  | _ => false
  end.

(** The calls of step 6. *)
Definition is_attach_call (c : call) : bool :=
  match c with
  | CAddLabel _ _ => true
  | _ => false
  end.

(** The calls of steps 8 and 9: tasks are put into buckets and placed. *)
Definition is_position_call (c : call) : bool :=
  match c with
  | CPlaceInBucket _ _ _ _ | CGetBucketTasksRaw _ _ _ | CSetViewPosition _ _ _ => true
  | _ => false
  end.

(** A service that refuses every task whose title is "B". *)
Definition refusing_service : service :=
  fun tr c =>
    match c return result (answer c) with
    | CCreateTask _ data =>
      if String.eqb (data_title data) "B" then Raise "HTTP 500"
      else Ok {| ct_id := 100 + Z.of_nat (length tr); ct_title := data_title data |}
    | c => sample_service None [] tr c
    end.

(** Three task inputs: "A" with the ref "a", "B", and one without a
    title. *)
Definition a_b_untitled : list TaskInput :=
  [ with_ref "a" (task_named "A"); task_named "B";
    {| ti_title := None; ti_description := None; ti_start_date := None;
       ti_end_date := None; ti_due_date := None; ti_priority := None;
       ti_labels := None; ti_bucket := None; ti_ref := None;
       ti_blocked_by := None; ti_blocks := None; ti_subtask_of := None |} ].

End Creation.

(** ** Facts: the order on sort keys *)

Module KeyOrder.
Import Py SortKeys.

Lemma ascii_compare_le_lt (p q x : ascii) :
  Ascii.compare q p <> Lt -> Ascii.compare q x = Lt -> Ascii.compare p x = Lt.
Proof.
  unfold Ascii.compare. rewrite !N.compare_lt_iff. intros H1 H2.
  destruct (N.compare_spec (N_of_ascii q) (N_of_ascii p)); try congruence; lia.
Qed.

Lemma ascii_compare_eq (a b : ascii) : Ascii.compare a b = Eq -> a = b.
Proof. apply Ascii.compare_eq_iff. Qed.


(** [p <= q] and [q < x] give [p < x], on strings. *)
Lemma string_compare_le_lt (q : string) :
  forall p x : string,
    String.compare q p <> Lt -> String.compare q x = Lt -> String.compare p x = Lt.
Proof.
  induction q as [|a q IH]; intros [|b p] [|c x]; simpl; try congruence.
  destruct (Ascii.compare a b) eqn:Hab; try congruence.
  - apply ascii_compare_eq in Hab; subst b.
    destruct (Ascii.compare a c) eqn:Hac; try congruence.
    intros Hqp Hqx. eauto.
  - intros _.
    destruct (Ascii.compare a c) eqn:Hac; try congruence.
    + apply ascii_compare_eq in Hac; subst c. intros Hqx.
      assert (Hba : Ascii.compare b a = Lt).
      { rewrite Ascii.compare_antisym, Hab. reflexivity. }
      now rewrite Hba.
    + intros _.
      assert (Hbc : Ascii.compare b c = Lt).
      { apply (ascii_compare_le_lt b a c); congruence. }
      now rewrite Hbc.
Qed.

(** The same for keys of one kind: the fact binary search relies on. *)
Lemma key_le_lt (p q x : SortKey) :
  is_str_key p = is_str_key x -> is_str_key q = is_str_key x ->
  key_ltb q p = false -> key_ltb q x = true -> key_ltb p x = true.
Proof.
  destruct p as [p|p], q as [q|q], x as [x|x]; simpl; try congruence; intros _ _.
  - unfold String.ltb.
    destruct (String.compare q p) eqn:Hqp; try congruence;
      destruct (String.compare q x) eqn:Hqx; try congruence; intros _ _;
      rewrite (string_compare_le_lt q p x); congruence.
  - rewrite Z.ltb_ge, !Z.ltb_lt. lia.
Qed.

(** [<] on keys is asymmetric. *)
Lemma key_ltb_asym (a b : SortKey) : key_ltb a b = true -> key_ltb b a = false.
Proof.
  destruct a as [s|x], b as [t|y]; simpl; try congruence.
  - unfold String.ltb. rewrite (String.compare_antisym t s).
    now destruct (String.compare s t).
  - rewrite Z.ltb_lt, Z.ltb_ge. lia.
Qed.

(** Every strategy yields keys of one kind, on both record shapes. *)
Lemma key_kind_by_strategy (task : ApiTask) (task_input : TaskInput)
    (created_task : CreatedTask) (strategy : string) :
  is_str_key (_get_task_sort_key task strategy) = string_strategy strategy /\
  is_str_key (_get_input_sort_key task_input created_task strategy)
    = string_strategy strategy.
Proof.
  unfold _get_task_sort_key, _get_input_sort_key, string_strategy.
  repeat match goal with
         | |- context [String.eqb strategy ?s] =>
             destruct (String.eqb_spec strategy s); [subst strategy; simpl; auto|]
         end; simpl; auto.
Qed.

End KeyOrder.

(** ** Facts: the position allocator *)

Module AllocatorFacts.
Import Py SortKeys Allocator KeyOrder.

Lemma ascending_lookup (l : list SortKey) :
  keys_ascending l ->
  forall (i j : nat) (p q : SortKey),
    (i < j)%nat -> l !! i = Some p -> l !! j = Some q -> key_ltb q p = false.
Proof.
  unfold keys_ascending. induction 1 as [|a l Hs IH Hall]; intros i j p q Hij Hi Hj.
  - rewrite lookup_nil in Hi. discriminate.
  - destruct j as [|j]; [lia|]. simpl in Hj.
    destruct i as [|i]; simpl in Hi.
    + injection Hi as <-. rewrite Forall_forall in Hall.
      apply Hall. eapply list_elem_of_lookup_2; eauto.
    + apply (IH i j p q); auto; lia.
Qed.

Lemma half_bounds (lo hi : nat) :
  (lo < hi)%nat -> (lo <= (lo + hi) / 2 < hi)%nat.
Proof.
  intros H. pose proof (Nat.div_mod_eq (lo + hi) 2).
  pose proof (Nat.mod_upper_bound (lo + hi) 2 ltac:(lia)). lia.
Qed.

(** The loop stays within its bounds. *)
Lemma bisect_loop_bounds (a : list SortKey) (x : SortKey) (lo hi : nat) :
  (lo <= hi)%nat -> (lo <= bisect_loop a x lo hi <= hi)%nat.
Proof.
  funelim (bisect_loop a x lo hi); intros Hle;
    try (pose proof (half_bounds lo hi ltac:(lia)));
    repeat match goal with
           | IH : (_ <= _)%nat -> _ |- _ => specialize (IH ltac:(lia))
           end; lia.
Qed.

(** On ascending keys of one kind the loop keeps: everything left of [lo]
    is smaller than [x], nothing from [hi] on is. *)
Lemma bisect_loop_spec (a : list SortKey) (x : SortKey) (lo hi : nat) :
  keys_ascending a -> same_kind x a ->
  (lo <= hi)%nat -> (hi <= length a)%nat ->
  (forall j k, (j < lo)%nat -> a !! j = Some k -> key_ltb k x = true) ->
  (forall j k, (hi <= j)%nat -> a !! j = Some k -> key_ltb k x = false) ->
  (forall j k, (j < bisect_loop a x lo hi)%nat -> a !! j = Some k -> key_ltb k x = true) /\
  (forall j k, (bisect_loop a x lo hi <= j)%nat -> a !! j = Some k -> key_ltb k x = false).
Proof.
  funelim (bisect_loop a x lo hi); intros Hasc Hkind Hle Hlen Hlo Hhi.
  - (* lo >= hi *)
    split; intros j k Hj Hjk; [apply (Hlo j k)|apply (Hhi j k)]; auto; lia.
  - (* the middle index is out of range: excluded by [hi <= length a] *)
    pose proof (half_bounds lo hi ltac:(lia)) as Hmid.
    match goal with H : a !! _ = None |- _ => apply lookup_ge_None in H end. lia.
  - (* a[mid] < x *)
    pose proof (half_bounds lo hi ltac:(lia)) as Hmid.
    match goal with IH : keys_ascending _ -> _ |- _ => apply IH; auto; try lia end.
    intros j k Hj Hjk.
    destruct (decide (j = (lo + hi) / 2)%nat) as [->|Hne]; [congruence|].
    assert (Hmj : key_ltb am k = false).
    { eapply (ascending_lookup a Hasc j ((lo + hi) / 2)%nat); eauto. lia. }
    unfold same_kind in Hkind. rewrite Forall_forall in Hkind.
    apply (key_le_lt k am x); auto.
    + apply Hkind. eapply list_elem_of_lookup_2; eauto.
    + apply Hkind. eapply list_elem_of_lookup_2; eauto.
  - (* not a[mid] < x *)
    pose proof (half_bounds lo hi ltac:(lia)) as Hmid.
    match goal with IH : keys_ascending _ -> _ |- _ => apply IH; auto; try lia end.
    intros j k Hj Hjk.
    destruct (decide (j = (lo + hi) / 2)%nat) as [->|Hne]; [congruence|].
    assert (Hmj : key_ltb k am = false).
    { eapply (ascending_lookup a Hasc ((lo + hi) / 2)%nat j); eauto. lia. }
    destruct (key_ltb k x) eqn:Hkx; [|reflexivity].
    unfold same_kind in Hkind. rewrite Forall_forall in Hkind.
    assert (key_ltb am x = true); [|congruence].
    apply (key_le_lt am k x); auto.
    + apply Hkind. eapply list_elem_of_lookup_2; eauto.
    + apply Hkind. eapply list_elem_of_lookup_2; eauto.
Qed.

(** On ascending keys of one kind, [bisect_left] returns the leftmost
    insertion index. *)
Lemma bisect_left_leftmost (a : list SortKey) (x : SortKey) :
  keys_ascending a -> same_kind x a ->
  (forall j k, (j < bisect_left a x)%nat -> a !! j = Some k -> key_ltb k x = true) /\
  (forall j k, (bisect_left a x <= j)%nat -> a !! j = Some k -> key_ltb k x = false).
Proof.
  intros Hasc Hkind.
  apply (bisect_loop_spec a x 0 (length a)); auto; try lia.
  intros j k Hj Hjk. apply lookup_lt_Some in Hjk. lia.
Qed.

Lemma bisect_left_le_length (a : list SortKey) (x : SortKey) :
  (bisect_left a x <= length a)%nat.
Proof. unfold bisect_left. pose proof (bisect_loop_bounds a x 0 (length a)). lia. Qed.

(** C1.  The position allocator, case by case.  With [i] the index that
    binary search returns for the new key in the keys of the existing
    entries: [i] is within the sequence and, on ascending keys, it is the
    leftmost insertion index (every key before [i] is smaller than the new
    key, no key from [i] on is); an empty sequence gives 1000.0; [i = 0]
    gives half the first position when that is positive and -1000.0
    otherwise; [i = length] gives the last position plus 1000.0; any other
    [i] gives the mean of the positions at [i - 1] and [i]. *)
Theorem allocate_by_cases (existing_sorted : list (SortKey * float)) (new_key : SortKey) :
  let keys := map fst existing_sorted in
  let i := bisect_left keys new_key in
  (i <= length existing_sorted)%nat /\
  (keys_ascending keys -> same_kind new_key keys ->
     (forall j k, (j < i)%nat -> keys !! j = Some k -> key_ltb k new_key = true) /\
     (forall j k, (i <= j)%nat -> keys !! j = Some k -> key_ltb k new_key = false)) /\
  (existing_sorted = [] -> allocate existing_sorted new_key = 1000%float) /\
  (forall k first_pos rest,
     existing_sorted = (k, first_pos) :: rest -> i = 0%nat ->
     allocate existing_sorted new_key
     = if PrimFloat.ltb 0 first_pos then (first_pos / 2)%float else (-1000)%float) /\
  (forall init k last_pos,
     existing_sorted = (init ++ [(k, last_pos)])%list -> i = length existing_sorted ->
     allocate existing_sorted new_key = (last_pos + 1000)%float) /\
  ((0 < i < length existing_sorted)%nat ->
     exists kp prev_pos kn next_pos,
       existing_sorted !! (i - 1)%nat = Some (kp, prev_pos) /\
       existing_sorted !! i = Some (kn, next_pos) /\
       allocate existing_sorted new_key = ((prev_pos + next_pos) / 2)%float).
Proof.
  intros keys i.
  assert (Hlen : length keys = length existing_sorted) by apply length_map.
  repeat split.
  - rewrite <- Hlen. apply bisect_left_le_length.
  - intros j k Hj Hjk. revert j k Hj Hjk.
    apply (bisect_loop_spec keys new_key 0 (length keys)); auto; try lia.
    intros j k Hj Hjk. apply lookup_lt_Some in Hjk. lia.
  - intros j k Hj Hjk. revert j k Hj Hjk.
    apply (bisect_loop_spec keys new_key 0 (length keys)); auto; try lia.
    intros j k Hj Hjk. apply lookup_lt_Some in Hjk. lia.
  - intros ->. reflexivity.
  - intros k first_pos rest Hex Hi. unfold allocate. fold keys. fold i.
    rewrite Hi, Hex. reflexivity.
  - intros init k last_pos Hex Hi. unfold allocate. fold keys. fold i.
    rewrite Hi. unfold new_position.
    assert (Hl : length existing_sorted = S (length init)).
    { rewrite Hex, length_app. simpl. lia. }
    destruct existing_sorted as [|e l]; [discriminate|].
    rewrite Hl. simpl Nat.eqb. cbv iota.
    rewrite (proj2 (Nat.leb_le _ _)) by lia.
    unfold pos_at. rewrite Hex.
    replace (S (length init) - 1)%nat with (length init + 0)%nat by lia.
    rewrite lookup_app_r by lia.
    replace (length init + 0 - length init)%nat with 0%nat by lia. reflexivity.
  - intros [Hpos Hlt]. unfold allocate. fold keys. fold i.
    destruct (lookup_lt_is_Some_2 existing_sorted (i - 1)) as [[kp pp] Hp]; [lia|].
    destruct (lookup_lt_is_Some_2 existing_sorted i) as [[kn pn] Hn]; [lia|].
    exists kp, pp, kn, pn. repeat split; auto.
    unfold new_position. destruct existing_sorted as [|e l]; [simpl in Hlt; lia|].
    rewrite (proj2 (Nat.eqb_neq _ _)) by lia.
    rewrite (proj2 (Nat.leb_gt _ _)) by lia.
    unfold pos_at. rewrite Hp, Hn. reflexivity.
Qed.

Lemma allocate_by_cases_witness :
  keys_ascending [KInt 1; KInt 5] /\
  same_kind (KInt 3) [KInt 1; KInt 5] /\
  key_ltb (KInt 1) (KInt 3) = true /\
  key_ltb (KInt 5) (KInt 3) = false.
Proof.
  assert (Ha : keys_ascending [KInt 1; KInt 5]) by (repeat constructor).
  assert (Hk : same_kind (KInt 3) [KInt 1; KInt 5]) by (repeat constructor).
  destruct (allocate_by_cases [(KInt 1, 1000%float); (KInt 5, 2000%float)] (KInt 3))
    as (_ & Hleft & _).
  destruct (Hleft Ha Hk) as [Hlt Hge].
  split; [exact Ha|]. split; [exact Hk|]. split.
  - apply (Hlt 0%nat); [vm_compute; lia | reflexivity].
  - apply (Hge 1%nat); [vm_compute; lia | reflexivity].
Defined.

(** C2, at a bucket whose first task stands below -1000.0: the existing
    sequence is ascending by key and by position, the new key (due on
    2025-01-10) sorts before the first key, the allocator returns -1000.0,
    and the sequence with the new pair at its rank is still ascending by key
    but no longer by position: -1000.0 comes before -5000.0. *)
Theorem head_insertion_breaks_position_order :
  keys_ascending (map fst far_left_bucket) /\
  positions_ascending (map snd far_left_bucket) /\
  bisect_left (map fst far_left_bucket) (KStr "2025-01-10") = 0%nat /\
  allocate far_left_bucket (KStr "2025-01-10") = (-1000)%float /\
  place far_left_bucket (KStr "2025-01-10")
  = [(KStr "2025-01-10", (-1000)%float); (KStr "2025-06-01", (-5000)%float)] /\
  keys_ascending (map fst (place far_left_bucket (KStr "2025-01-10"))) /\
  ~ positions_ascending (map snd (place far_left_bucket (KStr "2025-01-10"))).
Proof.
  repeat apply conj; try reflexivity.
  - repeat constructor.
  - repeat constructor.
  - repeat constructor.
  - intros H. apply StronglySorted_inv in H as [_ H].
    apply Forall_inv in H. vm_compute in H. discriminate.
Qed.

(** Two head insertions in a row from a first position of 0.0 both get
    -1000.0: the positions of the two new tasks are equal. *)
Example repeated_head_insertion :
  working_positions unpositioned_bucket [KStr "2025-01-10"; KStr "2025-01-05"]
  = [ (KStr "2025-01-05", (-1000)%float); (KStr "2025-01-10", (-1000)%float);
      (KStr "2025-06-01", 0%float) ].
Proof. reflexivity. Qed.

End AllocatorFacts.

(** ** Facts: the sort-key extractor *)

Module SortKeyFacts.
Import Py SortKeys.








(** The orders of section 8: no due date sorts last, titles compare
    without case, and priority 5 comes before priority 1. *)
Example strategy_semantics :
  key_ltb (_get_task_sort_key sample_api_task "due_date")
    (_get_input_sort_key sample_input {| ct_id := 8; ct_title := "banana" |} "due_date")
  = true /\
  key_ltb (_get_input_sort_key sample_input {| ct_id := 8; ct_title := "banana" |}
             "alphabetical")
    (_get_task_sort_key sample_api_task "alphabetical")
  = true /\
  key_ltb (_get_task_sort_key sample_api_task "priority")
    (_get_input_sort_key sample_input {| ct_id := 8; ct_title := "banana" |} "priority")
  = true.
Proof. repeat split. Qed.

End SortKeyFacts.

(** ** Facts: deep merge of configuration dictionaries *)

Module ConfigFacts.
Import Config.

(** *** Association lists *)

Section Dicts.
Context {V : Type}.
Implicit Types (d : list (string * V)) (k : string) (v : V).

Lemma dict_get_set_eq d k v : dict_get (dict_set d k v) k = Some v.
Proof.
  induction d as [|[k0 w] d IH]; simpl.
  - now rewrite String.eqb_refl.
  - destruct (String.eqb_spec k0 k) as [->|Hne]; simpl.
    + now rewrite String.eqb_refl.
    + destruct (String.eqb_spec k0 k); [contradiction|exact IH].
Qed.

Lemma dict_get_set_ne d k k' v :
  k <> k' -> dict_get (dict_set d k v) k' = dict_get d k'.
Proof.
  intros Hne. induction d as [|[k0 w] d IH]; simpl.
  - destruct (String.eqb_spec k k'); [contradiction|reflexivity].
  - destruct (String.eqb_spec k0 k) as [->|Hk0]; simpl.
    + destruct (String.eqb_spec k k'); [contradiction|reflexivity].
    + destruct (String.eqb_spec k0 k'); [reflexivity|exact IH].
Qed.

Lemma dict_get_None_keys d k : dict_get d k = None <-> ~ In k (map fst d).
Proof.
  induction d as [|[k0 w] d IH]; simpl; [tauto|].
  destruct (String.eqb_spec k0 k) as [->|Hne]; [split; [discriminate|tauto]|].
  rewrite IH. tauto.
Qed.

Lemma dict_set_keys d k v :
  map fst (dict_set d k v)
  = match dict_get d k with
    | Some _ => map fst d
    | None => map fst d ++ [k]
    end.
Proof.
  induction d as [|[k0 w] d IH]; simpl; [reflexivity|].
  destruct (String.eqb_spec k0 k) as [->|Hne]; simpl; [reflexivity|].
  rewrite IH. now destruct (dict_get d k).
Qed.

Lemma dict_set_NoDup d k v :
  NoDup (map fst d) -> NoDup (map fst (dict_set d k v)).
Proof.
  intros Hnd. rewrite dict_set_keys.
  destruct (dict_get d k) eqn:Hg; [exact Hnd|].
  apply dict_get_None_keys in Hg.
  apply NoDup_app. repeat split.
  - exact Hnd.
  - intros x Hx Hx'. apply list_elem_of_In in Hx.
    apply list_elem_of_singleton in Hx'. now subst.
  - apply NoDup_singleton.
Qed.
End Dicts.

Section Related.
Context {V W : Type} (Q : V -> W -> Prop).

Lemma related_get (d : list (string * V)) (td : list (string * W)) (k : string) :
  related Q d td ->
  match dict_get d k with
  | Some v => exists t, dict_get td k = Some t /\ Q v t
  | None => dict_get td k = None
  end.
Proof.
  induction 1 as [|[k1 v] [k2 t] d td [Hk Hq] _ IH]; simpl in *; [reflexivity|].
  subst k2. destruct (String.eqb k1 k); [eauto|exact IH].
Qed.

Lemma related_set (d : list (string * V)) (td : list (string * W))
    (k : string) (v : V) (t : W) :
  related Q d td -> Q v t -> related Q (dict_set d k v) (dict_set td k t).
Proof.
  intros Hr Hq. induction Hr as [|[k1 v1] [k2 t1] d td [Hk Hq1] Hr IH]; simpl in *.
  - repeat constructor; auto.
  - subst k2. destruct (String.eqb k1 k); constructor; auto.
Qed.

Lemma related_keys (d : list (string * V)) (td : list (string * W)) :
  related Q d td -> map fst d = map fst td.
Proof.
  induction 1 as [|[k1 v] [k2 t] d td [Hk _] _ IH]; simpl in *; congruence.
Qed.
End Related.

Lemma related_impl {V W : Type} (Q Q' : V -> W -> Prop)
    (d : list (string * V)) (td : list (string * W)) :
  related Q d td ->
  Forall (fun kt => forall v, Q v kt.2 -> Q' v kt.2) td ->
  related Q' d td.
Proof.
  induction 1 as [|kv kt d td [Hk Hq] _ IH]; intros Hall; [constructor|].
  apply Forall_cons in Hall as [Hhd Htl].
  constructor; [split; [exact Hk|apply Hhd, Hq]|apply IH, Htl].
Qed.

(** *** Induction on nested values *)

Lemma tree_ind' (P : tree -> Prop) :
  (forall a, P (TAtom a)) ->
  (forall d, Forall (fun kt => P kt.2) d -> P (TDict d)) ->
  forall t, P t.
Proof.
  intros Ha Hd. fix IH 1. intros [a|d]; [apply Ha|].
  apply Hd. induction d as [|kt d IHd]; constructor; [apply IH|exact IHd].
Qed.

Lemma depth_dict_elem (d : list (string * tree)) (n : nat) :
  (depth (TDict d) <= S n)%nat -> Forall (fun kt => (depth kt.2 <= n)%nat) d.
Proof.
  simpl. intros H. apply le_S_n in H.
  induction d as [|kt d IH]; constructor.
  - lia.
  - apply IH. lia.
Qed.

(** *** Transporting [den] between stores *)

Lemma den_impl (h h' : heap) (A A' : loc -> Prop) (t : tree) :
  forall v,
    den h A v t ->
    (forall l d, ~ A l -> h !! l = Some d -> ~ A' l /\ h' !! l = Some d) ->
    den h' A' v t.
Proof.
  induction t as [a|td IH] using tree_ind'; intros v Hden Hstep;
    inversion Hden; subst.
  - constructor.
  - destruct (Hstep l d) as [Hna Hl]; auto.
    apply den_dict with (d := d); auto.
    eapply related_impl; [eassumption|].
    eapply Forall_impl; [exact IH|]. simpl. intros kt Hkt v Hv. now apply Hkt.
Qed.

(** A value never refers to a location outside the store. *)
Lemma den_dict_inv (h : heap) (A : loc -> Prop) (l : loc) (t : tree) :
  den h A (VDict l) t ->
  exists d td, t = TDict td /\ ~ A l /\ h !! l = Some d /\ NoDup (map fst d)
               /\ related (den h A) d td.
Proof.
  inversion 1 as [|l' d td Hna Hl Hnd Hrel]; subst.
  exists d, td. repeat split; assumption.
Qed.

(** *** The merged value, key by key *)

Lemma merge_tree_unfold (tb us : list (string * tree)) :
  merge_tree tb (TDict us) = fold_left tree_step us tb.
Proof. reflexivity. Qed.

Lemma fold_tree_step_get (us : list (string * tree)) (k : string) :
  NoDup (map fst us) ->
  forall tb,
    dict_get (fold_left tree_step us tb) k
    = match dict_get us k with
      | Some v => Some (combine_values (dict_get tb k) v)
      | None => dict_get tb k
      end.
Proof.
  induction us as [|[k0 v0] us IH]; intros Hnd tb; simpl; [reflexivity|].
  apply NoDup_cons in Hnd as [Hnotin Hnd]. simpl in Hnotin.
  rewrite (IH Hnd). unfold tree_step at 1 2. simpl.
  destruct (String.eqb_spec k0 k) as [->|Hne].
  - assert (Hnone : dict_get us k = None).
    { apply dict_get_None_keys. intros Hin. apply Hnotin, list_elem_of_In, Hin. }
    rewrite Hnone. apply dict_get_set_eq.
  - rewrite (dict_get_set_ne _ _ _ _ Hne). reflexivity.
Qed.

(** *** The loop of [_deep_merge] *)

Lemma deep_merge_unfold (fuel : nat) (h : heap) (base updates : loc) :
  _deep_merge (S fuel) h base updates
  = match h !! base, h !! updates with
    | Some b, Some u =>
      fold_left (merge_step (_deep_merge fuel) (length h)) u
        (Some (h ++ [b], length h))
    | _, _ => None
    end.
Proof. reflexivity. Qed.

Lemma merge_loop (n : nat) (result : loc) (A : loc -> Prop) :
  merge_ok n ->
  A result ->
  forall (us : dict) (tus : list (string * tree)) (h1 : heap) (r : dict)
         (tacc : list (string * tree)),
    (forall l, A l -> (l < length h1)%nat) ->
    related (den h1 A) us tus ->
    Forall (fun kt => (depth kt.2 <= n)%nat) tus ->
    h1 !! result = Some r ->
    NoDup (map fst r) ->
    related (den h1 A) r tacc ->
    exists h2 r2,
      fold_left (merge_step (_deep_merge n) result) us (Some (h1, result))
      = Some (h2, result) /\
      (length h1 <= length h2)%nat /\
      (forall l d, l <> result -> h1 !! l = Some d -> h2 !! l = Some d) /\
      h2 !! result = Some r2 /\
      NoDup (map fst r2) /\
      related (den h2 A) r2 (fold_left tree_step tus tacc).
Proof.
  intros IHn Hres us. induction us as [|[k v] us IHus];
    intros tus h1 r tacc HA Hus Hdepth Hr Hnd Hacc.
  - apply Forall2_nil_inv_l in Hus as ->. simpl. exists h1, r. repeat split; auto.
  - apply Forall2_cons_inv_l in Hus as ([k' tv] & tus' & [Hk Hv] & Hus & ->).
    simpl in Hk, Hv. subst k'.
    apply Forall_cons in Hdepth as [Hdv Hdepth]. simpl in Hdv.
    change (fold_left ?f ((k, v) :: us) ?a) with (fold_left f us (f a (k, v))).
    remember (merge_step (_deep_merge n) result (Some (h1, result)) (k, v)) as st eqn:Hst.
    unfold merge_step in Hst. cbv beta iota in Hst. rewrite Hr in Hst.
    simpl fst in Hst. simpl snd in Hst.
    pose proof (related_get (den h1 A) r tacc k Hacc) as Hget.
    (* the store after this step, and why the invariant holds there *)
    assert (Hnext : forall h3 r3,
               (length h1 <= length h3)%nat ->
               (forall l d, l <> result -> h1 !! l = Some d -> h3 !! l = Some d) ->
               h3 !! result = Some r3 -> NoDup (map fst r3) ->
               related (den h3 A) r3 (tree_step tacc (k, tv)) ->
               exists h2 r2,
                 fold_left (merge_step (_deep_merge n) result) us (Some (h3, result))
                 = Some (h2, result) /\
                 (length h1 <= length h2)%nat /\
                 (forall l d, l <> result -> h1 !! l = Some d -> h2 !! l = Some d) /\
                 h2 !! result = Some r2 /\
                 NoDup (map fst r2) /\
                 related (den h2 A) r2 (fold_left tree_step tus' (tree_step tacc (k, tv)))).
    { intros h3 r3 Hlen3 Hfr3 Hr3 Hnd3 Hacc3.
      destruct (IHus tus' h3 r3 (tree_step tacc (k, tv))) as (h2 & r2 & Hf & Hl & Hfr & Hr2 & Hnd2 & Hacc2); auto.
      - intros l Hl. specialize (HA l Hl). lia.
      - eapply related_impl; [exact Hus|].
        apply Forall_forall. intros kt _ v0 Hv0.
        eapply den_impl; [exact Hv0|]. intros l d Hna Hld. split; [exact Hna|].
        apply Hfr3; [congruence|exact Hld].
      - exists h2, r2. repeat split; auto; try lia. }
    (* transport of [den] from [h1] to a store that extends it off [result] *)
    assert (Hmove : forall h3 v0 t0,
               (forall l d, l <> result -> h1 !! l = Some d -> h3 !! l = Some d) ->
               den h1 A v0 t0 -> den h3 A v0 t0).
    { intros h3 v0 t0 Hfr3 Hden. eapply den_impl; [exact Hden|].
      intros l d Hna Hld. split; [exact Hna|]. apply Hfr3; [congruence|exact Hld]. }
    assert (Hplain : forall tv',
               tree_step tacc (k, tv) = dict_set tacc k tv' -> den h1 A v tv' ->
               exists h2 r2,
                 fold_left (merge_step (_deep_merge n) result) us
                   (Some (<[result := dict_set r k v]> h1, result))
                 = Some (h2, result) /\
                 (length h1 <= length h2)%nat /\
                 (forall l d, l <> result -> h1 !! l = Some d -> h2 !! l = Some d) /\
                 h2 !! result = Some r2 /\
                 NoDup (map fst r2) /\
                 related (den h2 A) r2 (fold_left tree_step tus' (tree_step tacc (k, tv)))).
    { intros tv' Hstep Hden.
      assert (Hfr3 : forall l d, l <> result -> h1 !! l = Some d ->
                                 <[result := dict_set r k v]> h1 !! l = Some d).
      { intros l d Hne Hld. now rewrite list_lookup_insert_ne. }
      apply (Hnext _ (dict_set r k v)); auto.
      - rewrite length_insert. lia.
      - apply list_lookup_insert_eq. now apply lookup_lt_Some in Hr.
      - now apply dict_set_NoDup.
      - rewrite Hstep. apply related_set.
        + eapply related_impl; [exact Hacc|]. apply Forall_forall.
          intros kt _ v0 Hv0. now apply Hmove.
        + now apply Hmove. }
    destruct (dict_get r k) as [[a|rk]|] eqn:Hrk.
    + (* the existing value is not a dictionary *)
      destruct Hget as (tx & Htx & Hdx). inversion Hdx; subst.
      apply (Hplain tv); [|exact Hv].
      unfold tree_step, combine_values; simpl; now rewrite Htx.
    + destruct Hget as (tx & Htx & Hdx).
      destruct v as [a|uv].
      * (* the new value is not a dictionary *)
        inversion Hv; subst. apply (Hplain (TAtom a)); [|constructor].
        unfold tree_step, combine_values; simpl. rewrite Htx. now destruct tx.
      * (* both are dictionaries: recursive merge *)
        destruct (den_dict_inv _ _ _ _ Hdx) as (dx & x & -> & _).
        destruct (den_dict_inv _ _ _ _ Hv) as (du & y & -> & _).
        destruct (IHn h1 A rk uv x y) as (h2 & Hcall & Hlen2 & Hfr2 & Hden2); auto.
        rewrite Hcall, (Hfr2 _ _ Hr) in Hst. subst st.
        assert (Hfr3 : forall l d, l <> result -> h1 !! l = Some d ->
                   <[result := dict_set r k (VDict (length h1))]> h2 !! l = Some d).
        { intros l d Hne Hld. rewrite list_lookup_insert_ne by congruence. auto. }
        apply (Hnext _ (dict_set r k (VDict (length h1)))); auto.
        -- rewrite length_insert. lia.
        -- apply list_lookup_insert_eq. apply lookup_lt_Some in Hr. lia.
        -- now apply dict_set_NoDup.
        -- unfold tree_step, combine_values; simpl. rewrite Htx.
           apply related_set.
           ++ eapply related_impl; [exact Hacc|]. apply Forall_forall.
              intros kt _ v0 Hv0. now apply Hmove.
           ++ eapply den_impl; [exact Hden2|].
              intros l d Hna Hld. split; [exact Hna|].
              rewrite list_lookup_insert_ne by congruence. exact Hld.
    + (* the key is new *)
      subst st. apply (Hplain tv); [|exact Hv].
      unfold tree_step, combine_values; simpl. now rewrite Hget.
Qed.

Lemma merge_ok_all (n : nat) : merge_ok n.
Proof.
  induction n as [|n IHn]; intros h A base updates tb tu Hdepth HA Hb Hu.
  - simpl in Hdepth. lia.
  - destruct (den_dict_inv _ _ _ _ Hb) as (b & tb' & Heq & Hnb & Hlb & Hndb & Hrb).
    injection Heq as <-.
    destruct (den_dict_inv _ _ _ _ Hu) as (u & tu' & Heq & Hnu & Hlu & Hndu & Hru).
    injection Heq as <-.
    rewrite deep_merge_unfold, Hlb, Hlu.
    set (result := length h).
    set (A' := fun l => A l \/ l = result).
    assert (Hin : forall v t, den h A v t -> den (h ++ [b]) A' v t).
    { intros v t Hden. eapply den_impl; [exact Hden|].
      intros l d Hna Hld. pose proof (lookup_lt_Some _ _ _ Hld) as Hlt. split.
      - intros [Ha | ->]; [contradiction|]. unfold result in Hlt. lia.
      - now apply lookup_app_l_Some. }
    destruct (merge_loop n result A' IHn (or_intror eq_refl) u tu (h ++ [b]) b tb)
      as (h2 & r2 & Hfold & Hlen & Hfr & Hr2 & Hnd2 & Hacc).
    + intros l [Ha | ->]; rewrite length_app; simpl; [specialize (HA l Ha)|unfold result]; lia.
    + eapply related_impl; [exact Hru|]. apply Forall_forall. intros kt _ v Hv. now apply Hin.
    + now apply depth_dict_elem.
    + unfold result. rewrite lookup_app_r by lia. now rewrite Nat.sub_diag.
    + exact Hndb.
    + eapply related_impl; [exact Hrb|]. apply Forall_forall. intros kt _ v Hv. now apply Hin.
    + exists h2. rewrite length_app in Hlen. simpl in Hlen. repeat split.
      * exact Hfold.
      * lia.
      * intros l d Hld. pose proof (lookup_lt_Some _ _ _ Hld) as Hlt.
        apply Hfr; [unfold result; lia|]. now apply lookup_app_l_Some.
      * rewrite merge_tree_unfold. apply den_dict with (d := r2); auto.
        -- intros Ha. specialize (HA _ Ha). lia.
        -- eapply related_impl; [exact Hacc|]. apply Forall_forall.
           intros kt _ v Hv. eapply den_impl; [exact Hv|].
           intros l d Hna Hld. split; [|exact Hld]. intros Ha. apply Hna. now left.
Qed.

(** C4.  [_deep_merge(base, updates)] on dictionaries that read as the
    nested values [tb] and [tu]: with fuel for the depth of [tu] the call
    returns a new dictionary [result]; every dictionary of the store is
    left as it was, so [base] and [updates] still read as [tb] and [tu];
    [result] reads as a value [merged] in which every key of [tu] holds
    the merge of the two values when both are mappings and the new value
    otherwise, and every key of [tb] absent from [tu] holds its old value. *)
Theorem deep_merge_correct (fuel : nat) (h : heap) (base updates : loc)
    (tb tu : list (string * tree)) :
  denotes h (VDict base) (TDict tb) ->
  denotes h (VDict updates) (TDict tu) ->
  (depth (TDict tu) <= fuel)%nat ->
  exists (h' : heap) (result : loc) (merged : list (string * tree)),
    _deep_merge fuel h base updates = Some (h', result) /\
    h !! result = None /\
    (forall l d, h !! l = Some d -> h' !! l = Some d) /\
    denotes h' (VDict base) (TDict tb) /\
    denotes h' (VDict updates) (TDict tu) /\
    denotes h' (VDict result) (TDict merged) /\
    merged = merge_tree tb (TDict tu) /\
    (forall k new, dict_get tu k = Some new ->
       dict_get merged k
       = Some match dict_get tb k, new with
              | Some (TDict old), TDict _ => TDict (merge_tree old new)
              | _, _ => new
              end) /\
    (forall k, dict_get tu k = None -> dict_get merged k = dict_get tb k) /\
    (forall (old new : list (string * tree)) (k : string),
       NoDup (map fst new) ->
       dict_get (merge_tree old (TDict new)) k
       = match dict_get new k with
         | Some v => Some (combine_values (dict_get old k) v)
         | None => dict_get old k
         end).
Proof.
  intros Hb Hu Hfuel.
  destruct (merge_ok_all fuel h (fun _ => False) base updates tb tu)
    as (h' & Hcall & Hlen & Hfr & Hden); auto; [tauto|].
  assert (Hkeep : forall v t, denotes h v t -> denotes h' v t).
  { intros v t Hv. eapply den_impl; [exact Hv|]. intros l d _ Hld. split; auto. }
  assert (Hndu : NoDup (map fst tu)).
  { destruct (den_dict_inv _ _ _ _ Hu) as (u & tu' & Heq & _ & _ & Hnd & Hrel).
    injection Heq as <-. now rewrite <- (related_keys _ _ _ Hrel). }
  exists h', (length h), (merge_tree tb (TDict tu)). repeat split; auto.
  - apply lookup_ge_None. lia.
  - intros k new Hk. rewrite merge_tree_unfold, (fold_tree_step_get _ _ Hndu), Hk.
    reflexivity.
  - intros k Hk. now rewrite merge_tree_unfold, (fold_tree_step_get _ _ Hndu), Hk.
  - intros old new k Hnd. rewrite merge_tree_unfold. now apply fold_tree_step_get.
Qed.

Ltac den_tac :=
  repeat first
    [ apply den_atom
    | eapply den_dict; [tauto | reflexivity | repeat constructor; set_solver |]
    | apply Forall2_nil_2
    | apply Forall2_cons_2; [split; [reflexivity|]|] ].

Lemma deep_merge_correct_witness :
  denotes sample_heap (VDict 1%nat) (TDict [("a", TDict [("b", TAtom (AInt 1))])]) /\
  denotes sample_heap (VDict 3%nat) (TDict [("a", TDict [("c", TAtom (AInt 2))])]) /\
  exists (h' : heap) (result : loc) (merged : list (string * tree)),
    _deep_merge 2 sample_heap 1 3 = Some (h', result) /\
    sample_heap !! result = None /\
    denotes h' (VDict result) (TDict merged) /\
    dict_get merged "a" = Some (TDict [("b", TAtom (AInt 1)); ("c", TAtom (AInt 2))]).
Proof.
  assert (Hb : denotes sample_heap (VDict 1%nat)
                 (TDict [("a", TDict [("b", TAtom (AInt 1))])])).
  { unfold denotes, sample_heap. den_tac. }
  assert (Hu : denotes sample_heap (VDict 3%nat)
                 (TDict [("a", TDict [("c", TAtom (AInt 2))])])).
  { unfold denotes, sample_heap. den_tac. }
  split; [exact Hb|]. split; [exact Hu|].
  destruct (deep_merge_correct 2 sample_heap 1 3 _ _ Hb Hu ltac:(simpl; lia))
    as (h' & result & merged & Hrun & Hfresh & _ & _ & _ & Hden & Hm & _).
  exists h', result, merged. split; [exact Hrun|]. split; [exact Hfresh|].
  split; [exact Hden|]. rewrite Hm. reflexivity.
Defined.

(** The two merges of section 8, run on the store. *)
Example merge_nested_mappings :
  _deep_merge 2 sample_heap 1 3
  = Some (sample_heap ++
            [ [("a", VDict 5%nat)];
              [("b", VAtom (AInt 1)); ("c", VAtom (AInt 2))] ], 4%nat).
Proof. reflexivity. Qed.

Example merge_replaces_non_mapping :
  _deep_merge 2 [ [("a", VAtom (AInt 1))]; [("b", VAtom (AInt 2))]; [("a", VDict 1%nat)] ]
    0 2
  = Some ([ [("a", VAtom (AInt 1))]; [("b", VAtom (AInt 2))]; [("a", VDict 1%nat)];
            [("a", VDict 1%nat)] ], 3%nat).
Proof. reflexivity. Qed.

End ConfigFacts.

(** ** Facts: template expansion *)

Module TemplateFacts.
Import Py SortKeys Template.

(** Both boundaries of an expanded task are taken on the day of its
    start: the start at 00:00:00, the end at 23:59:00. *)
Lemma expand_task_def_dates (anchor_dt : datetime) (all_labels : list string)
    (title_suffix : string) (bucket : option string) (task_def : TaskDef)
    (task : TaskInput) :
  expand_task_def anchor_dt all_labels title_suffix bucket task_def = Ok task ->
  exists start_dt,
    add_hours anchor_dt (get_default (td_offset_hours task_def) 0) = Ok start_dt /\
    ti_start_date task = Some (strftime_date start_dt "T00:00:00Z") /\
    ti_end_date task = Some (strftime_date start_dt "T23:59:00Z").
Proof.
  unfold expand_task_def.
  destruct (add_hours anchor_dt _) as [start_dt|e]; [|discriminate].
  destruct (add_hours start_dt _) as [end_dt|e]; [|discriminate].
  destruct (getitem (td_title task_def) "title") as [title|e]; [|discriminate].
  intros [= <-]. exists start_dt. repeat split.
Qed.

(** The end of an expanded task does not depend on [duration_hours]. *)
Lemma expand_task_def_duration (anchor_dt : datetime) (all_labels : list string)
    (title_suffix : string) (bucket : option string)
    (title : option string) (offset d1 d2 : option Z) (ref : option string)
    (blocked_by : option (list string)) (t1 t2 : TaskInput) :
  expand_task_def anchor_dt all_labels title_suffix bucket
    {| td_title := title; td_offset_hours := offset; td_duration_hours := d1;
       td_ref := ref; td_blocked_by := blocked_by |} = Ok t1 ->
  expand_task_def anchor_dt all_labels title_suffix bucket
    {| td_title := title; td_offset_hours := offset; td_duration_hours := d2;
       td_ref := ref; td_blocked_by := blocked_by |} = Ok t2 ->
  ti_end_date t1 = ti_end_date t2.
Proof.
  intros H1 H2.
  apply expand_task_def_dates in H1 as (s1 & Hs1 & _ & He1).
  apply expand_task_def_dates in H2 as (s2 & Hs2 & _ & He2).
  simpl in Hs1, Hs2. congruence.
Qed.

(** C5, at a task that starts at 22:00 on 2025-03-10 and lasts four
    hours: the expanded start is 00:00:00 of the start day, as claimed, but
    the expanded end is 23:59:00 of the start day, whereas the end as
    claimed, 23:59:00 of the day of [start + duration_hours], is on
    2025-03-11. *)
Theorem template_end_on_start_day :
  (exists task,
     expand_task_def evening_anchor [] "" None evening_task = Ok task /\
     ti_start_date task = Some "2025-03-10T00:00:00Z" /\
     ti_end_date task = Some "2025-03-10T23:59:00Z") /\
  spec_end_date evening_anchor evening_task = Ok "2025-03-11T23:59:00Z".
Proof.
  split; [eexists; split; [reflexivity|split; reflexivity]|reflexivity].
Qed.

End TemplateFacts.

(** ** Facts: defaults from the project configuration *)

Module DefaultsFacts.
Import Py SortKeys Batch.

Lemma with_defaults_idem (c : ProjectConfig) (adl : bool) (t : TaskInput) :
  with_defaults c adl (with_defaults c adl t) = with_defaults c adl t.
Proof.
  unfold with_defaults.
  destruct (get_default (cfg_default_labels c) []) as [|x dl];
    destruct adl; destruct t as [ti de sd ed dd pr [[|lb lbs]|] [bk|] rf bb bl so];
    simpl;
    repeat match goal with
           | |- context [String.eqb ?a ?b] =>
               destruct (String.eqb_spec a b); simpl; try congruence
           end;
    reflexivity.
Qed.

Lemma defaults_step_eq (c : ProjectConfig) (adl : bool) (σ : list TaskInput) (l : nat) :
  match σ !! l with
  | None => σ
  | Some task =>
    let σ1 :=
      if (adl && negb (truthy_list (ti_labels task))
          && truthy_list (Some (get_default (cfg_default_labels c) [])))%bool
      then <[l := set_labels (get_default (cfg_default_labels c) []) task]> σ
      else σ in
    match σ1 !! l with
    | None => σ1
    | Some task =>
      if (negb (truthy_str (ti_bucket task))
          && negb (String.eqb (get_default (cfg_default_bucket c) "") ""))%bool
      then <[l := set_bucket (get_default (cfg_default_bucket c) "") task]> σ1
      else σ1
    end
  end = defaults_step c adl σ l.
Proof.
  unfold defaults_step, with_defaults.
  destruct (σ !! l) as [t|] eqn:Ht; [|reflexivity].
  pose proof (lookup_lt_Some _ _ _ Ht) as Hlt.
  cbv zeta.
  destruct (adl && negb (truthy_list (ti_labels t))
            && truthy_list (Some (get_default (cfg_default_labels c) [])))%bool.
  - rewrite list_lookup_insert_eq by exact Hlt.
    destruct (negb (truthy_str (ti_bucket (set_labels _ t))) && _)%bool.
    + now rewrite list_insert_insert_eq.
    + reflexivity.
  - rewrite Ht.
    destruct (negb (truthy_str (ti_bucket t)) && _)%bool; [reflexivity|].
    symmetry. now apply list_insert_id.
Qed.

Lemma apply_config_defaults_fold (c : ProjectConfig) (adl : bool) (tasks : list nat)
    (σ : list TaskInput) :
  apply_config_defaults c adl tasks σ = fold_left (defaults_step c adl) tasks σ.
Proof.
  unfold apply_config_defaults. revert σ.
  induction tasks as [|l tasks IH]; intros σ; [reflexivity|].
  cbn [fold_left]. rewrite <- (defaults_step_eq c adl σ l). apply IH.
Qed.

(** Every listed dictionary is rewritten once, however often it is
    listed; the others are left alone. *)
Lemma apply_config_defaults_lookup (c : ProjectConfig) (adl : bool)
    (tasks : list nat) (σ : list TaskInput) (l : nat) :
  apply_config_defaults c adl tasks σ !! l
  = if bool_decide (l ∈ tasks) then with_defaults c adl <$> σ !! l else σ !! l.
Proof.
  rewrite apply_config_defaults_fold.
  assert (Hgen : forall tasks σ,
             fold_left (defaults_step c adl) tasks σ !! l
             = (if bool_decide (l ∈ tasks) then with_defaults c adl <$> σ !! l
                else σ !! l) /\
             (forall t, σ !! l = Some (with_defaults c adl t) ->
                        fold_left (defaults_step c adl) tasks σ !! l
                        = Some (with_defaults c adl t))).
  { clear tasks σ. intros tasks.
    induction tasks as [|l0 tasks IH]; intros σ; cbn [fold_left].
    - split; [reflexivity|auto].
    - destruct (IH (defaults_step c adl σ l0)) as [IH1 IH2].
      assert (Hstep : defaults_step c adl σ l0 !! l
                      = if decide (l = l0) then with_defaults c adl <$> σ !! l
                        else σ !! l).
      { unfold defaults_step. destruct (decide (l = l0)) as [->|Hne].
        - destruct (σ !! l0) as [t|] eqn:Ht; [|now rewrite Ht].
          rewrite list_lookup_insert_eq; [reflexivity|].
          now apply lookup_lt_Some in Ht.
        - destruct (σ !! l0) as [t|]; [|reflexivity].
          now rewrite list_lookup_insert_ne by congruence. }
      split.
      + rewrite IH1, Hstep.
        destruct (decide (l = l0)) as [->|Hne].
        * rewrite (bool_decide_eq_true_2 (l0 ∈ l0 :: tasks)) by (rewrite ?not_elem_of_cons, ?elem_of_cons; auto).
          destruct (σ !! l0) as [t|] eqn:Ht; simpl.
          -- destruct (bool_decide (l0 ∈ tasks)); simpl; [|reflexivity].
             now rewrite with_defaults_idem.
          -- now destruct (bool_decide (l0 ∈ tasks)).
        * destruct (bool_decide (l ∈ tasks)) eqn:Hin.
          -- apply bool_decide_eq_true in Hin.
             now rewrite (bool_decide_eq_true_2 (l ∈ l0 :: tasks)) by (rewrite ?not_elem_of_cons, ?elem_of_cons; auto).
          -- apply bool_decide_eq_false in Hin.
             now rewrite (bool_decide_eq_false_2 (l ∈ l0 :: tasks)) by (rewrite ?not_elem_of_cons, ?elem_of_cons; auto).
      + intros t Ht. apply IH2. rewrite Hstep, Ht.
        destruct (decide (l = l0)); simpl; [now rewrite with_defaults_idem|reflexivity]. }
  apply Hgen.
Qed.




End DefaultsFacts.

(** ** Facts: loops over the service *)

Module LoopFacts.
Import Py Batch.

Section ForEach.
Context {A B : Type}.
Implicit Types (body : B -> A -> M B) (xs ys : list A) (acc : B) (tr : list call).

Lemma for_each_nil body acc tr : for_each [] acc body tr = (Ok acc, tr).
Proof. reflexivity. Qed.

Lemma for_each_cons body x xs acc tr :
  for_each (x :: xs) acc body tr
  = match body acc x tr with
    | (Ok acc', tr') => for_each xs acc' body tr'
    | (Raise e, tr') => (Raise e, tr')
    end.
Proof. reflexivity. Qed.

Lemma for_each_app body xs ys acc tr :
  for_each (xs ++ ys) acc body tr
  = match for_each xs acc body tr with
    | (Ok acc', tr') => for_each ys acc' body tr'
    | (Raise e, tr') => (Raise e, tr')
    end.
Proof.
  revert acc tr. induction xs as [|x xs IH]; intros acc tr; [reflexivity|].
  simpl app. rewrite !for_each_cons.
  destruct (body acc x tr) as [[acc'|e] tr']; [apply IH|reflexivity].
Qed.

Lemma for_each_ext body body' xs acc tr :
  (forall acc x tr, body acc x tr = body' acc x tr) ->
  for_each xs acc body tr = for_each xs acc body' tr.
Proof.
  intros Hext. revert acc tr. induction xs as [|x xs IH]; intros acc tr; [reflexivity|].
  rewrite !for_each_cons, Hext.
  destruct (body' acc x tr) as [[acc'|e] tr']; [apply IH|reflexivity].
Qed.
End ForEach.

Lemma for_each_map {A A' B : Type} (f : A -> A') (body : B -> A' -> M B)
    (xs : list A) (acc : B) (tr : list call) :
  for_each (map f xs) acc body tr = for_each xs acc (fun acc x => body acc (f x)) tr.
Proof.
  revert acc tr. induction xs as [|x xs IH]; intros acc tr; [reflexivity|].
  simpl map. rewrite !for_each_cons.
  destruct (body acc (f x) tr) as [[acc'|e] tr']; [apply IH|reflexivity].
Qed.

Lemma for_each_flat_map {A A' B : Type} (f : A -> list A') (body : B -> A' -> M B)
    (xs : list A) (acc : B) (tr : list call) :
  for_each xs acc (fun acc x => for_each (f x) acc body) tr
  = for_each (flat_map f xs) acc body tr.
Proof.
  revert acc tr. induction xs as [|x xs IH]; intros acc tr; [reflexivity|].
  simpl flat_map. rewrite for_each_cons, for_each_app.
  destruct (for_each (f x) acc body tr) as [[acc'|e] tr']; [apply IH|reflexivity].
Qed.

End LoopFacts.

(** ** Facts: relations between the tasks of a batch *)

Module RelationFacts.
Import Py SortKeys Batch LoopFacts.

Section WithService.
Context (svc : service).

(** An entry whose ref the map does not resolve: one error, no call. *)
Lemma relate_one_unknown (ref_map : gmap string Z) (rep : Report) (e : rel_entry)
    (tr : list call) :
  lookup_truthy ref_map (e_ref e) = None ->
  relate_one svc ref_map rep e tr = (Ok (add_error (unknown_ref_message e) rep), tr).
Proof. intros H. unfold relate_one. now rewrite H. Qed.

(** An entry whose ref resolves: one call, of the kind of its field. *)
Lemma relate_one_resolved (ref_map : gmap string Z) (rep : Report) (e : rel_entry)
    (tr : list call) (other : Z) :
  lookup_truthy ref_map (e_ref e) = Some other ->
  relate_one svc ref_map rep e tr
  = (Ok match svc tr (CCreateRelation (e_task e) (relation_kind (e_field e)) other) with
        | Ok _ => add_relation rep
        | Raise err => add_error (relation_failed_message e err) rep
        end,
     tr ++ [CCreateRelation (e_task e) (relation_kind (e_field e)) other]).
Proof.
  intros H. unfold relate_one, bind, try_, perform, ret. rewrite H.
  now destruct (svc tr _).
Qed.

(** Step 7 is the loop of [relate_one] over all entries. *)
Lemma step7_as_entries (ref_map : gmap string Z)
    (created_tasks : list (TaskInput * CreatedTask)) (rep : Report) (tr : list call) :
  step7_create_relations svc ref_map created_tasks rep tr
  = for_each (flat_map entries_of created_tasks) rep (relate_one svc ref_map) tr.
Proof.
  rewrite <- for_each_flat_map. unfold step7_create_relations.
  apply for_each_ext. clear rep tr. intros rep [task_input created_task] tr.
  unfold entries_of. simpl fst. simpl snd.
  rewrite for_each_app, for_each_map. unfold bind at 1.
  rewrite (for_each_ext _
             (fun acc x =>
                relate_one svc ref_map acc
                  {| e_task := ct_id created_task; e_field := BlockedBy; e_ref := x |}))
    by (intros; reflexivity).
  destruct (for_each _ rep _ tr) as [[rep1|e] tr1]; [|reflexivity].
  rewrite for_each_app, for_each_map. unfold bind at 1.
  rewrite (for_each_ext _
             (fun acc x =>
                relate_one svc ref_map acc
                  {| e_task := ct_id created_task; e_field := Blocks; e_ref := x |}))
    by (intros; reflexivity).
  destruct (for_each _ rep1 _ tr1) as [[rep2|e] tr2]; [|reflexivity].
  destruct (ti_subtask_of task_input) as [r|]; [|reflexivity].
  destruct (String.eqb r ""); simpl negb; cbv iota; [reflexivity|].
  cbn [for_each]. unfold relate_one. simpl.
  destruct (lookup_truthy ref_map r); [|reflexivity].
  unfold bind, try_, perform, ret.
  now destruct (svc tr2 _).
Qed.

(** The loop never raises, issues the calls of the resolved entries in
    order, and leaves the created tasks of the report alone. *)
Lemma relate_loop (ref_map : gmap string Z) (es : list rel_entry) :
  forall (rep : Report) (tr : list call),
  exists rep',
    for_each es rep (relate_one svc ref_map) tr
    = (Ok rep', tr ++ flat_map (calls_of_entry ref_map) es) /\
    created rep' = created rep /\ tasks rep' = tasks rep /\
    labels_created rep' = labels_created rep.
Proof.
  induction es as [|e es IH]; intros rep tr.
  - exists rep. simpl. now rewrite app_nil_r.
  - rewrite for_each_cons. unfold calls_of_entry at 1. simpl flat_map.
    destruct (lookup_truthy ref_map (e_ref e)) as [other|] eqn:Hl.
    + rewrite (relate_one_resolved _ _ _ _ _ Hl).
      match goal with
      | |- context [for_each es ?r _ ?t] => destruct (IH r t) as (rep' & -> & Hc & Ht & Hlc)
      end.
      exists rep'. rewrite <- app_assoc. split; [reflexivity|].
      now destruct (svc tr _).
    + rewrite (relate_one_unknown _ _ _ _ Hl).
      destruct (IH (add_error (unknown_ref_message e) rep) tr) as (rep' & -> & Hc & Ht & Hlc).
      exists rep'. now split.
Qed.

(** When the service accepts every relation, the count of the report
    grows by one for each call. *)
Lemma relate_loop_accepting (ref_map : gmap string Z) (es : list rel_entry) :
  (forall history t k o, svc history (CCreateRelation t k o) = Ok tt) ->
  forall (rep : Report) (tr : list call),
  exists rep',
    for_each es rep (relate_one svc ref_map) tr
    = (Ok rep', tr ++ flat_map (calls_of_entry ref_map) es) /\
    relations_created rep'
    = relations_created rep + Z.of_nat (length (flat_map (calls_of_entry ref_map) es)).
Proof.
  intros Haccept. induction es as [|e es IH]; intros rep tr.
  - exists rep. simpl. rewrite app_nil_r. split; [reflexivity|lia].
  - rewrite for_each_cons. simpl flat_map.
    pose proof (eq_refl : calls_of_entry ref_map e = calls_of_entry ref_map e) as Hce.
    unfold calls_of_entry at 2 in Hce.
    destruct (lookup_truthy ref_map (e_ref e)) as [other|] eqn:Hl; rewrite Hce.
    + rewrite (relate_one_resolved _ _ _ _ _ Hl), Haccept.
      destruct (IH (add_relation rep)
                  (tr ++ [CCreateRelation (e_task e) (relation_kind (e_field e)) other]))
        as (rep' & -> & Hcount).
      exists rep'. rewrite <- app_assoc. split; [reflexivity|].
      rewrite Hcount. simpl. lia.
    + rewrite (relate_one_unknown _ _ _ _ Hl).
      destruct (IH (add_error (unknown_ref_message e) rep) tr) as (rep' & -> & Hcount).
      exists rep'. split; [reflexivity|]. rewrite Hcount. simpl. lia.
Qed.

End WithService.

Lemma lookup_truthy_None (m : gmap string Z) (r : string) :
  m !! r = None -> lookup_truthy m r = None.
Proof. intros H. unfold lookup_truthy. now rewrite H. Qed.

Lemma lookup_truthy_Some (m : gmap string Z) (r : string) (id : Z) :
  m !! r = Some id -> id <> 0 -> lookup_truthy m r = Some id.
Proof.
  intros H Hne. unfold lookup_truthy, truthy_int. rewrite H.
  now destruct (Z.eqb_spec id 0).
Qed.

(** The same batch through the whole of [_batch_create_tasks_impl]. *)
Example forward_batch_run :
  let '(r, _, tr) :=
    _batch_create_tasks_impl (sample_service None []) (fun l => l) 1 [0; 1]%nat
      true false true true false forward_batch [] in
  (relations_created <$> match r with Ok rep => Some rep | Raise _ => None end) = Some 1
  /\ relation_calls_in tr = [CCreateRelation 102 "blocked" 103].
Proof. vm_compute. split; reflexivity. Qed.

(** C7.  An entry ([blocked_by], [blocks] or [subtask_of]) of a created
    task whose ref is not in the ref map: when step 7 reaches it, the report
    gains exactly one error string, the one that names the ref, the field
    and the task; no call is made and [relations_created] is not changed;
    the loop goes on with the remaining entries; and step 7 as a whole
    leaves [created] and [tasks] of the report as they were. *)
Theorem unknown_ref_reported (svc : service) (ref_map : gmap string Z)
    (created_tasks : list (TaskInput * CreatedTask)) (rep : Report) (tr : list call)
    (before after : list rel_entry) (e : rel_entry) :
  flat_map entries_of created_tasks = before ++ e :: after ->
  ref_map !! e_ref e = None ->
  exists rep1 tr1 rep7 tr7,
    for_each before rep (relate_one svc ref_map) tr = (Ok rep1, tr1) /\
    relate_one svc ref_map rep1 e tr1
    = (Ok (add_error (unknown_ref_message e) rep1), tr1) /\
    errors (add_error (unknown_ref_message e) rep1)
    = errors rep1 ++ [unknown_ref_message e] /\
    relations_created (add_error (unknown_ref_message e) rep1)
    = relations_created rep1 /\
    step7_create_relations svc ref_map created_tasks rep tr
    = for_each after (add_error (unknown_ref_message e) rep1)
        (relate_one svc ref_map) tr1 /\
    step7_create_relations svc ref_map created_tasks rep tr = (Ok rep7, tr7) /\
    created rep7 = created rep /\ tasks rep7 = tasks rep.
Proof.
  intros Hsplit Hnone. apply lookup_truthy_None in Hnone.
  destruct (relate_loop svc ref_map before rep tr) as (rep1 & Hb & _).
  destruct (relate_loop svc ref_map (flat_map entries_of created_tasks) rep tr)
    as (rep7 & H7 & Hc & Ht & _).
  exists rep1, (tr ++ flat_map (calls_of_entry ref_map) before), rep7,
    (tr ++ flat_map (calls_of_entry ref_map) (flat_map entries_of created_tasks)).
  repeat apply conj; try reflexivity; auto.
  - now apply relate_one_unknown.
  - rewrite step7_as_entries, Hsplit, for_each_app, Hb, for_each_cons.
    now rewrite relate_one_unknown.
  - now rewrite step7_as_entries.
Qed.

Lemma unknown_ref_reported_witness :
  step7_create_relations (sample_service None []) ∅ dangling_created empty_report []
  = (Ok (add_error "Unknown ref 'missing' in blocked_by for task 5" empty_report), []).
Proof.
  destruct (unknown_ref_reported (sample_service None []) ∅ dangling_created
              empty_report [] []
              [] {| e_task := 5; e_field := BlockedBy; e_ref := "missing" |})
    as (rep1 & tr1 & rep7 & tr7 & Hb & _ & _ & _ & Hstep & _).
  - reflexivity.
  - apply lookup_empty.
  - injection Hb as <- <-. exact Hstep.
Defined.

End RelationFacts.

(** ** Facts: placing the new tasks of a bucket *)

Module PlacementFacts.
Import Py SortKeys Allocator Batch LoopFacts.

Lemma insert_at_fst (i : nat) (k : SortKey) (p : float) (l : list (SortKey * float)) :
  list_insert_at i k (map fst l) = map fst (list_insert_at i (k, p) l).
Proof.
  unfold list_insert_at. now rewrite map_app, firstn_map, skipn_map.
Qed.

Lemma insert_at_length {A} (i : nat) (x : A) (l : list A) :
  length (list_insert_at i x l) = S (length l).
Proof.
  unfold list_insert_at. rewrite length_app. simpl.
  rewrite length_take, length_drop. lia.
Qed.

Lemma insert_at_elem {A} (i : nat) (x y : A) (l : list A) :
  y ∈ list_insert_at i x l <-> y = x \/ y ∈ l.
Proof.
  unfold list_insert_at. rewrite elem_of_app, elem_of_cons.
  assert (Hl : y ∈ l <-> y ∈ take i l \/ y ∈ drop i l).
  { rewrite <- (take_drop i l) at 1. apply elem_of_app. }
  tauto.
Qed.

(** The key half of the order invariant holds: a key inserted at the index
    that binary search returns keeps ascending keys of one kind ascending. *)
Lemma place_keeps_keys_ascending (existing_sorted : list (SortKey * float))
    (new_key : SortKey) :
  keys_ascending (map fst existing_sorted) ->
  same_kind new_key (map fst existing_sorted) ->
  keys_ascending (map fst (place existing_sorted new_key)).
Proof.
  intros Hasc Hkind. unfold place. rewrite <- insert_at_fst.
  set (keys := map fst existing_sorted) in *.
  destruct (AllocatorFacts.bisect_left_leftmost keys new_key Hasc Hkind) as [Hlt Hge].
  set (i := bisect_left keys new_key) in *.
  unfold list_insert_at, keys_ascending in *.
  rewrite <- (take_drop i keys) in Hasc.
  apply StronglySorted_app in Hasc as (Hcross & Hl & Hr).
  apply StronglySorted_app. repeat split.
  - intros a b Ha Hb. apply elem_of_cons in Hb as [->|Hb]; [|now apply Hcross].
    apply list_elem_of_lookup in Ha as [j Hj].
    apply lookup_take_Some in Hj as [Hj Hji].
    apply KeyOrder.key_ltb_asym. now apply (Hlt j).
  - exact Hl.
  - apply StronglySorted_cons. split; [|exact Hr].
    apply Forall_forall. intros b Hb.
    apply list_elem_of_lookup in Hb as [j Hj]. rewrite lookup_drop in Hj.
    apply (Hge (i + j)%nat); [lia|exact Hj].
Qed.

Lemma working_sequence_snoc (existing : list (SortKey * float)) (ks : list SortKey)
    (k : SortKey) :
  working_sequence existing (ks ++ [k]) = place (working_sequence existing ks) k.
Proof. unfold working_positions. now rewrite fold_left_app. Qed.

Lemma working_sequence_length (ks : list SortKey) :
  forall existing : list (SortKey * float),
    length (working_sequence existing ks) = (length existing + length ks)%nat.
Proof.
  induction ks as [|k ks IH]; intros existing; simpl; [lia|].
  unfold working_positions in *. simpl. rewrite IH. unfold place.
  rewrite insert_at_length. lia.
Qed.

Lemma working_sequence_keeps (ks : list SortKey) :
  forall (existing : list (SortKey * float)) (x : SortKey * float),
    x ∈ existing -> x ∈ working_sequence existing ks.
Proof.
  induction ks as [|k ks IH]; intros existing x Hx; [exact Hx|].
  unfold working_positions in *. simpl. apply IH. unfold place.
  apply insert_at_elem. now right.
Qed.

(** Every placed key is in the working sequence, with some position. *)
Lemma working_sequence_placed (ks : list SortKey) :
  forall (existing : list (SortKey * float)) (k : SortKey),
    k ∈ ks -> exists p, (k, p) ∈ working_sequence existing ks.
Proof.
  induction ks as [|k0 ks IH]; intros existing k Hk; [now apply elem_of_nil in Hk|].
  apply elem_of_cons in Hk as [->|Hk].
  - exists (allocate existing k0). unfold working_positions. simpl.
    apply (working_sequence_keeps ks). unfold place. apply insert_at_elem. now left.
  - unfold working_positions in *. simpl. now apply IH.
Qed.

Lemma position_calls_app (view : Z) (strategy : string)
    (pre post : list (TaskInput * CreatedTask)) :
  forall existing : list (SortKey * float),
    position_calls view strategy existing (pre ++ post)
    = position_calls view strategy existing pre
      ++ position_calls view strategy
           (working_sequence existing (map (input_key strategy) pre)) post.
Proof.
  induction pre as [|[ti ct] pre IH]; intros existing; [reflexivity|].
  simpl. now rewrite IH.
Qed.

Lemma position_calls_length (view : Z) (strategy : string)
    (l : list (TaskInput * CreatedTask)) :
  forall existing : list (SortKey * float),
    length (position_calls view strategy existing l) = length l.
Proof.
  induction l as [|[ti ct] l IH]; intros existing; simpl; [reflexivity|].
  now rewrite IH.
Qed.

(** The loop of step 9 over the new tasks of one bucket. *)
Lemma place_new_tasks_run (svc : service) (view : Z) (strategy : string)
    (bucket_tasks : list (TaskInput * CreatedTask)) :
  forall (existing : list (SortKey * float)) (rep : Report) (tr : list call),
  exists rep',
    place_new_tasks svc view strategy bucket_tasks existing (map fst existing) rep tr
    = (Ok (working_sequence existing (map (input_key strategy) bucket_tasks),
           map fst (working_sequence existing (map (input_key strategy) bucket_tasks)),
           rep'),
       tr ++ position_calls view strategy existing bucket_tasks) /\
    created rep' = created rep /\ tasks rep' = tasks rep.
Proof.
  unfold place_new_tasks.
  induction bucket_tasks as [|[ti ct] rest IH]; intros existing rep tr.
  - exists rep. simpl. now rewrite app_nil_r.
  - rewrite for_each_cons. unfold bind at 1, try_ at 1, perform at 1, ret at 1.
    rewrite (insert_at_fst _ _ (new_position existing
               (bisect_left (map fst existing) (_get_input_sort_key ti ct strategy)))).
    match goal with
    | |- context [for_each rest (?ex, _, ?r) _ ?t] =>
        destruct (IH ex r t) as (rep' & Hrun & Hc & Ht)
    end.
    exists rep'. split.
    + etransitivity; [exact Hrun|]. simpl. now rewrite <- app_assoc.
    + now destruct (svc tr _).
Qed.

(** C3.  The loop of step 9 over the new tasks of one bucket, started on
    the existing entries: it never raises; the position of each task is
    allocated in the working sequence that already holds every task
    placed before it in the same call, and is the one sent to the service;
    that sequence has one entry more for each earlier task, with the key of
    that task. *)
Theorem sequential_placement (svc : service) (view : Z) (strategy : string)
    (bucket_tasks : list (TaskInput * CreatedTask))
    (existing_sorted : list (SortKey * float)) (rep : Report) (tr : list call) :
  (exists final_sorted final_keys rep',
     place_new_tasks svc view strategy bucket_tasks existing_sorted
       (map fst existing_sorted) rep tr
     = (Ok (final_sorted, final_keys, rep'),
        tr ++ position_calls view strategy existing_sorted bucket_tasks) /\
     final_sorted
     = working_sequence existing_sorted (map (input_key strategy) bucket_tasks) /\
     final_keys = map fst final_sorted) /\
  (forall earlier tc later,
     bucket_tasks = earlier ++ tc :: later ->
     let seen := working_sequence existing_sorted (map (input_key strategy) earlier) in
     position_calls view strategy existing_sorted bucket_tasks !! length earlier
     = Some (CSetViewPosition (ct_id tc.2) view (allocate seen (input_key strategy tc))) /\
     length seen = (length existing_sorted + length earlier)%nat /\
     (forall x, x ∈ existing_sorted -> x ∈ seen) /\
     (forall tc', tc' ∈ earlier -> exists p, (input_key strategy tc', p) ∈ seen)).
Proof.
  split.
  - destruct (place_new_tasks_run svc view strategy bucket_tasks existing_sorted rep tr)
      as (rep' & Hrun & _).
    eexists _, _, rep'. split; [exact Hrun|]. split; reflexivity.
  - intros earlier [ti ct] later -> seen. repeat apply conj.
    + rewrite position_calls_app, lookup_app_r
        by (rewrite position_calls_length; lia).
      rewrite position_calls_length, Nat.sub_diag. reflexivity.
    + subst seen. rewrite working_sequence_length, length_map. reflexivity.
    + intros x Hx. now apply working_sequence_keeps.
    + intros tc' Hin. apply working_sequence_placed.
      apply list_elem_of_In, in_map, list_elem_of_In, Hin.
Qed.

Lemma sequential_placement_witness :
  position_calls 7 "priority" [] two_siblings !! 1%nat
  = Some (CSetViewPosition 2 7 500%float) /\
  exists p, (KInt 0, p) ∈ working_sequence [] [KInt 0].
Proof.
  destruct (sequential_placement (sample_service None []) 7 "priority" two_siblings
              [] empty_report []) as [_ Hseq].
  destruct (Hseq [(task_named "A", {| ct_id := 1; ct_title := "A" |})]
              (task_named "B", {| ct_id := 2; ct_title := "B" |}) [] eq_refl)
    as (Hcall & _ & _ & Hseen).
  split; [exact Hcall|].
  apply (Hseen (task_named "A", {| ct_id := 1; ct_title := "A" |})).
  apply elem_of_cons. now left.
Defined.

(** Two tasks with the same key into an empty bucket: the second is
    placed before the first, at half its position, not at 1000.0 again. *)
Example siblings_are_neighbours :
  position_calls 7 "priority" [] two_siblings
  = [CSetViewPosition 1 7 1000%float; CSetViewPosition 2 7 500%float].
Proof. reflexivity. Qed.

(** [_set_task_position_impl] with [apply_sort]: the moved task has no
    due date, sorts after the task due in June and gets its position plus
    1000.0. *)
Example set_task_position_sorted :
  _set_task_position_impl (sample_service (Some sample_config) [june_task]) 5 1 7 11 true []
  = (Ok {| pr_task_id := 5; pr_bucket_id := 11; pr_view_id := 7;
           pr_position_set := true; pr_position := Some 2000%float |},
     [CPlaceInBucket 5 1 7 11; CGetProjectConfig 1; CListBuckets 1 7; CGetTask 5;
      CGetBucketTasksRaw 1 7 11; CSetViewPosition 5 7 2000%float]).
Proof. vm_compute. reflexivity. Qed.

(** A batch call that runs into the head branch: the bucket holds a task
    due in June at position -5000.0; the new task, due in January, is sent
    position -1000.0, which is after the task it should precede. *)
Example batch_head_insertion :
  let '(_, _, tr) :=
    _batch_create_tasks_impl (sample_service (Some sample_config) [far_left_task])
      (fun l => l) 1 [0%nat] true false true true false
      [with_due_date "2025-01-10" (task_named "New")] [] in
  List.filter (fun c => match c with CSetViewPosition _ _ _ => true | _ => false end) tr
  = [CSetViewPosition 104 7 (-1000)%float].
Proof. vm_compute. reflexivity. Qed.

(** The end-to-end scenario of section 8: both tasks go to the default
    bucket under the [due_date] strategy; two tasks and one relation are
    created, and Design is positioned before Build. *)
Example end_to_end_scenario :
  let '(r, _, tr) :=
    _batch_create_tasks_impl (sample_service (Some sample_config) []) (fun l => l) 1
      [0; 1]%nat true false true true false design_and_build [] in
  (match r with
   | Ok rep => Some (created rep, relations_created rep, errors rep)
   | Raise _ => None
   end) = Some (2, 1, []) /\
  List.filter (fun c => match c with CSetViewPosition _ _ _ => true | _ => false end) tr
  = [CSetViewPosition 104 7 1000%float; CSetViewPosition 105 7 2000%float].
Proof. vm_compute. split; reflexivity. Qed.

End PlacementFacts.

(** ** Facts: creating the missing buckets *)

Module BucketFacts.
Import Py SortKeys Batch LoopFacts.

Lemma set_add_NoDup (s : list string) (x : string) : NoDup s -> NoDup (set_add s x).
Proof.
  intros Hnd. unfold set_add. destruct (bool_decide (x ∈ s)) eqn:Hx; [exact Hnd|].
  apply bool_decide_eq_false in Hx. apply NoDup_app. repeat split; auto.
  - intros y Hy Hy'. apply list_elem_of_singleton in Hy'. now subst.
  - apply NoDup_singleton.
Qed.

Lemma set_add_elem (s : list string) (x y : string) :
  y ∈ set_add s x <-> y ∈ s \/ y = x.
Proof.
  unfold set_add. destruct (bool_decide (x ∈ s)) eqn:Hx.
  - apply bool_decide_eq_true in Hx. split; [auto|]. intros [H | ->]; auto.
  - rewrite elem_of_app, list_elem_of_singleton. tauto.
Qed.


Section WithService.
Context (svc : service) (set_iter : list string -> list string).



End WithService.

Lemma rev_is_an_iteration_order (l : list string) : NoDup l -> rev l ≡ₚ l.
Proof. intros _. apply Permutation_sym, Permutation_rev. Qed.



End BucketFacts.

(** ** Facts: the sorted working sequence *)

Module SortingFacts.
Import Py SortKeys Allocator Batch BucketSort KeyOrder LoopFacts.

Section Sorted.
Context {A : Type} (key : A -> SortKey).

Lemma insert_sorted_perm (x : A) (l : list A) : insert_sorted key x l ≡ₚ x :: l.
Proof.
  induction l as [|y l IH]; simpl; [reflexivity|].
  destruct (key_ltb (key x) (key y)); [reflexivity|].
  rewrite IH. apply Permutation_swap.
Qed.

Lemma sorted_snoc (l : list A) (x : A) :
  sorted (l ++ [x]) key = insert_sorted key x (sorted l key).
Proof. unfold sorted. now rewrite fold_left_app. Qed.

Lemma sorted_perm (l : list A) : sorted l key ≡ₚ l.
Proof.
  induction l as [|x l IH] using rev_ind; [reflexivity|].
  rewrite sorted_snoc, insert_sorted_perm, IH.
  apply Permutation_cons_append.
Qed.

Lemma insert_sorted_ascending (x : A) (l : list A) :
  Forall (fun y => is_str_key (key y) = is_str_key (key x)) l ->
  keys_ascending (map key l) -> keys_ascending (map key (insert_sorted key x l)).
Proof.
  unfold keys_ascending.
  induction l as [|y l IH]; intros Hkind Hasc; simpl.
  - repeat constructor.
  - apply Forall_cons in Hkind as [Hy Hkind].
    simpl in Hasc. apply StronglySorted_inv in Hasc as [Hasc Hall].
    destruct (key_ltb (key x) (key y)) eqn:Hxy; simpl.
    + constructor; [constructor; assumption|].
      constructor; [now apply key_ltb_asym|].
      rewrite Forall_forall in Hall |- *. intros k Hk.
      destruct (key_ltb k (key x)) eqn:Hkx; [|reflexivity].
      apply list_elem_of_fmap in Hk as (z & -> & Hz).
      rewrite Forall_forall in Hkind.
      assert (Hyx : key_ltb (key y) (key x) = true).
      { apply (key_le_lt (key y) (key z) (key x)); auto.
        apply Hall. apply list_elem_of_fmap. eauto. }
      apply key_ltb_asym in Hxy. congruence.
    + constructor; [now apply IH|].
      rewrite Forall_forall in Hall |- *. intros k Hk.
      apply list_elem_of_fmap in Hk as (z & -> & Hz).
      rewrite insert_sorted_perm in Hz.
      apply elem_of_cons in Hz as [->|Hz]; [exact Hxy|].
      apply Hall. apply list_elem_of_fmap. eauto.
Qed.

Lemma sorted_ascending (l : list A) (kind : bool) :
  Forall (fun y => is_str_key (key y) = kind) l -> keys_ascending (map key (sorted l key)).
Proof.
  induction l as [|x l IH] using rev_ind; intros Hkind.
  - constructor.
  - apply Forall_app in Hkind as [Hl Hx]. apply Forall_cons in Hx as [Hx _].
    rewrite sorted_snoc. apply insert_sorted_ascending; [|now apply IH].
    rewrite Forall_forall in Hl |- *. intros y Hy.
    rewrite sorted_perm in Hy. rewrite Hx. now apply Hl.
Qed.

End Sorted.

Lemma insert_by_key_sorted (x : SortKey * float) (l : list (SortKey * float)) :
  insert_by_key x l = insert_sorted fst x l.
Proof. induction l as [|y l IH]; simpl; [reflexivity|]. now rewrite IH. Qed.

Lemma sort_by_key_sorted (l : list (SortKey * float)) : sort_by_key l = sorted l fst.
Proof.
  unfold sort_by_key, sorted. generalize (@nil (SortKey * float)).
  induction l as [|x l IH]; intros acc; simpl; [reflexivity|].
  now rewrite insert_by_key_sorted, IH.
Qed.

Lemma existing_pairs_kind (existing_raw : list ApiTask) (strategy : string) :
  Forall (fun y : SortKey * float => is_str_key y.1 = string_strategy strategy)
    (map (key_and_position strategy) existing_raw).
Proof.
  apply Forall_forall. intros y Hy.
  apply list_elem_of_fmap in Hy as (t & -> & _). simpl.
  apply (key_kind_by_strategy t sample_input {| ct_id := 0; ct_title := "" |}).
Qed.

Lemma build_existing_sorted_eq (existing_raw : list ApiTask) (strategy : string) :
  build_existing_sorted existing_raw strategy
  = sorted (map (key_and_position strategy) existing_raw) fst.
Proof. unfold build_existing_sorted. now rewrite sort_by_key_sorted. Qed.

Lemma build_existing_sorted_perm (existing_raw : list ApiTask) (strategy : string) :
  build_existing_sorted existing_raw strategy
    ≡ₚ map (key_and_position strategy) existing_raw.
Proof. rewrite build_existing_sorted_eq. apply sorted_perm. Qed.

Lemma build_existing_sorted_kind (existing_raw : list ApiTask) (strategy : string) :
  Forall (fun k => is_str_key k = string_strategy strategy)
    (map fst (build_existing_sorted existing_raw strategy)).
Proof.
  apply Forall_forall. intros k Hk.
  apply list_elem_of_fmap in Hk as (y & -> & Hy).
  rewrite build_existing_sorted_perm in Hy.
  pose proof (existing_pairs_kind existing_raw strategy) as Hkind.
  rewrite Forall_forall in Hkind. now apply Hkind.
Qed.

Lemma build_existing_sorted_ascending (existing_raw : list ApiTask) (strategy : string) :
  keys_ascending (map fst (build_existing_sorted existing_raw strategy)).
Proof.
  rewrite build_existing_sorted_eq.
  apply (sorted_ascending fst _ (string_strategy strategy)).
  apply existing_pairs_kind.
Qed.

(** X1.  The list "sorted list of (sort_key, position) for existing
    tasks" that both position allocators build: it holds exactly the
    (key, position) pairs of the raw tasks, its keys are ascending, and
    they are all of the kind of the strategy; so binary search always runs
    on an ascending list and comparing two keys never fails. *)
Theorem existing_sorted_ascending (existing_raw : list ApiTask) (strategy : string) :
  build_existing_sorted existing_raw strategy
    ≡ₚ map (key_and_position strategy) existing_raw /\
  keys_ascending (map fst (build_existing_sorted existing_raw strategy)) /\
  Forall (fun k => is_str_key k = string_strategy strategy)
    (map fst (build_existing_sorted existing_raw strategy)).
Proof.
  split; [apply build_existing_sorted_perm|].
  split; [apply build_existing_sorted_ascending|apply build_existing_sorted_kind].
Qed.

Lemma place_kind (kind : bool) (existing : list (SortKey * float)) (k : SortKey) :
  is_str_key k = kind ->
  Forall (fun a => is_str_key a = kind) (map fst existing) ->
  Forall (fun a => is_str_key a = kind) (map fst (place existing k)).
Proof.
  intros Hk Hall. unfold place. rewrite <- PlacementFacts.insert_at_fst.
  unfold list_insert_at. rewrite <- (take_drop (bisect_left (map fst existing) k)) in Hall.
  apply Forall_app in Hall as [Ht Hd].
  apply Forall_app. split; [exact Ht|]. now constructor.
Qed.

(** Placing keys of one kind one by one keeps the keys ascending. *)
Lemma working_sequence_ascending (kind : bool) (ks : list SortKey) :
  forall existing : list (SortKey * float),
    Forall (fun a => is_str_key a = kind) ks ->
    Forall (fun a => is_str_key a = kind) (map fst existing) ->
    keys_ascending (map fst existing) ->
    keys_ascending (map fst (working_sequence existing ks)).
Proof.
  induction ks as [|k ks IH]; intros existing Hks Hkind Hasc; [exact Hasc|].
  apply Forall_cons in Hks as [Hk Hks].
  unfold working_positions. simpl. apply IH; auto.
  - now apply place_kind.
  - apply PlacementFacts.place_keeps_keys_ascending; [exact Hasc|].
    unfold same_kind. rewrite Hk. exact Hkind.
Qed.

(** X2.  The loop of step 9 over the new tasks of one bucket, started
    as the code starts it (on the sorted existing entries and their
    keys): it never raises, the two lists it maintains stay in step
    ([existing_keys] holds the keys of [existing_sorted]), the keys are
    still ascending after any number of insertions, and there is one entry
    for each existing and each new task.  So every binary search of the
    loop runs on ascending keys. *)
Theorem placement_keeps_keys_ascending (svc : service) (view : Z) (strategy : string)
    (existing_raw : list ApiTask) (bucket_tasks : list (TaskInput * CreatedTask))
    (rep : Report) (tr : list call) :
  exists existing_sorted existing_keys rep' tr',
    place_new_tasks svc view strategy bucket_tasks
      (build_existing_sorted existing_raw strategy)
      (map fst (build_existing_sorted existing_raw strategy)) rep tr
    = (Ok (existing_sorted, existing_keys, rep'), tr') /\
    existing_keys = map fst existing_sorted /\
    keys_ascending existing_keys /\
    length existing_sorted = (length existing_raw + length bucket_tasks)%nat.
Proof.
  destruct (PlacementFacts.place_new_tasks_run svc view strategy bucket_tasks
              (build_existing_sorted existing_raw strategy) rep tr)
    as (rep' & Hrun & _).
  pose proof (build_existing_sorted_perm existing_raw strategy) as Hperm.
  pose proof (build_existing_sorted_ascending existing_raw strategy) as Hasc.
  pose proof (build_existing_sorted_kind existing_raw strategy) as Hkind.
  eexists _, _, rep', _. split; [exact Hrun|]. split; [reflexivity|]. split.
  - apply (working_sequence_ascending (string_strategy strategy)); auto.
    apply Forall_forall. intros k Hk.
    apply list_elem_of_fmap in Hk as ([ti ct] & -> & _).
    apply (key_kind_by_strategy sample_api_task ti ct).
  - rewrite PlacementFacts.working_sequence_length, Hperm, !length_map. reflexivity.
Qed.

(** X3.  The comprehension [[t for t in existing_raw if keep(t["id"])]]:
    when every task of the answer has an ["id"] it is the filter, in the
    order of the answer; one task without ["id"] makes it raise
    [KeyError('id')], whatever the other tasks are. *)
Theorem filter_by_id_cases (keep : Z -> bool) (existing_raw : list ApiTask) :
  filter_by_id keep existing_raw
  = if all_have_id existing_raw
    then Ok (List.filter (fun t => keep (get_default (at_id t) 0)) existing_raw)
    else Raise "'id'".
Proof.
  induction existing_raw as [|t rest IH]; [reflexivity|].
  simpl. destruct (at_id t) as [id|]; simpl; [|reflexivity].
  rewrite IH. destruct (all_have_id rest); [|reflexivity].
  now destruct (keep id).
Qed.

End SortingFacts.

(** ** Facts: re-sorting a bucket *)

Module BucketSortFacts.
Import Py SortKeys Allocator Batch BucketSort KeyOrder LoopFacts SortingFacts.

Lemma key_ltb_irrefl (a : SortKey) : key_ltb a a = false.
Proof.
  destruct (key_ltb a a) eqn:H; [|reflexivity].
  pose proof (key_ltb_asym a a H). congruence.
Qed.

Lemma key_eqb_eq (a b : SortKey) : key_eqb a b = true <-> a = b.
Proof.
  destruct a as [s|x], b as [t|y]; simpl; try (split; congruence).
  - rewrite String.eqb_eq. split; congruence.
  - rewrite Z.eqb_eq. split; congruence.
Qed.

Section Sorted.
Context {A : Type} (key : A -> SortKey).

(** On ascending input nothing moves. *)
Lemma insert_sorted_last (x : A) (l : list A) :
  Forall (fun y => key_ltb (key x) (key y) = false) l ->
  insert_sorted key x l = l ++ [x].
Proof.
  induction 1 as [|y l Hy Hl IH]; simpl; [reflexivity|].
  now rewrite Hy, IH.
Qed.

Lemma sorted_of_ascending (l : list A) :
  keys_ascending (map key l) -> sorted l key = l.
Proof.
  induction l as [|x l IH] using rev_ind; intros Hasc; [reflexivity|].
  rewrite map_app in Hasc. unfold keys_ascending in Hasc.
  apply StronglySorted_app in Hasc as (Hcross & Hl & _).
  rewrite sorted_snoc, IH by exact Hl.
  apply insert_sorted_last. apply Forall_forall. intros y Hy.
  apply Hcross; [|simpl; apply elem_of_cons; now left].
  apply list_elem_of_fmap. eauto.
Qed.

(** A new element goes behind the elements with its key. *)
Lemma insert_sorted_filter (k : SortKey) (x : A) (l : list A) :
  keys_ascending (map key l) ->
  List.filter (fun y => key_eqb (key y) k) (insert_sorted key x l)
  = List.filter (fun y => key_eqb (key y) k) l
    ++ (if key_eqb (key x) k then [x] else []).
Proof.
  unfold keys_ascending.
  induction l as [|y l IH]; intros Hasc; simpl; [reflexivity|].
  apply StronglySorted_inv in Hasc as [Hasc Hall].
  destruct (key_ltb (key x) (key y)) eqn:Hxy; simpl.
  - destruct (key_eqb (key x) k) eqn:Hxk; [|now rewrite app_nil_r].
    apply key_eqb_eq in Hxk.
    assert (Hy : key_eqb (key y) k = false).
    { destruct (key_eqb (key y) k) eqn:Hyk; [|reflexivity].
      apply key_eqb_eq in Hyk. rewrite Hyk, <- Hxk, key_ltb_irrefl in Hxy.
      discriminate. }
    rewrite Hy.
    assert (Hnone : List.filter (fun z => key_eqb (key z) k) l = []).
    { rewrite Forall_forall in Hall.
      clear IH Hasc. induction l as [|z l IHl]; simpl; [reflexivity|].
      destruct (key_eqb (key z) k) eqn:Hzk.
      - apply key_eqb_eq in Hzk.
        assert (Hzy : key_ltb (key z) (key y) = false).
        { apply Hall. simpl. apply elem_of_cons. now left. }
        rewrite Hzk, <- Hxk in Hzy. congruence.
      - apply IHl. intros q Hq. apply Hall. simpl. apply elem_of_cons. now right. }
    now rewrite Hnone.
  - rewrite (IH Hasc). now destruct (key_eqb (key y) k).
Qed.

Lemma sorted_stable (l : list A) (kind : bool) (k : SortKey) :
  Forall (fun y => is_str_key (key y) = kind) l ->
  List.filter (fun y => key_eqb (key y) k) (sorted l key)
  = List.filter (fun y => key_eqb (key y) k) l.
Proof.
  induction l as [|x l IH] using rev_ind; intros Hkind; [reflexivity|].
  apply Forall_app in Hkind as [Hl Hx].
  rewrite sorted_snoc, insert_sorted_filter
    by now apply (sorted_ascending key l kind).
  rewrite IH by exact Hl. rewrite List.filter_app. reflexivity.
Qed.

End Sorted.

Lemma task_keys_kind (tasks_raw : list ApiTask) (strategy : string) :
  Forall (fun t => is_str_key (_get_task_sort_key t strategy) = string_strategy strategy)
    tasks_raw.
Proof.
  apply Forall_forall. intros t _.
  apply (key_kind_by_strategy t sample_input {| ct_id := 0; ct_title := "" |}).
Qed.

(** X4.  The order in which [_sort_bucket_impl] numbers the tasks of a
    bucket ([sorted(tasks_raw, key=...)]), under any strategy: it holds the
    same tasks, with keys ascending; tasks with equal keys keep the order
    the service returned them in; and sorting the result again changes
    nothing. *)
Theorem sorted_tasks_order (tasks_raw : list ApiTask) (strategy : string) (k : SortKey) :
  let key := fun t => _get_task_sort_key t strategy in
  sorted tasks_raw key ≡ₚ tasks_raw /\
  keys_ascending (map key (sorted tasks_raw key)) /\
  List.filter (fun t => key_eqb (key t) k) (sorted tasks_raw key)
  = List.filter (fun t => key_eqb (key t) k) tasks_raw /\
  sorted (sorted tasks_raw key) key = sorted tasks_raw key.
Proof.
  intros key. pose proof (task_keys_kind tasks_raw strategy) as Hkind.
  assert (Hasc : keys_ascending (map key (sorted tasks_raw key))).
  { now apply (sorted_ascending key _ (string_strategy strategy)). }
  split; [apply sorted_perm|]. split; [exact Hasc|]. split.
  - now apply (sorted_stable key _ (string_strategy strategy)).
  - now apply sorted_of_ascending.
Qed.

Section WithService.
Context (svc : service).

(** One entry: at most one call; the entry is counted once. *)
Lemma set_one_position_run (view : Z) (acc : PositionsReport) (pos : PositionEntry)
    (tr : list call) :
  exists sent failed,
    set_one_position svc view acc pos tr
    = (Ok {| ps_updated := ps_updated acc + Z.of_nat (length sent);
             ps_tasks := ps_tasks acc ++ sent;
             ps_errors := ps_errors acc ++ failed |},
       tr ++ call_of_entry view pos) /\
    (length sent + length failed = 1)%nat /\
    sent `sublist_of` option_list (entry_pair pos).
Proof.
  unfold set_one_position, call_of_entry, entry_pair.
  destruct (truthy_int (get_default (pe_task_id pos) 0)) eqn:Hid;
    cbn [negb]; cbv beta iota zeta.
  - destruct (pe_position pos) as [position|].
    + unfold bind, try_, perform, ret.
      destruct (svc tr _) as [[]|e].
      * exists [(get_default (pe_task_id pos) 0, position)], []. simpl.
        rewrite app_nil_r. split; [reflexivity|]. split; reflexivity.
      * eexists [], [_]. simpl. rewrite app_nil_r, Z.add_0_r.
        split; [reflexivity|]. split; [reflexivity|]. apply sublist_nil_l.
    + eexists [], [_]. unfold ret. simpl. rewrite !app_nil_r, Z.add_0_r.
      split; [reflexivity|]. split; [reflexivity|]. constructor.
  - eexists [], [_]. unfold ret. simpl. rewrite !app_nil_r, Z.add_0_r.
    split; [destruct (pe_position pos); now rewrite app_nil_r|].
    split; [reflexivity|]. apply sublist_nil_l.
Qed.

(** The loop of [_batch_set_positions_impl], from any state of the report. *)
Lemma batch_set_positions_loop (view : Z) (positions : list PositionEntry) :
  forall (acc : PositionsReport) (tr : list call),
  exists sent failed,
    for_each positions acc (set_one_position svc view) tr
    = (Ok {| ps_updated := ps_updated acc + Z.of_nat (length sent);
             ps_tasks := ps_tasks acc ++ sent;
             ps_errors := ps_errors acc ++ failed |},
       tr ++ flat_map (call_of_entry view) positions) /\
    (length sent + length failed = length positions)%nat /\
    sent `sublist_of` omap entry_pair positions.
Proof.
  induction positions as [|pos rest IH]; intros acc tr.
  - exists [], []. simpl. rewrite !app_nil_r, Z.add_0_r.
    destruct acc. repeat split. constructor.
  - rewrite for_each_cons.
    destruct (set_one_position_run view acc pos tr) as (s1 & f1 & -> & Hlen1 & Hsub1).
    match goal with
    | |- context [for_each rest ?a _ ?t] =>
        destruct (IH a t) as (s2 & f2 & -> & Hlen2 & Hsub2)
    end.
    exists (s1 ++ s2), (f1 ++ f2). simpl.
    rewrite !length_app, <- !app_assoc, Nat2Z.inj_add, Z.add_assoc.
    split; [reflexivity|]. split; [lia|].
    simpl omap. destruct (entry_pair pos) as [p|]; simpl in Hsub1.
    + apply (sublist_app s1 [p] s2 _ Hsub1 Hsub2).
    + apply sublist_nil_r in Hsub1. now subst s1.
Qed.

(** X5.  [_batch_set_positions_impl] never raises; it makes one call
    for each entry that has a task identifier other than 0 and a position,
    in the order of the list, and no other call; [updated] is the number
    of reported tasks, every entry is counted once, as a reported task or
    as an error, and the reported tasks are among the entries sent, in
    their order. *)
Theorem batch_set_positions_accounting (view : Z) (positions : list PositionEntry)
    (tr : list call) :
  exists rep,
    _batch_set_positions_impl svc view positions tr
    = (Ok rep, tr ++ flat_map (call_of_entry view) positions) /\
    ps_updated rep = Z.of_nat (length (ps_tasks rep)) /\
    (length (ps_tasks rep) + length (ps_errors rep) = length positions)%nat /\
    ps_tasks rep `sublist_of` omap entry_pair positions.
Proof.
  destruct (batch_set_positions_loop view positions
              {| ps_updated := 0; ps_tasks := []; ps_errors := [] |} tr)
    as (sent & failed & Hrun & Hlen & Hsub).
  eexists. split; [exact Hrun|]. simpl. auto.
Qed.

(** The positions that the re-sort assigns, when every task has an id. *)
Lemma assign_gap_positions_loop (sorted_tasks : list ApiTask) (tr : list call) :
  Forall (fun t => has_truthy_id t = true) sorted_tasks ->
  forall acc : list PositionEntry,
    for_each (enumerate sorted_tasks) acc
      (fun positions '(i, task) =>
         id <- lift (getitem (at_id task) "id") ;;
         ret (positions
              ++ [{| pe_task_id := Some id; pe_position := Some (gap_position i) |}]))
      tr
    = (Ok (acc ++ imap gap_entry sorted_tasks), tr).
Proof.
  induction sorted_tasks as [|t l IH] using rev_ind; intros Hid acc.
  - simpl. now rewrite app_nil_r.
  - apply Forall_app in Hid as [Hl Ht]. apply Forall_cons in Ht as [Ht _].
    unfold enumerate. rewrite !imap_app, for_each_app. fold (enumerate l).
    rewrite (IH Hl acc). simpl. rewrite Nat.add_0_r.
    unfold bind, lift, ret, gap_entry, has_truthy_id in *.
    destruct (at_id t) as [id|]; [|discriminate]. simpl.
    now rewrite <- app_assoc.
Qed.

Lemma assign_gap_positions_run (sorted_tasks : list ApiTask) (tr : list call) :
  Forall (fun t => has_truthy_id t = true) sorted_tasks ->
  assign_gap_positions sorted_tasks tr = (Ok (imap gap_entry sorted_tasks), tr).
Proof.
  intros Hid. unfold assign_gap_positions.
  now rewrite (assign_gap_positions_loop _ _ Hid []).
Qed.

Lemma gap_entry_calls (view : Z) (sorted_tasks : list ApiTask) :
  Forall (fun t => has_truthy_id t = true) sorted_tasks ->
  flat_map (call_of_entry view) (imap gap_entry sorted_tasks)
  = gap_calls view sorted_tasks.
Proof.
  unfold gap_calls.
  induction sorted_tasks as [|t l IH] using rev_ind; intros Hid; [reflexivity|].
  apply Forall_app in Hid as [Hl Ht]. apply Forall_cons in Ht as [Ht _].
  rewrite !imap_app, flat_map_app, (IH Hl). simpl. rewrite app_nil_r.
  unfold call_of_entry, gap_entry, has_truthy_id in *. simpl.
  destruct (at_id t) as [id|]; [|discriminate]. simpl. now rewrite Ht.
Qed.

(** X6.  A re-sort that goes through: the project has a configuration,
    the bucket is among the buckets of the view, has a title and a
    strategy other than "manual", and every task of the bucket has an
    identifier other than 0.  Then the call reads the configuration, the
    buckets and the tasks of the bucket, and sends the task at index [i]
    of the sorted order the position [(i + 1) * 1000.0], in that order;
    it makes no other call and does not raise, whatever the service
    answers to the position calls; [sorted] is the number of reported
    tasks, and every task is counted once, as reported or as an error. *)
Theorem sort_bucket_positions (project_id view bucket : Z)
    (project_config : option ProjectConfig) (buckets : list Bucket) (b : Bucket)
    (tasks_raw : list ApiTask) (tr : list call) :
  svc tr (CGetProjectConfig project_id) = Ok project_config ->
  config_truthy project_config = true ->
  svc (tr ++ [CGetProjectConfig project_id]) (CListBuckets project_id view)
  = Ok buckets ->
  List.find (fun b => Z.eqb (bucket_id b) bucket) buckets = Some b ->
  bucket_title b <> "" ->
  strategy_of project_config (bucket_title b) <> "manual" ->
  svc (tr ++ [CGetProjectConfig project_id; CListBuckets project_id view])
    (CGetBucketTasksRaw project_id view bucket) = Ok tasks_raw ->
  Forall (fun t => has_truthy_id t = true) tasks_raw ->
  exists rep,
    _sort_bucket_impl svc project_id view bucket tr
    = (Ok rep,
       tr ++ [CGetProjectConfig project_id; CListBuckets project_id view;
              CGetBucketTasksRaw project_id view bucket]
          ++ gap_calls view
               (sorted_tasks_of tasks_raw
                  (strategy_of project_config (bucket_title b)))) /\
    sr_strategy rep = strategy_of project_config (bucket_title b) /\
    sr_sorted rep = Z.of_nat (length (sr_tasks rep)) /\
    (length (sr_tasks rep) + length (sr_errors rep) = length tasks_raw)%nat.
Proof.
  intros Hcfg Htruthy Hbuckets Hfind Htitle Hstrategy Hraw Hids.
  unfold _sort_bucket_impl.
  unfold bind at 1, perform at 1. rewrite Hcfg, Htruthy. cbn [negb].
  unfold bind at 1, perform at 1. rewrite Hbuckets, Hfind.
  assert (Ht : truthy_str (bucket_title <$> Some b) = true).
  { simpl. destruct (String.eqb_spec (bucket_title b) ""); [contradiction|reflexivity]. }
  rewrite Ht. cbn [negb fmap option_fmap option_map get_default].
  fold (strategy_of project_config (bucket_title b)).
  destruct (String.eqb_spec (strategy_of project_config (bucket_title b)) "manual")
    as [|_]; [contradiction|].
  unfold bind at 1, perform at 1. rewrite <- app_assoc. simpl app at 1.
  rewrite Hraw.
  destruct tasks_raw as [|t0 rest] eqn:Hshape.
  - eexists. unfold ret. simpl. rewrite <- !app_assoc. simpl.
    split; [reflexivity|]. auto.
  - rewrite <- Hshape in *. clear Hshape.
    fold (sorted_tasks_of tasks_raw (strategy_of project_config (bucket_title b))).
    set (sorted_tasks :=
           sorted_tasks_of tasks_raw (strategy_of project_config (bucket_title b))).
    assert (Hperm : sorted_tasks ≡ₚ tasks_raw) by apply sorted_perm.
    assert (Hsorted_ids : Forall (fun t => has_truthy_id t = true) sorted_tasks).
    { now rewrite Hperm. }
    unfold bind at 1. rewrite (assign_gap_positions_run _ _ Hsorted_ids).
    unfold _batch_set_positions_impl.
    unfold bind at 1.
    match goal with
    | |- context [for_each _ ?a _ ?t] =>
        destruct (batch_set_positions_loop view (imap gap_entry sorted_tasks) a t)
          as (sent & failed & Hrun & Hcount & _)
    end.
    rewrite Hrun. unfold ret.
    eexists. rewrite (gap_entry_calls _ _ Hsorted_ids), <- !app_assoc. simpl.
    split; [reflexivity|]. split; [reflexivity|]. split; [reflexivity|].
    rewrite length_imap, Hperm in Hcount. simpl. exact Hcount.
Qed.

(** X7.  A re-sort that sets nothing: when the project has no
    configuration, or the bucket is not among the buckets of the view (or
    has an empty title), or the strategy of the bucket is "manual", the
    call returns a report with [sorted = 0], no task and the one message
    of the case; it reads the configuration, then (with a configuration)
    the buckets, and makes no other call: no task is fetched and no
    position is set. *)
Theorem sort_bucket_sets_nothing (project_id view bucket : Z)
    (project_config : option ProjectConfig) (buckets : list Bucket) (tr : list call) :
  svc tr (CGetProjectConfig project_id) = Ok project_config ->
  (config_truthy project_config = true ->
   svc (tr ++ [CGetProjectConfig project_id]) (CListBuckets project_id view)
   = Ok buckets) ->
  (config_truthy project_config = false \/
   truthy_str (bucket_title <$> List.find (fun b => Z.eqb (bucket_id b) bucket) buckets)
   = false \/
   strategy_of project_config
     (get_default
        (bucket_title <$> List.find (fun b => Z.eqb (bucket_id b) bucket) buckets) "")
   = "manual") ->
  exists rep,
    _sort_bucket_impl svc project_id view bucket tr
    = (Ok rep,
       tr ++ CGetProjectConfig project_id
             :: (if config_truthy project_config
                 then [CListBuckets project_id view] else [])) /\
    sr_sorted rep = 0 /\ sr_tasks rep = [] /\
    sr_errors rep
    = [skip_message project_config
         (bucket_title <$> List.find (fun b => Z.eqb (bucket_id b) bucket) buckets)
         bucket].
Proof.
  intros Hcfg Hbuckets Hcase. unfold _sort_bucket_impl, skip_message.
  unfold bind at 1, perform at 1. rewrite Hcfg.
  destruct (config_truthy project_config) eqn:Htruthy; cbn [negb].
  - unfold bind at 1, perform at 1. rewrite (Hbuckets eq_refl).
    set (bucket_name :=
           bucket_title <$> List.find (fun b => Z.eqb (bucket_id b) bucket) buckets) in *.
    destruct (truthy_str bucket_name) eqn:Hname; cbn [negb].
    + destruct Hcase as [Hcase|[Hcase|Hcase]]; try discriminate.
      fold (strategy_of project_config (get_default bucket_name "")).
      rewrite Hcase. simpl String.eqb. cbv iota. unfold ret.
      eexists. rewrite <- app_assoc. simpl. auto.
    + unfold ret. eexists. rewrite <- app_assoc. simpl. auto.
  - unfold ret. eexists. auto.
Qed.

End WithService.

Lemma sort_bucket_positions_witness :
  exists rep,
    _sort_bucket_impl (sample_service (Some priority_config) three_tasks) 1 7 11 []
    = (Ok rep,
       [] ++ [CGetProjectConfig 1; CListBuckets 1 7; CGetBucketTasksRaw 1 7 11]
          ++ gap_calls 7 (sorted_tasks_of three_tasks "priority")) /\
    sr_strategy rep = "priority" /\
    sr_sorted rep = Z.of_nat (length (sr_tasks rep)) /\
    (length (sr_tasks rep) + length (sr_errors rep) = length three_tasks)%nat.
Proof.
  apply (sort_bucket_positions (sample_service (Some priority_config) three_tasks)
           1 7 11 (Some priority_config)
           [ {| bucket_id := 11; bucket_title := "To Do" |};
             {| bucket_id := 12; bucket_title := "Done" |} ]
           {| bucket_id := 11; bucket_title := "To Do" |} three_tasks []).
  - reflexivity.
  - reflexivity.
  - reflexivity.
  - reflexivity.
  - simpl. discriminate.
  - vm_compute. discriminate.
  - reflexivity.
  - repeat constructor.
Defined.

(** Priorities 1, 5 and 1: the task of priority 5 goes first, the two
    others follow in the order of the answer. *)
Example sort_bucket_by_priority :
  _sort_bucket_impl (sample_service (Some priority_config) three_tasks) 1 7 11 []
  = (Ok {| sr_sorted := 3;
           sr_tasks := [(32, 1000%float); (31, 2000%float); (33, 3000%float)];
           sr_strategy := "priority"; sr_errors := [] |},
     [CGetProjectConfig 1; CListBuckets 1 7; CGetBucketTasksRaw 1 7 11;
      CSetViewPosition 32 7 1000%float; CSetViewPosition 31 7 2000%float;
      CSetViewPosition 33 7 3000%float]).
Proof. vm_compute. reflexivity. Qed.

Lemma sort_bucket_sets_nothing_witness :
  exists rep,
    _sort_bucket_impl (sample_service (Some named_config) three_tasks) 1 7 11 []
    = (Ok rep, [CGetProjectConfig 1; CListBuckets 1 7]) /\
    sr_sorted rep = 0 /\ sr_tasks rep = [] /\
    sr_errors rep = ["Bucket uses manual sorting - no auto-sort applied"].
Proof.
  apply (sort_bucket_sets_nothing (sample_service (Some named_config) three_tasks)
           1 7 11 (Some named_config)
           [ {| bucket_id := 11; bucket_title := "To Do" |};
             {| bucket_id := 12; bucket_title := "Done" |} ] []).
  - reflexivity.
  - reflexivity.
  - right. right. reflexivity.
Defined.

End BucketSortFacts.

(** ** Facts: setting up a project *)

Module SetupFacts.
Import Py SortKeys Batch Setup LoopFacts.

Section WithService.
Context (svc : service) (set_iter : list string -> list string).

Lemma ensure_bucket_loop (project_id view : Z) (existing_names : list string)
    (ibs : list (Z * string)) :
  forall (result : SetupReport) (tr : list call),
  exists made failed,
    for_each ibs result (ensure_bucket svc project_id view existing_names) tr
    = (Ok {| su_buckets_created := su_buckets_created result ++ made;
             su_labels_created := su_labels_created result;
             su_tasks_result := su_tasks_result result;
             su_errors := su_errors result ++ failed |},
       tr ++ flat_map
               (fun ib : Z * string =>
                  if bool_decide (ib.2 ∈ existing_names) then []
                  else [CCreateBucket project_id view ib.2 ib.1]) ibs) /\
    made `sublist_of`
      List.filter (fun name => negb (bool_decide (name ∈ existing_names))) (map snd ibs) /\
    (length made + length failed
     = length (List.filter (fun name => negb (bool_decide (name ∈ existing_names)))
                 (map snd ibs)))%nat.
Proof.
  induction ibs as [|[i name] rest IH]; intros result tr.
  - exists [], []. simpl. rewrite !app_nil_r. destruct result. auto.
  - rewrite for_each_cons. unfold ensure_bucket at 1. simpl.
    destruct (bool_decide (name ∈ existing_names)); simpl.
    + apply IH.
    + unfold bind at 1, try_ at 1, perform at 1.
      destruct (svc tr _) as [new_bucket|e]; unfold ret at 1.
      * match goal with
        | |- context [for_each rest ?a _ ?t] =>
            destruct (IH a t) as (made & failed & -> & Hsub & Hlen)
        end.
        exists (name :: made), failed. simpl. rewrite <- !app_assoc. simpl.
        split; [reflexivity|]. split; [now constructor|lia].
      * match goal with
        | |- context [for_each rest ?a _ ?t] =>
            destruct (IH a t) as (made & failed & -> & Hsub & Hlen)
        end.
        eexists made, (_ :: failed). simpl. rewrite <- !app_assoc. simpl.
        split; [reflexivity|]. split; [now constructor|lia].
Qed.

Lemma enumerate_snd {A} (l : list A) : map snd (enumerate l) = l.
Proof.
  unfold enumerate. induction l as [|x l IH] using rev_ind; [reflexivity|].
  rewrite imap_app, map_app, IH. reflexivity.
Qed.

Lemma enumerate_lookup {A} (l : list A) (i : nat) (x : A) :
  l !! i = Some x -> (Z.of_nat i, x) ∈ enumerate l.
Proof.
  intros Hi. apply list_elem_of_lookup. exists i.
  unfold enumerate. rewrite list_lookup_imap, Hi. reflexivity.
Qed.

(** X8.  Step 2 of [_setup_project_impl], with a view and a non-empty
    list of names: it lists the buckets of the view once, then asks for
    one new bucket for each listed name that no existing bucket has, in
    the order of the list, every time the name occurs in it, with the
    index of the name in the list as position; it makes no other call and
    records a failed creation as an error instead of raising.  The names
    reported as created are among the missing names, in their order, and
    every missing name is reported or counted as an error. *)
Theorem setup_buckets_by_list_order (project_id view : Z) (buckets : list string)
    (existing_buckets : list Bucket) (result : SetupReport) (tr : list call) :
  view <> 0 -> buckets <> [] ->
  svc tr (CListBuckets project_id view) = Ok existing_buckets ->
  let missing :=
    List.filter
      (fun name => negb (bool_decide (name ∈ map bucket_title existing_buckets)))
      buckets in
  exists made failed,
    step2_create_buckets svc project_id (Some view) buckets result tr
    = (Ok {| su_buckets_created := su_buckets_created result ++ made;
             su_labels_created := su_labels_created result;
             su_tasks_result := su_tasks_result result;
             su_errors := su_errors result ++ failed |},
       tr ++ CListBuckets project_id view
             :: setup_bucket_calls project_id view
                  (map bucket_title existing_buckets) buckets) /\
    made `sublist_of` missing /\
    (length made + length failed = length missing)%nat /\
    forall (i : nat) (name : string),
      buckets !! i = Some name -> name ∉ map bucket_title existing_buckets ->
      CCreateBucket project_id view name (Z.of_nat i)
      ∈ setup_bucket_calls project_id view (map bucket_title existing_buckets) buckets.
Proof.
  intros Hview Hbuckets Hlist missing. unfold step2_create_buckets.
  assert (Hv : view_truthy (Some view) = true).
  { simpl. unfold truthy_int. destruct (Z.eqb_spec view 0); [contradiction|reflexivity]. }
  assert (Hb : truthy_list (Some buckets) = true).
  { destruct buckets; [contradiction|reflexivity]. }
  rewrite Hv, Hb. cbn [andb get_default].
  unfold bind at 1, perform at 1. rewrite Hlist.
  destruct (ensure_bucket_loop project_id view (map bucket_title existing_buckets)
              (enumerate buckets) result (tr ++ [CListBuckets project_id view]))
    as (made & failed & -> & Hsub & Hlen).
  rewrite enumerate_snd in Hsub, Hlen.
  exists made, failed. rewrite <- app_assoc. simpl.
  split; [reflexivity|]. split; [exact Hsub|]. split; [exact Hlen|].
  intros i name Hi Hname. unfold setup_bucket_calls.
  apply list_elem_of_In, in_flat_map. exists (Z.of_nat i, name). split.
  - apply list_elem_of_In. now apply enumerate_lookup.
  - simpl. rewrite bool_decide_eq_false_2 by exact Hname. now left.
Qed.

Lemma ensure_label_loop (existing : list string) (labels : list LabelSpec) :
  forall (result : SetupReport) (tr : list call),
  exists made failed,
    for_each labels result (ensure_label svc existing) tr
    = (Ok {| su_buckets_created := su_buckets_created result;
             su_labels_created := su_labels_created result ++ made;
             su_tasks_result := su_tasks_result result;
             su_errors := su_errors result ++ failed |},
       tr ++ setup_label_calls existing labels) /\
    made `sublist_of`
      map (fun label => get_default (ls_name label) "")
        (List.filter (wanted_label existing) labels) /\
    (length made + length failed
     = length (List.filter (wanted_label existing) labels))%nat.
Proof.
  induction labels as [|label rest IH]; intros result tr.
  - exists [], []. simpl. rewrite !app_nil_r. destruct result. auto.
  - rewrite for_each_cons. unfold ensure_label at 1. unfold setup_label_calls.
    simpl. fold (wanted_label existing label).
    fold (setup_label_calls existing rest).
    destruct (wanted_label existing label); simpl.
    + unfold bind at 1, try_ at 1, perform at 1.
      destruct (svc tr _) as [new_label|e]; unfold ret at 1.
      * match goal with
        | |- context [for_each rest ?a _ ?t] =>
            destruct (IH a t) as (made & failed & -> & Hsub & Hlen)
        end.
        eexists (_ :: made), failed. simpl. rewrite <- !app_assoc. simpl.
        split; [reflexivity|]. split; [now constructor|lia].
      * match goal with
        | |- context [for_each rest ?a _ ?t] =>
            destruct (IH a t) as (made & failed & -> & Hsub & Hlen)
        end.
        eexists made, (_ :: failed). simpl. rewrite <- !app_assoc. simpl.
        split; [reflexivity|]. split; [now constructor|lia].
    + apply IH.
Qed.

(** X9.  Step 3 of [_setup_project_impl], with a non-empty list of
    label entries: it lists the labels once, then asks for one new label
    for each entry whose name is not empty and is not the title of an
    existing label, in the order of the list, with the colour of the entry
    or "#3498db" when the entry has none; an entry without a name is
    skipped without a message; a failed creation is recorded as an error
    instead of raising. *)
Theorem setup_labels_by_list_order (labels : list LabelSpec)
    (existing_labels : list Label) (result : SetupReport) (tr : list call) :
  labels <> [] ->
  svc tr CListLabels = Ok existing_labels ->
  let wanted := List.filter (wanted_label (map label_title existing_labels)) labels in
  exists made failed,
    step3_create_labels svc labels result tr
    = (Ok {| su_buckets_created := su_buckets_created result;
             su_labels_created := su_labels_created result ++ made;
             su_tasks_result := su_tasks_result result;
             su_errors := su_errors result ++ failed |},
       tr ++ CListLabels
             :: setup_label_calls (map label_title existing_labels) labels) /\
    made `sublist_of` map (fun label => get_default (ls_name label) "") wanted /\
    (length made + length failed = length wanted)%nat.
Proof.
  intros Hlabels Hlist wanted. subst wanted. unfold step3_create_labels.
  destruct labels as [|l0 rest]; [contradiction|]. clear Hlabels.
  generalize (l0 :: rest). intros labels.
  unfold bind at 1, perform at 1. rewrite Hlist.
  destruct (ensure_label_loop (map label_title existing_labels) labels result
              (tr ++ [CListLabels]))
    as (made & failed & -> & Hsub & Hlen).
  exists made, failed. rewrite <- app_assoc. simpl.
  split; [reflexivity|]. split; [exact Hsub|exact Hlen].
Qed.

(** X10.  [_setup_project_impl] with a non-empty list of bucket names,
    when the kanban view cannot be obtained: the function returns at once
    with the one error "Failed to get kanban view: ..."; it has made that
    one call, so no label is created and no task, whatever [labels] and
    [tasks] hold, and the dictionaries of the caller are untouched. *)
Theorem setup_stops_without_view (project_id : Z) (buckets : list string)
    (labels : option (list LabelSpec)) (tasks : option (list nat))
    (σ : list TaskInput) (tr : list call) (e : string) :
  buckets <> [] ->
  svc tr (CGetKanbanView project_id) = Raise e ->
  _setup_project_impl svc set_iter project_id (Some buckets) labels tasks σ tr
  = (Ok {| su_buckets_created := []; su_labels_created := [];
           su_tasks_result := None;
           su_errors := ["Failed to get kanban view: " +:+ e] |},
     σ, tr ++ [CGetKanbanView project_id]).
Proof.
  intros Hbuckets Hview. unfold _setup_project_impl, step1_kanban_view.
  destruct buckets as [|b0 rest]; [contradiction|]. cbn [get_default].
  unfold bind at 1. unfold bind at 1, try_ at 1, perform at 1.
  rewrite Hview. reflexivity.
Qed.

End WithService.

Lemma setup_buckets_by_list_order_witness :
  exists made failed,
    step2_create_buckets (sample_service None []) 1 (Some 7)
      ["Done"; "Review"; "Review"] su_empty []
    = (Ok {| su_buckets_created := [] ++ made; su_labels_created := [];
             su_tasks_result := None; su_errors := [] ++ failed |},
       [] ++ CListBuckets 1 7
             :: setup_bucket_calls 1 7 ["To Do"; "Done"] ["Done"; "Review"; "Review"]) /\
    made `sublist_of` ["Review"; "Review"] /\
    (length made + length failed = 2)%nat /\
    forall (i : nat) (name : string),
      ["Done"; "Review"; "Review"] !! i = Some name -> name ∉ ["To Do"; "Done"] ->
      CCreateBucket 1 7 name (Z.of_nat i)
      ∈ setup_bucket_calls 1 7 ["To Do"; "Done"] ["Done"; "Review"; "Review"].
Proof.
  apply (setup_buckets_by_list_order (sample_service None []) 1 7
           ["Done"; "Review"; "Review"]
           [ {| bucket_id := 11; bucket_title := "To Do" |};
             {| bucket_id := 12; bucket_title := "Done" |} ] su_empty []).
  - lia.
  - discriminate.
  - reflexivity.
Defined.

(** "Done" exists; "Review", listed twice, is asked for twice, at the
    positions 1 and 2 of the list. *)
Example setup_duplicate_bucket :
  step2_create_buckets (sample_service None []) 1 (Some 7)
    ["Done"; "Review"; "Review"] su_empty []
  = (Ok {| su_buckets_created := ["Review"; "Review"]; su_labels_created := [];
           su_tasks_result := None; su_errors := [] |},
     [CListBuckets 1 7; CCreateBucket 1 7 "Review" 1; CCreateBucket 1 7 "Review" 2]).
Proof. vm_compute. reflexivity. Qed.

Lemma setup_labels_by_list_order_witness :
  exists made failed,
    step3_create_labels (sample_service None [])
      [ {| ls_name := Some "bug"; ls_color := None |};
        {| ls_name := None; ls_color := Some "#000000" |} ] su_empty []
    = (Ok {| su_buckets_created := []; su_labels_created := [] ++ made;
             su_tasks_result := None; su_errors := [] ++ failed |},
       [] ++ [CListLabels; CCreateLabel "bug" "#3498db"]) /\
    made `sublist_of` ["bug"] /\
    (length made + length failed = 1)%nat.
Proof.
  apply (setup_labels_by_list_order (sample_service None [])
           [ {| ls_name := Some "bug"; ls_color := None |};
             {| ls_name := None; ls_color := Some "#000000" |} ] [] su_empty []).
  - discriminate.
  - reflexivity.
Defined.

Lemma setup_stops_without_view_witness :
  _setup_project_impl no_kanban_service (fun l => l) 1 (Some ["Backlog"])
    (Some [ {| ls_name := Some "bug"; ls_color := None |} ]) (Some [0%nat])
    [task_named "First"] []
  = (Ok {| su_buckets_created := []; su_labels_created := [];
           su_tasks_result := None;
           su_errors := ["Failed to get kanban view: "
                         +:+ "No kanban view found for project 1"] |},
     [task_named "First"], [] ++ [CGetKanbanView 1]).
Proof.
  apply (setup_stops_without_view no_kanban_service (fun l => l) 1 ["Backlog"]).
  - discriminate.
  - reflexivity.
Defined.

End SetupFacts.

(** ** Facts: what a batch call may do *)

Module BehaviourFacts.
Import Py SortKeys Allocator Batch Behaviour LoopFacts.

(** *** The rules of [behaves] *)

Section Rules.
Context (svc : service) (P : call -> Prop) (E : string -> Prop).

Lemma behaves_ret {A} (Q : A -> Prop) (a : A) : Q a -> behaves P E Q (ret a).
Proof. intros Hq tr. exists []. simpl. rewrite app_nil_r. auto. Qed.

Lemma behaves_lift {A} (Q : A -> Prop) (r : result A) :
  match r with Ok a => Q a | Raise e => E e end -> behaves P E Q (lift r).
Proof. intros Hr tr. exists []. simpl. rewrite app_nil_r. auto. Qed.

Lemma behaves_perform (c : call) :
  P c -> (forall e, E e) -> behaves P E anything (perform svc c).
Proof.
  intros Hc He tr. exists [c]. unfold perform. simpl.
  split; [reflexivity|]. split; [now repeat constructor|].
  destruct (svc tr c); [exact I|auto].
Qed.

Lemma behaves_bind {A B} (Q : A -> Prop) (Q' : B -> Prop) (m : M A) (k : A -> M B) :
  behaves P E Q m -> (forall a, Q a -> behaves P E Q' (k a)) ->
  behaves P E Q' (bind m k).
Proof.
  intros Hm Hk tr. unfold bind. destruct (Hm tr) as (cs & Htr & Hcs & Hres).
  destruct (m tr) as [[a|e] tr1]; simpl in *; subst tr1.
  - destruct (Hk a Hres (tr ++ cs)) as (cs' & Htr' & Hcs' & Hres').
    exists (cs ++ cs'). rewrite Htr', app_assoc.
    split; [reflexivity|]. split; [now apply Forall_app|exact Hres'].
  - exists cs. auto.
Qed.

Lemma behaves_for_each {A B} (I : B -> Prop) (xs : list A) (body : B -> A -> M B) :
  (forall acc x, I acc -> x ∈ xs -> behaves P E I (body acc x)) ->
  forall acc, I acc -> behaves P E I (for_each xs acc body).
Proof.
  induction xs as [|x xs IH]; intros Hbody acc Hacc.
  - now apply behaves_ret.
  - simpl. apply (behaves_bind I).
    + apply Hbody; [exact Hacc|]. apply elem_of_cons. now left.
    + intros acc' Hacc'. apply IH; [|exact Hacc'].
      intros a y Ha Hy. apply Hbody; [exact Ha|]. apply elem_of_cons. now right.
Qed.

End Rules.

Lemma behaves_weaken {A} (P P' : call -> Prop) (E E' : string -> Prop)
    (Q Q' : A -> Prop) (m : M A) :
  behaves P E Q m ->
  (forall c, P c -> P' c) -> (forall e, E e -> E' e) -> (forall a, Q a -> Q' a) ->
  behaves P' E' Q' m.
Proof.
  intros Hm HP HE HQ tr. destruct (Hm tr) as (cs & Htr & Hcs & Hres).
  exists cs. split; [exact Htr|]. split.
  - eapply Forall_impl; eauto.
  - destruct (m tr).1; auto.
Qed.

(** [try: ... except Exception]: whatever the body raises is caught. *)
Lemma behaves_try {A} (P : call -> Prop) (E E' : string -> Prop) (Q : A -> Prop)
    (m : M A) :
  behaves P E' Q m -> behaves P E anything (try_ m).
Proof.
  intros Hm tr. destruct (Hm tr) as (cs & Htr & Hcs & _).
  exists cs. unfold try_. destruct (m tr) as [r tr1]. simpl in *.
  split; [exact Htr|]. split; [exact Hcs|exact I].
Qed.

(** *** The steps of a batch call *)

Lemma filter_by_id_raise (keep : Z -> bool) (existing_raw : list ApiTask) (e : string) :
  filter_by_id keep existing_raw = Raise e -> e = "'id'".
Proof.
  induction existing_raw as [|t rest IH]; simpl; [discriminate|].
  destruct (at_id t); simpl; [|now intros [= <-]].
  destruct (filter_by_id keep rest); [discriminate|]. intros [= <-]. now apply IH.
Qed.

Section Steps.
Context (svc : service) (set_iter : list string -> list string).
Context (create_missing_labels create_missing_buckets sorting with_buckets : bool).


Lemma step3_behaves (needed : list string) (label_map : gmap string Z) (rep : Report) :
  behaves (may create_missing_labels create_missing_buckets sorting with_buckets)
    never anything
    (step3_create_labels svc set_iter create_missing_labels needed label_map rep).
Proof.
  unfold step3_create_labels.
  destruct create_missing_labels eqn:Hflag; simpl; [|now apply behaves_ret].
  destruct (bool_decide (needed <> [])); [|now apply behaves_ret].
  apply behaves_for_each; [|exact I].
  intros [lm r] [i name] _ _. apply (behaves_bind _ _ anything).
  - apply (behaves_try _ _ anything anything).
    apply behaves_perform; [reflexivity|intros; exact I].
  - intros [new_label|e] _; now apply behaves_ret.
Qed.

Lemma step5_behaves (project_id : Z) (tasks : list TaskInput) (rep : Report) :
  behaves (may create_missing_labels create_missing_buckets sorting with_buckets)
    never anything (step5_create_tasks svc project_id tasks rep).
Proof.
  unfold step5_create_tasks. apply behaves_for_each; [|exact I].
  intros [[rm cs] r] t _ _. apply (behaves_bind _ _ anything).
  - apply (behaves_try _ _ anything anything).
    apply (behaves_bind _ _ anything).
    + apply behaves_lift. now destruct (getitem (ti_title t) "title").
    + intros title _.
      apply (behaves_perform svc _ anything (CCreateTask _ _));
        [reflexivity|intros; exact I].
  - intros [ct|e] _; now apply behaves_ret.
Qed.

Lemma step6_behaves (label_map : gmap string Z)
    (created_tasks : list (TaskInput * CreatedTask)) (rep : Report) :
  behaves (may create_missing_labels create_missing_buckets sorting with_buckets)
    never anything (step6_add_labels svc label_map created_tasks rep).
Proof.
  unfold step6_add_labels. apply behaves_for_each; [|exact I].
  intros r [ti ct] _ _. apply behaves_for_each; [|exact I].
  intros r' name _ _. destruct (lookup_truthy label_map name); [|now apply behaves_ret].
  apply (behaves_bind _ _ anything).
  - apply (behaves_try _ _ anything anything).
    apply behaves_perform; [reflexivity|intros; exact I].
  - intros [?|e] _; now apply behaves_ret.
Qed.

Lemma relation_behaves (task_id other : Z) (kind : string) (rep : Report)
    (msg : string -> string) :
  behaves (may create_missing_labels create_missing_buckets sorting with_buckets)
    never anything
    (r <- try_ (perform svc (CCreateRelation task_id kind other)) ;;
     match r with
     | Ok _ => ret (add_relation rep)
     | Raise e => ret (add_error (msg e) rep)
     end).
Proof.
  apply (behaves_bind _ _ anything).
  - apply (behaves_try _ _ anything anything).
    apply behaves_perform; [reflexivity|intros; exact I].
  - intros [?|e] _; now apply behaves_ret.
Qed.

Lemma step7_behaves (ref_map : gmap string Z)
    (created_tasks : list (TaskInput * CreatedTask)) (rep : Report) :
  behaves (may create_missing_labels create_missing_buckets sorting with_buckets)
    never anything (step7_create_relations svc ref_map created_tasks rep).
Proof.
  unfold step7_create_relations. apply behaves_for_each; [|exact I].
  intros r [ti ct] _ _. apply (behaves_bind _ _ anything).
  - apply behaves_for_each; [|exact I]. intros r1 ref _ _.
    destruct (lookup_truthy ref_map ref); [|now apply behaves_ret].
    apply (relation_behaves _ _ _ _
             (fun e => "Failed to create blocked relation for task "
                       +:+ str_of_Z (ct_id ct) +:+ ": " +:+ e)).
  - intros r1 _. apply (behaves_bind _ _ anything).
    + apply behaves_for_each; [|exact I]. intros r2 ref _ _.
      destruct (lookup_truthy ref_map ref); [|now apply behaves_ret].
      apply (relation_behaves _ _ _ _
               (fun e => "Failed to create blocking relation for task "
                         +:+ str_of_Z (ct_id ct) +:+ ": " +:+ e)).
    + intros r2 _. destruct (ti_subtask_of ti) as [parent|]; [|now apply behaves_ret].
      destruct (negb (String.eqb parent "")); [|now apply behaves_ret].
      destruct (lookup_truthy ref_map parent); [|now apply behaves_ret].
      apply (relation_behaves _ _ _ _
               (fun e => "Failed to create subtask relation for task "
                         +:+ str_of_Z (ct_id ct) +:+ ": " +:+ e)).
Qed.

Lemma step4_behaves (project_id : Z) (tasks : list TaskInput) (rep : Report) :
  with_buckets = names_bucket tasks ->
  behaves (may create_missing_labels create_missing_buckets sorting with_buckets)
    never (fun out => with_buckets = false -> out.1.1 = None)
    (step4_buckets svc set_iter project_id tasks create_missing_buckets rep).
Proof.
  intros Hwb. unfold step4_buckets.
  change (existsb (fun task => truthy_str (ti_bucket task)) tasks)
    with (names_bucket tasks).
  rewrite <- Hwb. clear Hwb.
  destruct with_buckets; [|now apply behaves_ret].
  apply (behaves_bind _ _ anything).
  { apply (behaves_try _ _ anything anything).
    apply behaves_perform; [reflexivity|intros; exact I]. }
  intros [view|e] _; [|apply behaves_ret; discriminate].
  apply (behaves_bind _ _ anything).
  { apply (behaves_try _ _ anything anything).
    apply behaves_perform; [reflexivity|intros; exact I]. }
  intros [existing_buckets|e] _; [|apply behaves_ret; discriminate].
  destruct create_missing_buckets eqn:Hflag; [|apply behaves_ret; discriminate].
  apply (behaves_bind _ _ anything).
  - unfold create_missing_bucket_loop. apply behaves_for_each; [|exact I].
    intros [bm r] [i name] _ _. apply (behaves_bind _ _ anything).
    + apply (behaves_try _ _ anything anything).
      apply behaves_perform; [reflexivity|intros; exact I].
    + intros [new_bucket|e] _; now apply behaves_ret.
  - intros [bm r] _. apply behaves_ret. discriminate.
Qed.

Lemma step8_behaves (project_id : Z) (view : option Z) (bucket_map : gmap string Z)
    (created_tasks : list (TaskInput * CreatedTask)) (rep : Report) :
  (with_buckets = false -> view = None) ->
  behaves (may create_missing_labels create_missing_buckets sorting with_buckets)
    never anything
    (step8_place_in_buckets svc project_id view bucket_map created_tasks rep).
Proof.
  intros Hview. unfold step8_place_in_buckets.
  destruct view as [view_id|]; [|now apply behaves_ret].
  destruct with_buckets; [|now discriminate Hview].
  destruct (truthy_int view_id && negb (bool_decide (bucket_map = ∅)))%bool;
    [|now apply behaves_ret].
  apply behaves_for_each; [|exact I].
  intros r [ti ct] _ _.
  destruct (ti_bucket ti) as [bucket_name|]; [|now apply behaves_ret].
  destruct (negb (String.eqb bucket_name "")); [|now apply behaves_ret].
  destruct (lookup_truthy bucket_map bucket_name); [|now apply behaves_ret].
  apply (behaves_bind _ _ anything).
  - apply (behaves_try _ _ anything anything).
    unfold _set_task_position_impl. apply (behaves_bind _ _ anything).
    + apply behaves_perform; [reflexivity|intros; exact I].
    + intros _ _. simpl. now apply behaves_ret.
  - intros [?|e] _; now apply behaves_ret.
Qed.

Lemma step9_behaves (project_id : Z) (apply_sort : bool)
    (project_config : option ProjectConfig) (view : option Z)
    (bucket_map : gmap string Z)
    (created_tasks : list (TaskInput * CreatedTask)) (rep : Report) :
  sorting = (apply_sort && config_truthy project_config)%bool ->
  (with_buckets = false -> view = None) ->
  behaves (may create_missing_labels create_missing_buckets sorting with_buckets)
    (fun e => e = "'id'" /\ (with_buckets && sorting)%bool = true) anything
    (step9_auto_sort svc project_id apply_sort project_config view bucket_map
       created_tasks rep).
Proof.
  intros Hsorting Hview. unfold step9_auto_sort.
  destruct view as [view_id|]; [|now apply behaves_ret].
  destruct with_buckets; [|now discriminate Hview].
  destruct (apply_sort && config_truthy project_config)%bool eqn:Hsort;
    [|now apply behaves_ret].
  subst sorting. cbn [andb].
  destruct (truthy_int view_id); [|now apply behaves_ret].
  apply behaves_for_each; [|exact I].
  intros r [bucket_name bucket_tasks] _ _.
  match goal with
  | |- context [String.eqb ?s "manual"] => destruct (String.eqb s "manual")
  end; [now apply behaves_ret|].
  destruct (lookup_truthy bucket_map bucket_name); [|now apply behaves_ret].
  apply (behaves_bind _ _ anything).
  { apply (behaves_try _ _ anything anything).
    apply behaves_perform; [reflexivity|intros; exact I]. }
  intros [existing_raw|e] _; [|now apply behaves_ret].
  apply (behaves_bind _ _ anything).
  { apply behaves_lift.
    match goal with
    | |- match ?f with _ => _ end => destruct f as [l|e] eqn:Hf; [exact I|]
    end.
    apply filter_by_id_raise in Hf. auto. }
  intros existing _. apply (behaves_bind _ _ anything).
  - unfold place_new_tasks. apply behaves_for_each; [|exact I].
    intros [[es ks] r'] [ti ct] _ _. apply (behaves_bind _ _ anything).
    + apply (behaves_try _ _ anything anything).
      apply behaves_perform; [reflexivity|intros; exact I].
    + intros res _. now apply behaves_ret.
  - intros [[es ks] r'] _. now apply behaves_ret.
Qed.

End Steps.

(** The steps after the labels were listed. *)
Lemma batch_steps_behaves (svc : service) (set_iter : list string -> list string)
    (project_id : Z) (tasks : list TaskInput)
    (create_missing_labels create_missing_buckets apply_sort : bool)
    (project_config : option ProjectConfig) (tr : list call) :
  exists cs,
    (batch_steps svc set_iter project_id tasks create_missing_labels
       create_missing_buckets apply_sort project_config tr).2
    = tr ++ CListLabels :: cs /\
    Forall (may create_missing_labels create_missing_buckets
              (apply_sort && config_truthy project_config) (names_bucket tasks)) cs /\
    forall e,
      (batch_steps svc set_iter project_id tasks create_missing_labels
         create_missing_buckets apply_sort project_config tr).1 = Raise e ->
      (svc tr CListLabels = Raise e /\ cs = []) \/
      (e = "'id'" /\
       (names_bucket tasks && (apply_sort && config_truthy project_config))%bool = true).
Proof.
  set (sorting := (apply_sort && config_truthy project_config)%bool).
  set (with_buckets := names_bucket tasks).
  set (E := fun e => e = "'id'" /\ (with_buckets && sorting)%bool = true).
  remember (batch_steps svc set_iter project_id tasks create_missing_labels
              create_missing_buckets apply_sort project_config tr) as run eqn:Hrun.
  unfold batch_steps in Hrun. unfold bind at 1, perform at 1 in Hrun.
  destruct (svc tr CListLabels) as [existing_labels|e0] eqn:Hlabels.
  2:{ subst run. exists []. simpl. split; [reflexivity|]. split; [constructor|].
      intros e He. injection He as <-. now left. }
  match type of Hrun with
  | _ = ?m (tr ++ [CListLabels]) =>
      assert (Hrest : behaves (may create_missing_labels create_missing_buckets
                                 sorting with_buckets) E anything m)
  end.
  { apply (behaves_bind _ _ anything).
    { eapply (behaves_weaken (may create_missing_labels create_missing_buckets
                                  sorting with_buckets));
        [apply step3_behaves|auto|intros ? []|auto]. }
    intros [label_map rep] _.
    apply (behaves_bind _ _ (fun out => with_buckets = false -> out.1.1 = None)).
    { eapply (behaves_weaken (may create_missing_labels create_missing_buckets
                                  sorting with_buckets));
        [now apply step4_behaves|auto|intros ? []|auto]. }
    intros [[view bucket_map] rep1] Hview. simpl in Hview.
    apply (behaves_bind _ _ anything).
    { eapply (behaves_weaken (may create_missing_labels create_missing_buckets
                                  sorting with_buckets));
        [apply step5_behaves|auto|intros ? []|auto]. }
    intros [[ref_map created_tasks] rep2] _.
    apply (behaves_bind _ _ anything).
    { eapply (behaves_weaken (may create_missing_labels create_missing_buckets
                                  sorting with_buckets));
        [apply step6_behaves|auto|intros ? []|auto]. }
    intros rep3 _. apply (behaves_bind _ _ anything).
    { eapply (behaves_weaken (may create_missing_labels create_missing_buckets
                                  sorting with_buckets));
        [apply step7_behaves|auto|intros ? []|auto]. }
    intros rep4 _. apply (behaves_bind _ _ anything).
    { eapply (behaves_weaken (may create_missing_labels create_missing_buckets
                                  sorting with_buckets));
        [now apply step8_behaves|auto|intros ? []|auto]. }
    intros rep5 _. now apply step9_behaves. }
  destruct (Hrest (tr ++ [CListLabels])) as (cs & Htr & Hcs & Hres).
  rewrite <- Hrun in Htr, Hres.
  exists cs. rewrite Htr, <- app_assoc. split; [reflexivity|]. split; [exact Hcs|].
  intros e He. right. rewrite He in Hres. exact Hres.
Qed.

(** X11.  The calls of the steps of a batch call, after the labels
    were listed, by the arguments: a label is created only with
    [create_missing_labels]; the kanban view and its buckets are read, and
    a task put into a bucket, only if some task names a bucket; a bucket
    is created only if, besides, [create_missing_buckets] is set; the tasks
    of a bucket are fetched and a position is sent only if a task names a
    bucket, [apply_sort] is set and the project has a configuration; the
    labels are listed once, and neither the configuration nor a single
    task is read. *)
Theorem batch_calls_follow_arguments (svc : service)
    (set_iter : list string -> list string) (project_id : Z) (tasks : list TaskInput)
    (create_missing_labels create_missing_buckets apply_sort : bool)
    (project_config : option ProjectConfig) (tr : list call) :
  exists cs,
    (batch_steps svc set_iter project_id tasks create_missing_labels
       create_missing_buckets apply_sort project_config tr).2
    = tr ++ CListLabels :: cs /\
    Forall (fun c =>
              allowed create_missing_labels create_missing_buckets
                (apply_sort && config_truthy project_config) (names_bucket tasks) c
              = true) cs.
Proof.
  destruct (batch_steps_behaves svc set_iter project_id tasks create_missing_labels
              create_missing_buckets apply_sort project_config tr)
    as (cs & Htr & Hcs & _).
  exists cs. split; [exact Htr|exact Hcs].
Qed.



End BehaviourFacts.

(** ** Facts: the steps of a batch call, one by one *)

Module StepFacts.
Import Py SortKeys Allocator Config Batch Behaviour Creation LoopFacts BucketFacts.

Section WithService.
Context (svc : service) (set_iter : list string -> list string).

(** One outcome for each task input, in the order of the list. *)
Lemma outcomes_inputs (project_id : Z) (tasks : list TaskInput) :
  forall tr, map fst (outcomes svc project_id tasks tr) = tasks.
Proof.
  induction tasks as [|t rest IH]; intros tr; [reflexivity|].
  simpl. destruct (ti_title t); simpl; now rewrite IH.
Qed.

(** The outcome at index [i] is the answer of the service to the call for
    the task input at index [i], after the calls for the inputs before. *)
Lemma outcomes_lookup (project_id : Z) (tasks : list TaskInput) :
  forall (tr : list call) (i : nat) (task_input : TaskInput),
    tasks !! i = Some task_input ->
    outcomes svc project_id tasks tr !! i
    = Some (task_input,
            match ti_title task_input return result CreatedTask with
            | Some title =>
              svc (tr ++ create_calls project_id (take i tasks))
                (CCreateTask project_id (data_of title task_input))
            | None => Raise "'title'"
            end).
Proof.
  induction tasks as [|t rest IH]; intros tr i task_input Hi; [discriminate|].
  destruct i as [|i].
  - injection Hi as ->. simpl. rewrite app_nil_r. now destruct (ti_title task_input).
  - simpl in Hi. cbn [take]. unfold create_calls. cbn [flat_map].
    fold (create_calls project_id (take i rest)). cbn [outcomes].
    destruct (ti_title t) as [title|]; cbn [lookup list_lookup].
    + rewrite (IH _ i task_input Hi). now rewrite <- app_assoc.
    + exact (IH _ i task_input Hi).
Qed.

Lemma created_of_ok (task_input : TaskInput) (created_task : CreatedTask)
    (os : list (TaskInput * result CreatedTask)) :
  created_of ((task_input, Ok created_task) :: os)
  = (task_input, created_task) :: created_of os.
Proof. reflexivity. Qed.

Lemma created_of_raise (task_input : TaskInput) (e : string)
    (os : list (TaskInput * result CreatedTask)) :
  created_of ((task_input, Raise e) :: os) = created_of os.
Proof. reflexivity. Qed.

Lemma failures_of_ok (task_input : TaskInput) (created_task : CreatedTask)
    (os : list (TaskInput * result CreatedTask)) :
  failures_of ((task_input, Ok created_task) :: os) = failures_of os.
Proof. reflexivity. Qed.

Lemma failures_of_raise (task_input : TaskInput) (e : string)
    (os : list (TaskInput * result CreatedTask)) :
  failures_of ((task_input, Raise e) :: os)
  = failure_message task_input e :: failures_of os.
Proof. reflexivity. Qed.

(** Every outcome is a created task or a failure. *)
Lemma created_or_failed (os : list (TaskInput * result CreatedTask)) :
  (length (created_of os) + length (failures_of os) = length os)%nat.
Proof.
  induction os as [|[t [ct|e]] os IH]; [reflexivity| |].
  - rewrite created_of_ok, failures_of_ok. simpl. lia.
  - rewrite created_of_raise, failures_of_raise. simpl. lia.
Qed.

Lemma created_of_sublist (os : list (TaskInput * result CreatedTask)) :
  map fst (created_of os) `sublist_of` map fst os.
Proof.
  induction os as [|[t [ct|e]] os IH]; [constructor| |].
  - rewrite created_of_ok. simpl. now constructor.
  - rewrite created_of_raise. simpl. now constructor.
Qed.

Lemma ref_map_of_snoc (created_tasks : list (TaskInput * CreatedTask))
    (tc : TaskInput * CreatedTask) :
  ref_map_of (created_tasks ++ [tc])
  = match ti_ref tc.1 with
    | Some ref =>
      if negb (String.eqb ref "") then <[ref := ct_id tc.2]> (ref_map_of created_tasks)
      else ref_map_of created_tasks
    | None => ref_map_of created_tasks
    end.
Proof. unfold ref_map_of. now rewrite fold_left_app. Qed.

(** Step 5, from any state of its three accumulators. *)
Lemma step5_loop (project_id : Z) (tasks : list TaskInput) :
  forall (done : list (TaskInput * CreatedTask)) (rep : Report) (tr : list call),
    for_each tasks (ref_map_of done, done, rep)
      (fun '(ref_map, created_tasks, rep) task_input =>
         r <- try_ (title <- lift (getitem (ti_title task_input) "title") ;;
                    perform svc
                      (CCreateTask project_id
                         {| data_title := title;
                            data_description :=
                              get_default (ti_description task_input) "";
                            data_start_date :=
                              get_default (ti_start_date task_input) "";
                            data_end_date := get_default (ti_end_date task_input) "";
                            data_due_date := get_default (ti_due_date task_input) "";
                            data_priority :=
                              get_default (ti_priority task_input) 0 |})) ;;
         match r with
         | Ok created_task =>
           let rep :=
             add_created
               {| te_ref := ti_ref task_input; te_id := ct_id created_task;
                  te_title := ct_title created_task |} rep in
           let ref_map :=
             match ti_ref task_input with
             | Some ref =>
               if negb (String.eqb ref "") then <[ref := ct_id created_task]> ref_map
               else ref_map
             | None => ref_map
             end in
           ret (ref_map, created_tasks ++ [(task_input, created_task)], rep)
         | Raise e =>
           ret (ref_map, created_tasks,
                add_error
                  ("Failed to create task '"
                   +:+ get_default (ti_title task_input) "?" +:+ "': " +:+ e) rep)
         end) tr
    = (Ok (ref_map_of (done ++ created_of (outcomes svc project_id tasks tr)),
           done ++ created_of (outcomes svc project_id tasks tr),
           {| created :=
                created rep
                + Z.of_nat (length (created_of (outcomes svc project_id tasks tr)));
              tasks :=
                Batch.tasks rep
                ++ map entry_of (created_of (outcomes svc project_id tasks tr));
              labels_created := labels_created rep;
              relations_created := relations_created rep;
              errors := errors rep ++ failures_of (outcomes svc project_id tasks tr) |}),
       tr ++ create_calls project_id tasks).
Proof.
  match goal with |- context [for_each _ _ ?b] => set (body := b) end.
  induction tasks as [|t rest IH]; intros done rep tr.
  - simpl. rewrite !app_nil_r, Z.add_0_r. now destruct rep.
  - rewrite for_each_cons. unfold body at 1.
    unfold bind at 1, try_ at 1, bind at 1, lift at 1.
    unfold create_calls. cbn [flat_map outcomes]. fold (create_calls project_id rest).
    destruct (ti_title t) as [title|] eqn:Htitle; simpl getitem; cbv iota.
    + unfold perform at 1. fold (data_of title t).
      destruct (svc tr (CCreateTask project_id (data_of title t))) as [ct|e] eqn:Hsvc;
        unfold ret at 1.
      * pose proof (ref_map_of_snoc done (t, ct)) as Hmap. cbn [fst snd] in Hmap.
        rewrite <- Hmap. clear Hmap. rewrite IH.
        rewrite created_of_ok, failures_of_ok.
        cbn [length map add_created created Batch.tasks labels_created
          relations_created errors].
        rewrite <- !app_assoc. cbn [app].
        rewrite Nat2Z.inj_succ, <- Z.add_1_l, Z.add_assoc. reflexivity.
      * rewrite IH. rewrite created_of_raise, failures_of_raise.
        cbn [add_error created Batch.tasks labels_created relations_created errors].
        rewrite <- !app_assoc. unfold failure_message. rewrite Htitle.
        reflexivity.
    + unfold ret at 1. rewrite IH. rewrite created_of_raise, failures_of_raise.
      cbn [add_error created Batch.tasks labels_created relations_created errors].
      rewrite <- !app_assoc. unfold failure_message. rewrite Htitle. reflexivity.
Qed.

(** Step 5 returns the tasks that the service created, with their ref
    map, and has made the creation calls. *)
Lemma step5_run (project_id : Z) (tasks : list TaskInput) (rep : Report)
    (tr : list call) :
  step5_create_tasks svc project_id tasks rep tr
  = (Ok (ref_map_of (created_of (outcomes svc project_id tasks tr)),
         created_of (outcomes svc project_id tasks tr),
         {| created :=
              created rep
              + Z.of_nat (length (created_of (outcomes svc project_id tasks tr)));
            tasks :=
              Batch.tasks rep
              ++ map entry_of (created_of (outcomes svc project_id tasks tr));
            labels_created := labels_created rep;
            relations_created := relations_created rep;
            errors := errors rep ++ failures_of (outcomes svc project_id tasks tr) |}),
     tr ++ create_calls project_id tasks).
Proof. exact (step5_loop project_id tasks [] rep tr). Qed.

(** X13.  Step 5 of a batch call never raises.  It asks the service
    for one task for each task input that has a title, in the order of
    the list, and makes no other call.  The outcome for the task input at
    index [i] is the answer of the service to its call, which comes after
    the calls for the inputs before it, or the [KeyError] of a missing
    title.  The created tasks that step 5 hands on are exactly the task
    inputs whose outcome is a task, each with that task, in the order of
    the list; the ref map is the one built from them; [created] grows by
    their number and [tasks] by their entries; [errors] grows by exactly
    one message for each other task input, which carries the title (or
    "?") and the message of the exception.  So every task input is
    counted once, as a created task or as an error, and a task input
    without a title costs no call and is reported as
    "Failed to create task '?': 'title'". *)
Theorem create_tasks_accounting (project_id : Z) (tasks : list TaskInput)
    (rep : Report) (tr : list call) :
  let os := outcomes svc project_id tasks tr in
  step5_create_tasks svc project_id tasks rep tr
  = (Ok (ref_map_of (created_of os), created_of os,
         {| created := created rep + Z.of_nat (length (created_of os));
            tasks := Batch.tasks rep ++ map entry_of (created_of os);
            labels_created := labels_created rep;
            relations_created := relations_created rep;
            errors := errors rep ++ failures_of os |}),
     tr ++ create_calls project_id tasks) /\
  map fst os = tasks /\
  (forall i task_input,
     tasks !! i = Some task_input ->
     os !! i
     = Some (task_input,
             match ti_title task_input return result CreatedTask with
             | Some title =>
               svc (tr ++ create_calls project_id (take i tasks))
                 (CCreateTask project_id (data_of title task_input))
             | None => Raise "'title'"
             end)) /\
  (forall task_input created_task,
     (task_input, created_task) ∈ created_of os
     <-> (task_input, Ok created_task) ∈ os) /\
  (forall msg,
     msg ∈ failures_of os
     <-> exists task_input e,
           (task_input, Raise e) ∈ os /\
           msg = "Failed to create task '" +:+ get_default (ti_title task_input) "?"
                 +:+ "': " +:+ e) /\
  map fst (created_of os) `sublist_of` tasks /\
  (length (created_of os) + length (failures_of os) = length tasks)%nat /\
  (forall task_input,
     task_input ∈ tasks -> ti_title task_input = None ->
     "Failed to create task '?': 'title'" ∈ failures_of os).
Proof.
  intros os. pose proof (outcomes_inputs project_id tasks tr) as Hin. fold os in Hin.
  assert (Hfail : forall msg,
             msg ∈ failures_of os
             <-> exists task_input e,
                   (task_input, Raise e) ∈ os /\
                   msg = "Failed to create task '"
                         +:+ get_default (ti_title task_input) "?" +:+ "': " +:+ e).
  { intros msg. unfold failures_of. rewrite list_elem_of_omap. split.
    - intros ([t [ct|e]] & Ho & Hm); simpl in Hm; [discriminate|].
      injection Hm as <-. now exists t, e.
    - intros (t & e & Ho & ->). now exists (t, Raise e). }
  repeat apply conj.
  - apply step5_run.
  - exact Hin.
  - intros i task_input Hi. now apply outcomes_lookup.
  - intros task_input created_task. unfold created_of. rewrite list_elem_of_omap.
    split.
    + intros ([t [ct|e]] & Ho & Hm); simpl in Hm; [|discriminate].
      now injection Hm as <- <-.
    + intros Ho. now exists (task_input, Ok created_task).
  - exact Hfail.
  - rewrite <- Hin. apply created_of_sublist.
  - rewrite created_or_failed. apply (f_equal length) in Hin.
    now rewrite length_map in Hin.
  - intros task_input Ht Hnone. apply Hfail. exists task_input, "'title'".
    split; [|now rewrite Hnone].
    apply list_elem_of_lookup in Ht as [i Hi].
    apply (list_elem_of_lookup_2 _ i). unfold os.
    rewrite (outcomes_lookup project_id tasks tr i task_input Hi). now rewrite Hnone.
Qed.

(** The loop of step 3 over the names it is given. *)
Lemma step3_loop (names : list string) :
  forall (g : nat -> nat) (label_map : gmap string Z) (rep : Report) (tr : list call),
  exists label_map' made failed,
    for_each (imap (fun i x => (Z.of_nat (g i), x)) names) (label_map, rep)
      (fun '(label_map, rep) '(i, label_name) =>
         r <- try_ (perform svc
                      (CCreateLabel label_name
                         (nth (Z.to_nat (i mod Z.of_nat (length colors))) colors ""))) ;;
         match r with
         | Ok new_label =>
           ret (<[label_name := label_id new_label]> label_map,
                add_label_created label_name rep)
         | Raise e =>
           ret (label_map,
                add_error ("Failed to create label '" +:+ label_name +:+ "': " +:+ e)
                  rep)
         end) tr
    = (Ok (label_map',
           {| created := created rep; tasks := tasks rep;
              labels_created := labels_created rep ++ made;
              relations_created := relations_created rep;
              errors := errors rep ++ failed |}),
       tr ++ imap (fun i name => CCreateLabel name (nth (g i mod 6)%nat colors ""))
               names) /\
    made `sublist_of` names /\
    (length made + length failed = length names)%nat /\
    (forall name, name ∈ made -> is_Some (label_map' !! name)) /\
    (forall name, is_Some (label_map !! name) -> is_Some (label_map' !! name)) /\
    (forall name id, name ∉ names -> label_map !! name = Some id ->
                     label_map' !! name = Some id).
Proof.
  induction names as [|x names IH]; intros g label_map rep tr.
  - exists label_map, [], []. simpl. rewrite !app_nil_r. destruct rep.
    split; [reflexivity|]. split; [constructor|]. split; [reflexivity|].
    split; [intros name Hn; now apply elem_of_nil in Hn|]. auto.
  - rewrite !imap_cons, for_each_cons.
    unfold bind at 1, try_ at 1, perform at 1.
    assert (Hcolor : Z.to_nat (Z.of_nat (g 0%nat) mod Z.of_nat (length colors))
                     = (g 0 mod 6)%nat).
    { simpl length. rewrite <- Nat2Z.inj_mod. apply Nat2Z.id. }
    rewrite Hcolor.
    destruct (svc tr _) as [new_label|e]; unfold ret at 1.
    + match goal with
      | |- context [for_each _ (?m, ?r) _ ?t] =>
          destruct (IH (g ∘ S) m r t)
            as (lm' & made & failed & Hrun & Hsub & Hlen & Hmade & Hkeep & Hsame)
      end.
      exists lm', (x :: made), failed.
      split; [etransitivity; [exact Hrun|]; simpl; now rewrite <- !app_assoc|].
      split; [now constructor|]. split; [simpl; lia|].
      split; [|split].
      * intros name Hn. apply elem_of_cons in Hn as [->|Hn]; [|now apply Hmade].
        apply Hkeep. rewrite lookup_insert_eq. eauto.
      * intros name [id Hid]. apply Hkeep.
        destruct (decide (x = name)) as [->|Hne];
          [rewrite lookup_insert_eq|rewrite lookup_insert_ne by exact Hne]; eauto.
      * intros name id Hn Hid. apply not_elem_of_cons in Hn as [Hne Hn].
        apply Hsame; [exact Hn|]. now rewrite lookup_insert_ne by congruence.
    + match goal with
      | |- context [for_each _ (?m, ?r) _ ?t] =>
          destruct (IH (g ∘ S) m r t)
            as (lm' & made & failed & Hrun & Hsub & Hlen & Hmade & Hkeep & Hsame)
      end.
      eexists lm', made, (_ :: failed).
      split; [etransitivity; [exact Hrun|]; simpl; now rewrite <- !app_assoc|].
      split; [now constructor|]. split; [simpl; lia|].
      split; [exact Hmade|]. split; [exact Hkeep|].
      intros name id Hn Hid. apply not_elem_of_cons in Hn as [Hne Hn]. now apply Hsame.
Qed.

End WithService.

Lemma create_tasks_accounting_witness :
  step5_create_tasks refusing_service 1 a_b_untitled empty_report []
  = (Ok (<["a" := 100]> ∅,
         [(with_ref "a" (task_named "A"), {| ct_id := 100; ct_title := "A" |})],
         {| created := 1;
            tasks := [{| te_ref := Some "a"; te_id := 100; te_title := "A" |}];
            labels_created := [];
            relations_created := 0;
            errors := ["Failed to create task 'B': HTTP 500";
                       "Failed to create task '?': 'title'"] |}),
     [CCreateTask 1 (data_of "A" (with_ref "a" (task_named "A")));
      CCreateTask 1 (data_of "B" (task_named "B"))]).
Proof.
  destruct (create_tasks_accounting refusing_service 1 a_b_untitled empty_report [])
    as [Hrun _].
  exact Hrun.
Defined.

(** The label names that step 2 collects. *)
Lemma needed_labels_spec (label_map : gmap string Z) (tasks : list TaskInput) :
  NoDup (needed_labels label_map tasks) /\
  forall name, name ∈ needed_labels label_map tasks
               <-> missing_label label_map tasks name.
Proof.
  unfold needed_labels.
  match goal with |- context [fold_left ?f _ _] => set (step := f) end.
  assert (Hinner : forall labels acc,
             NoDup acc ->
             NoDup (fold_left
                      (fun needed label_name =>
                         if bool_decide (is_Some (label_map !! label_name)) then needed
                         else set_add needed label_name) labels acc) /\
             forall name,
               name ∈ fold_left
                        (fun needed label_name =>
                           if bool_decide (is_Some (label_map !! label_name))
                           then needed else set_add needed label_name) labels acc
               <-> name ∈ acc \/ (name ∈ labels /\ label_map !! name = None)).
  { intros labels. induction labels as [|l labels IH]; intros acc Hnd; cbn [fold_left].
    - split; [exact Hnd|]. intros name. split; [auto|].
      intros [H|[H _]]; [exact H|now apply elem_of_nil in H].
    - destruct (label_map !! l) as [id|] eqn:Hl.
      + rewrite bool_decide_eq_true_2 by eauto.
        destruct (IH acc Hnd) as [IH1 IH2]. split; [exact IH1|].
        intros name. rewrite IH2, elem_of_cons. split.
        * intros [H|[H Hn]]; auto.
        * intros [H|[[->|H] Hn]]; auto. congruence.
      + rewrite bool_decide_eq_false_2 by (intros [? ?]; congruence).
        destruct (IH (set_add acc l) (set_add_NoDup _ _ Hnd)) as [IH1 IH2].
        split; [exact IH1|]. intros name. rewrite IH2, set_add_elem, elem_of_cons.
        split.
        * intros [[H | ->]|[H Hn]]; auto.
        * intros [H|[[->|H] Hn]]; auto. } 
  assert (Hgen : forall tasks acc,
             NoDup acc ->
             NoDup (fold_left step tasks acc) /\
             forall name, name ∈ fold_left step tasks acc
                          <-> name ∈ acc \/ missing_label label_map tasks name).
  { clear tasks. intros tasks.
    induction tasks as [|t tasks IH]; intros acc Hnd; cbn [fold_left].
    - split; [exact Hnd|]. intros name. split; [auto|].
      intros [H|(_ & t & ls & Ht & _)]; [exact H|now apply elem_of_nil in Ht].
    - unfold step at 2 4.
      destruct (Hinner (get_default (ti_labels t) []) acc Hnd) as [Hnd' Hel].
      destruct (IH _ Hnd') as [IH1 IH2]. split; [exact IH1|].
      intros name. rewrite IH2, Hel. unfold missing_label. split.
      + intros [[H|[Hin Hnone]]|(Hnone & t' & ls & Ht' & Hls & Hin)]; auto.
        * right. split; [exact Hnone|].
          destruct (ti_labels t) as [ls|] eqn:Hls; [|now apply elem_of_nil in Hin].
          exists t, ls. split; [apply elem_of_cons; now left|auto].
        * right. split; [exact Hnone|]. exists t', ls.
          split; [apply elem_of_cons; now right|auto].
      + intros [H|(Hnone & t' & ls & Ht' & Hls & Hin)]; [now left; left|].
        apply elem_of_cons in Ht' as [->|Ht'].
        * left. right. rewrite Hls. auto.
        * right. split; [exact Hnone|]. exists t', ls. auto. }
  destruct (Hgen tasks [] (NoDup_nil_2)) as [H1 H2]. split; [exact H1|].
  intros name. rewrite H2. split; [|auto].
  intros [H|H]; [now apply elem_of_nil in H|exact H].
Qed.

(** X14.  Step 3 of a batch call with [create_missing_labels] set and
    some label missing: the step asks the service for one label for every
    label name that some task carries and the existing labels do not have,
    once per name, in the order in which the set of these names is
    iterated; the colours of the palette are given in turn and start again
    after the sixth; the step makes no other call and never raises.  The
    labels reported as created are among these names, every missing name
    is reported or counted as an error, and the map of label names keeps
    what it held and holds every label that was created. *)
Theorem missing_labels_created (svc : service) (set_iter : list string -> list string)
    (tasks : list TaskInput) (label_map : gmap string Z) (rep : Report)
    (tr : list call) :
  (forall l, NoDup l -> set_iter l ≡ₚ l) ->
  needed_labels label_map tasks <> [] ->
  let needed := needed_labels label_map tasks in
  exists label_map' made failed,
    step3_create_labels svc set_iter true needed label_map rep tr
    = (Ok (label_map',
           {| created := created rep; tasks := Batch.tasks rep;
              labels_created := labels_created rep ++ made;
              relations_created := relations_created rep;
              errors := errors rep ++ failed |}),
       tr ++ label_calls (set_iter needed)) /\
    NoDup (set_iter needed) /\
    (forall name, name ∈ set_iter needed <-> missing_label label_map tasks name) /\
    made `sublist_of` set_iter needed /\
    (length made + length failed = length needed)%nat /\
    (forall name, name ∈ made -> is_Some (label_map' !! name)) /\
    (forall name id, label_map !! name = Some id -> label_map' !! name = Some id).
Proof.
  intros Hperm Hne needed.
  destruct (needed_labels_spec label_map tasks) as [Hnd Hel].
  pose proof (Hperm _ Hnd) as Hp. fold needed in Hne, Hnd, Hel, Hp.
  unfold step3_create_labels. rewrite bool_decide_eq_true_2 by exact Hne. cbn [andb].
  unfold enumerate.
  destruct (step3_loop svc (set_iter needed) (fun i => i) label_map rep tr)
    as (lm' & made & failed & Hrun & Hsub & Hlen & Hmade & _ & Hsame).
  exists lm', made, failed. split; [exact Hrun|].
  split; [now rewrite Hp|]. split; [intros name; now rewrite Hp|].
  split; [exact Hsub|]. split; [now rewrite <- Hp|]. split; [exact Hmade|].
  intros name id Hid. apply Hsame; [|exact Hid].
  rewrite Hp, Hel. intros [Hnone _]. congruence.
Qed.

Lemma missing_labels_created_witness :
  exists label_map' made failed,
    step3_create_labels (sample_service None []) (fun l => l) true ["home"; "urgent"]
      ∅ empty_report []
    = (Ok (label_map',
           {| created := 0; tasks := []; labels_created := [] ++ made;
              relations_created := 0; errors := [] ++ failed |}),
       [] ++ [CCreateLabel "home" "#3498db"; CCreateLabel "urgent" "#e74c3c"]) /\
    made `sublist_of` ["home"; "urgent"] /\
    (length made + length failed = 2)%nat.
Proof.
  destruct (missing_labels_created (sample_service None []) (fun l => l)
              [set_labels ["home"; "urgent"; "home"] (task_named "T")] ∅ empty_report [])
    as (lm' & made & failed & Hrun & _ & _ & Hsub & Hlen & _).
  - intros l _. reflexivity.
  - vm_compute. discriminate.
  - exists lm', made, failed. split; [exact Hrun|]. split; [exact Hsub|exact Hlen].
Defined.

Section Attach.
Context (svc : service).



End Attach.

(** *** Grouping the created tasks by bucket *)

Lemma group_add_keys {A} (groups : list (string * list A)) (name : string) (x : A) :
  map fst (group_add groups name x)
  = if bool_decide (name ∈ map fst groups) then map fst groups
    else map fst groups ++ [name].
Proof.
  induction groups as [|[n xs] groups IH]; simpl; [reflexivity|].
  destruct (String.eqb_spec n name) as [->|Hne]; simpl.
  - rewrite bool_decide_eq_true_2; [reflexivity|]. apply elem_of_cons. now left.
  - rewrite IH. destruct (bool_decide (name ∈ map fst groups)) eqn:Hin.
    + apply bool_decide_eq_true in Hin.
      rewrite bool_decide_eq_true_2; [reflexivity|]. apply elem_of_cons. now right.
    + apply bool_decide_eq_false in Hin.
      rewrite bool_decide_eq_false_2; [reflexivity|].
      intros H. apply elem_of_cons in H as [H|H]; [congruence|contradiction].
Qed.

Lemma group_add_get {A} (groups : list (string * list A)) (name key : string) (x : A) :
  dict_get (group_add groups name x) key
  = if String.eqb name key
    then Some (get_default (dict_get groups name) [] ++ [x])
    else dict_get groups key.
Proof.
  induction groups as [|[n xs] groups IH]; simpl.
  - destruct (String.eqb_spec name key); reflexivity.
  - destruct (String.eqb_spec n name) as [->|Hne]; simpl.
    + destruct (String.eqb_spec name key) as [->|Hk]; [reflexivity|].
      reflexivity.
    + destruct (String.eqb_spec n key) as [->|Hnk].
      * destruct (String.eqb_spec name key); [congruence|reflexivity].
      * exact IH.
Qed.

(** X16.  "Group newly created tasks by bucket" in step 9: the groups
    have distinct names; the group of a name other than the empty string
    holds exactly the created tasks whose input names that bucket, in the
    order of creation, and there is no group without a task and none for
    the empty name.  So every created task with a bucket is sorted in
    exactly one bucket, and a task without a bucket in none. *)
Theorem group_by_bucket_lookup (created_tasks : list (TaskInput * CreatedTask)) :
  NoDup (map fst (group_by_bucket created_tasks)) /\
  forall name,
    dict_get (group_by_bucket created_tasks) name
    = if String.eqb name "" then None
      else match List.filter (in_bucket name) created_tasks with
           | [] => None
           | g => Some g
           end.
Proof.
  unfold group_by_bucket.
  induction created_tasks as [|[ti ct] l IH] using rev_ind.
  - split; [constructor|]. intros name. simpl. now destruct (String.eqb name "").
  - rewrite fold_left_app. cbn [fold_left]. destruct IH as [Hnd Hget].
    set (groups := fold_left _ l []) in *.
    assert (Hin : forall name,
               in_bucket name (ti, ct)
               = match ti_bucket ti with
                 | Some b => String.eqb b name
                 | None => false
                 end) by reflexivity.
    destruct (ti_bucket ti) as [b|] eqn:Hb.
    + destruct (String.eqb_spec b "") as [->|Hne]; cbn [negb].
      * split; [exact Hnd|]. intros name. rewrite Hget, List.filter_app. simpl.
        rewrite Hin.
        destruct (String.eqb_spec name "") as [->|Hn]; [reflexivity|].
        destruct (String.eqb_spec "" name); [congruence|]. now rewrite app_nil_r.
      * split.
        -- rewrite group_add_keys. destruct (bool_decide (b ∈ map fst groups)) eqn:Hel;
             [exact Hnd|].
           apply bool_decide_eq_false in Hel. apply NoDup_app. repeat split; auto.
           ++ intros y Hy Hy'. apply list_elem_of_singleton in Hy'. now subst.
           ++ apply NoDup_singleton.
        -- intros name. rewrite group_add_get, List.filter_app. simpl.
           rewrite Hin.
           destruct (String.eqb_spec b name) as [->|Hbn].
           ++ rewrite Hget. destruct (String.eqb_spec name ""); [contradiction|].
              destruct (List.filter (in_bucket name) l); reflexivity.
           ++ rewrite Hget, app_nil_r. reflexivity.
    + split; [exact Hnd|]. intros name. rewrite Hget, List.filter_app. simpl.
      rewrite Hin. now rewrite app_nil_r.
Qed.

(** *** Moving one task to a bucket *)

(** X17.  [_set_task_position_impl] always starts by putting the task
    into the bucket; without [apply_sort] that is its only call.  When it
    returns, the result names the task, the bucket and the view; it
    carries a position exactly when [position_set] is true, and then this
    position is the one of the last call, which set it; otherwise
    [position_set] is false and no position was sent. *)
Theorem set_task_position_reports (svc : service)
    (task_id project_id view bucket : Z) (apply_sort : bool) (tr : list call) :
  exists cs,
    (_set_task_position_impl svc task_id project_id view bucket apply_sort tr).2
    = tr ++ CPlaceInBucket task_id project_id view bucket :: cs /\
    (apply_sort = true \/ cs = []) /\
    match (_set_task_position_impl svc task_id project_id view bucket apply_sort tr).1
    with
    | Raise _ => True
    | Ok res =>
      pr_task_id res = task_id /\ pr_bucket_id res = bucket /\ pr_view_id res = view /\
      match pr_position res with
      | Some p =>
        pr_position_set res = true /\
        last cs = Some (CSetViewPosition task_id view p)
      | None => pr_position_set res = false /\ BucketSort.position_calls_in cs = []
      end
    end.
Proof.
  remember (_set_task_position_impl svc task_id project_id view bucket apply_sort tr)
    as run eqn:Hrun.
  unfold _set_task_position_impl in Hrun.
  unfold bind at 1, perform at 1 in Hrun.
  destruct (svc tr (CPlaceInBucket task_id project_id view bucket)) as [[]|e0].
  2:{ subst run. exists []. simpl. auto. }
  destruct apply_sort; cbn [negb] in Hrun; cbv beta iota in Hrun.
  2:{ subst run. exists []. simpl. auto 10. }
  unfold bind at 1, perform at 1 in Hrun.
  destruct (svc _ (CGetProjectConfig project_id)) as [project_config|e1].
  2:{ subst run. eexists [_]. simpl. rewrite <- app_assoc. simpl. auto. }
  destruct (config_truthy project_config); cbn [negb] in Hrun; cbv beta iota in Hrun.
  2:{ subst run. eexists [_]. simpl. rewrite <- app_assoc. simpl. auto 10. }
  unfold bind at 1, perform at 1 in Hrun.
  destruct (svc _ (CListBuckets project_id view)) as [buckets|e2].
  2:{ subst run. eexists [_; _]. simpl. rewrite <- !app_assoc. simpl. auto. }
  destruct (bucket_title <$> List.find (fun b => Z.eqb (bucket_id b) bucket) buckets)
    as [bucket_name|].
  2:{ subst run. eexists [_; _]. simpl. rewrite <- !app_assoc. simpl. auto 10. }
  destruct (String.eqb bucket_name "").
  { subst run. eexists [_; _]. simpl. rewrite <- !app_assoc. simpl. auto 10. }
  match type of Hrun with
  | context [String.eqb ?s "manual"] => destruct (String.eqb s "manual")
  end.
  { subst run. eexists [_; _]. simpl. rewrite <- !app_assoc. simpl. auto 10. }
  unfold bind at 1, perform at 1 in Hrun.
  destruct (svc _ (CGetTask task_id)) as [task|e3].
  2:{ subst run. eexists [_; _; _]. simpl. rewrite <- !app_assoc. simpl. auto. }
  unfold bind at 1, perform at 1 in Hrun.
  destruct (svc _ (CGetBucketTasksRaw project_id view bucket)) as [existing_raw|e4].
  2:{ subst run. eexists [_; _; _; _]. simpl. rewrite <- !app_assoc. simpl. auto. }
  unfold bind at 1, lift at 1 in Hrun.
  destruct (filter_by_id _ existing_raw) as [existing|e5].
  2:{ subst run. eexists [_; _; _; _]. simpl. rewrite <- !app_assoc. simpl. auto. }
  unfold bind at 1, perform at 1 in Hrun.
  destruct (svc _ (CSetViewPosition task_id view _)) as [[]|e6].
  2:{ subst run. eexists [_; _; _; _; _]. simpl. rewrite <- !app_assoc. simpl. auto. }
  subst run. eexists [_; _; _; _; _]. simpl. rewrite <- !app_assoc. simpl. auto 10.
Qed.

End StepFacts.

(** ** Facts: the whole batch call and the templates *)

Module BatchFacts.
Import Py SortKeys Allocator Template Batch Behaviour LoopFacts BehaviourFacts
  DefaultsFacts.



(** *** Templates *)

Lemma expand_task_def_shape (anchor_dt : datetime) (all_labels : list string)
    (title_suffix : string) (bucket : option string) (task_def : TaskDef)
    (task : TaskInput) :
  expand_task_def anchor_dt all_labels title_suffix bucket task_def = Ok task ->
  expands_to all_labels title_suffix bucket task_def task.
Proof.
  unfold expand_task_def, expands_to.
  destruct (add_hours anchor_dt _) as [start_dt|]; [|discriminate].
  destruct (add_hours start_dt _) as [end_dt|]; [|discriminate].
  destruct (td_title task_def) as [title|]; simpl; [|discriminate].
  intros [= <-]. simpl. split; [|auto 10].
  exists title. split; [reflexivity|]. now destruct (String.eqb title_suffix "").
Qed.

(** X19.  The task list that [_create_from_template_impl] builds: one
    task input for each task definition of the template, in order; its
    title is the title of the definition, followed by a space and the
    suffix when a suffix is given; its labels are the list made of the
    default labels of the template followed by the labels of the call,
    the same for every task; it names the bucket of the call when one is
    given; it carries the [ref] and the [blocked_by] of the definition
    when these are not empty; and it has no description, due date,
    priority, [blocks] or [subtask_of]. *)
Theorem template_tasks_shape (anchor_dt : datetime) (all_labels : list string)
    (title_suffix : string) (bucket : option string) (defs : list TaskDef)
    (tasks : list TaskInput) :
  expand_tasks anchor_dt all_labels title_suffix bucket defs = Ok tasks ->
  Forall2 (expands_to all_labels title_suffix bucket) defs tasks.
Proof.
  revert tasks. induction defs as [|task_def rest IH]; intros tasks; simpl.
  - intros [= <-]. constructor.
  - destruct (expand_task_def anchor_dt all_labels title_suffix bucket task_def)
      as [task|] eqn:Htask; [|discriminate].
    destruct (expand_tasks anchor_dt all_labels title_suffix bucket rest)
      as [tasks'|]; [|discriminate].
    intros [= <-]. constructor; [|now apply IH].
    exact (expand_task_def_shape _ _ _ _ _ _ Htask).
Qed.

Lemma template_tasks_shape_witness :
  Forall2 (expands_to ["baking"; "party"] "(Sunday)" None)
    (get_default (tmpl_tasks bake_template) [])
    [ {| ti_title := Some "Mix (Sunday)"; ti_description := None;
         ti_start_date := Some "2025-03-09T00:00:00Z";
         ti_end_date := Some "2025-03-09T23:59:00Z"; ti_due_date := None;
         ti_priority := None; ti_labels := Some ["baking"; "party"];
         ti_bucket := None; ti_ref := Some "mix"; ti_blocked_by := None;
         ti_blocks := None; ti_subtask_of := None |};
      {| ti_title := Some "Bake (Sunday)"; ti_description := None;
         ti_start_date := Some "2025-03-10T00:00:00Z";
         ti_end_date := Some "2025-03-10T23:59:00Z"; ti_due_date := None;
         ti_priority := None; ti_labels := Some ["baking"; "party"];
         ti_bucket := None; ti_ref := None; ti_blocked_by := Some ["mix"];
         ti_blocks := None; ti_subtask_of := None |} ].
Proof.
  apply (template_tasks_shape evening_anchor ["baking"; "party"] "(Sunday)" None).
  vm_compute. reflexivity.
Defined.

(** X20.  The errors of the template itself come before anything is
    created: when the project has no configuration, or the configuration
    has no template of that name, or a task definition cannot be expanded
    (it has no title, or a date leaves the calendar),
    [_create_from_template_impl] raises after its one read of the
    configuration; no label, bucket or task was asked for, even if the
    failing definition is the last one. *)
Theorem template_fails_before_creating (svc : service)
    (set_iter : list string -> list string) (project_id : Z) (template : string)
    (anchor_dt : datetime) (labels : option (list string)) (title_suffix : string)
    (bucket : option string) (tr : list call) (project_config : option ProjectConfig) :
  svc tr (CGetProjectConfig project_id) = Ok project_config ->
  (config_truthy project_config = false \/
   List.find (fun nt : string * TemplateDef => String.eqb nt.1 template)
     (get_default (project_config ≫= cfg_templates) []) = None \/
   exists name tmpl e,
     List.find (fun nt : string * TemplateDef => String.eqb nt.1 template)
       (get_default (project_config ≫= cfg_templates) []) = Some (name, tmpl) /\
     expand_tasks anchor_dt
       (get_default (tmpl_default_labels tmpl) [] ++ get_default labels [])
       title_suffix bucket (get_default (tmpl_tasks tmpl) []) = Raise e) ->
  exists msg,
    _create_from_template_impl svc set_iter project_id template anchor_dt labels
      title_suffix bucket tr
    = (Raise msg, tr ++ [CGetProjectConfig project_id]).
Proof.
  intros Hcfg Hcase. unfold _create_from_template_impl.
  unfold bind at 1, perform at 1. rewrite Hcfg.
  destruct (config_truthy project_config) eqn:Htruthy; cbn [negb].
  2:{ eexists. reflexivity. }
  destruct Hcase as [Hcase|[Hcase|(name & tmpl & e & Hfind & Hexp)]];
    [discriminate| |].
  - rewrite Hcase. eexists. reflexivity.
  - rewrite Hfind. unfold bind at 1, lift at 1. rewrite Hexp. eexists. reflexivity.
Qed.

Lemma template_fails_before_creating_witness :
  exists msg,
    _create_from_template_impl (sample_service (Some untitled_config) []) (fun l => l)
      1 "bake" evening_anchor None "" None []
    = (Raise msg, [] ++ [CGetProjectConfig 1]).
Proof.
  apply (template_fails_before_creating (sample_service (Some untitled_config) [])
           (fun l => l) 1 "bake" evening_anchor None "" None [] (Some untitled_config)).
  - reflexivity.
  - right. right. exists "bake", untitled_template, "'title'".
    split; reflexivity.
Defined.

Lemma omap_lookup_seq_app {A} (σ : list A) :
  forall τ : list A, omap (fun l => (σ ++ τ) !! l) (seq 0 (length σ)) = σ.
Proof.
  induction σ as [|x σ IH] using rev_ind; intros τ; [reflexivity|].
  rewrite length_app. simpl. rewrite Nat.add_1_r, seq_S, omap_app. simpl.
  rewrite <- app_assoc, IH. f_equal.
  rewrite lookup_app_r by lia. rewrite Nat.sub_diag. reflexivity.
Qed.

Lemma omap_lookup_seq {A} (σ : list A) : omap (fun l => σ !! l) (seq 0 (length σ)) = σ.
Proof.
  pose proof (omap_lookup_seq_app σ []) as H. now rewrite app_nil_r in H.
Qed.

Lemma apply_config_defaults_all (c : ProjectConfig) (adl : bool) (σ : list TaskInput) :
  apply_config_defaults c adl (seq 0 (length σ)) σ = map (with_defaults c adl) σ.
Proof.
  apply list_eq. intros l. rewrite apply_config_defaults_lookup, list_lookup_fmap.
  destruct (bool_decide (l ∈ seq 0 (length σ))) eqn:Hl; [reflexivity|].
  apply bool_decide_eq_false in Hl. rewrite elem_of_seq in Hl.
  rewrite lookup_ge_None_2 by lia. reflexivity.
Qed.

(** X21.  A template call that goes through is a batch call.  With the
    configuration read twice (by the template code and by the batch code),
    the template found and its definitions expanded, what
    [_create_from_template_impl] returns and the calls it makes are those of
    the steps of a batch call on the expanded tasks in which: a task
    without a bucket is given the default bucket of the project, where one
    is configured; no default label is added; missing labels are created,
    missing buckets are not; and the tasks are sorted as the configuration
    says. *)
Theorem template_runs_batch (svc : service) (set_iter : list string -> list string)
    (project_id : Z) (template : string) (anchor_dt : datetime)
    (labels : option (list string)) (title_suffix : string) (bucket : option string)
    (tr : list call) (c : ProjectConfig) (name : string) (tmpl : TemplateDef)
    (tasks : list TaskInput) :
  svc tr (CGetProjectConfig project_id) = Ok (Some c) ->
  svc (tr ++ [CGetProjectConfig project_id]) (CGetProjectConfig project_id)
  = Ok (Some c) ->
  config_truthy (Some c) = true ->
  List.find (fun nt : string * TemplateDef => String.eqb nt.1 template)
    (get_default (cfg_templates c) []) = Some (name, tmpl) ->
  expand_tasks anchor_dt
    (get_default (tmpl_default_labels tmpl) [] ++ get_default labels [])
    title_suffix bucket (get_default (tmpl_tasks tmpl) []) = Ok tasks ->
  _create_from_template_impl svc set_iter project_id template anchor_dt labels
    title_suffix bucket tr
  = batch_steps svc set_iter project_id (map (with_defaults c false) tasks)
      true false true (Some c)
      (tr ++ [CGetProjectConfig project_id; CGetProjectConfig project_id]).
Proof.
  intros Hcfg Hcfg2 Htruthy Hfind Hexp. unfold _create_from_template_impl.
  unfold bind at 1, perform at 1. rewrite Hcfg, Htruthy. cbn [negb].
  change (Some c ≫= cfg_templates) with (cfg_templates c). rewrite Hfind.
  unfold bind at 1, lift at 1. rewrite Hexp.
  unfold _batch_create_tasks_impl, perform. rewrite Hcfg2, Htruthy.
  rewrite apply_config_defaults_all.
  replace (length tasks) with (length (map (with_defaults c false) tasks))
    by apply length_map.
  rewrite omap_lookup_seq, <- app_assoc. simpl.
  now destruct (batch_steps _ _ _ _ _ _ _ _ _).
Qed.

Lemma template_runs_batch_witness :
  _create_from_template_impl (sample_service (Some bakery_config) []) (fun l => l)
    1 "bake" evening_anchor (Some ["party"]) "" None []
  = batch_steps (sample_service (Some bakery_config) []) (fun l => l) 1
      (map (with_defaults bakery_config false)
         [ {| ti_title := Some "Mix"; ti_description := None;
              ti_start_date := Some "2025-03-09T00:00:00Z";
              ti_end_date := Some "2025-03-09T23:59:00Z"; ti_due_date := None;
              ti_priority := None; ti_labels := Some ["baking"; "party"];
              ti_bucket := None; ti_ref := Some "mix"; ti_blocked_by := None;
              ti_blocks := None; ti_subtask_of := None |};
           {| ti_title := Some "Bake"; ti_description := None;
              ti_start_date := Some "2025-03-10T00:00:00Z";
              ti_end_date := Some "2025-03-10T23:59:00Z"; ti_due_date := None;
              ti_priority := None; ti_labels := Some ["baking"; "party"];
              ti_bucket := None; ti_ref := None; ti_blocked_by := Some ["mix"];
              ti_blocks := None; ti_subtask_of := None |} ])
      true false true (Some bakery_config)
      ([] ++ [CGetProjectConfig 1; CGetProjectConfig 1]).
Proof.
  apply (template_runs_batch (sample_service (Some bakery_config) []) (fun l => l)
           1 "bake" evening_anchor (Some ["party"]) "" None [] bakery_config
           "bake" bake_template).
  - reflexivity.
  - reflexivity.
  - reflexivity.
  - reflexivity.
  - vm_compute. reflexivity.
Defined.

(** The template of two tasks, run: both tasks go to the default bucket
    of the project, the label of the template and the label of the call
    are created and attached, and the relation is made. *)
Example template_end_to_end :
  let '(r, tr) :=
    _create_from_template_impl (sample_service (Some bakery_config) []) (fun l => l)
      1 "bake" evening_anchor (Some ["party"]) "" None [] in
  (match r with
   | Ok rep => Some (created rep, labels_created rep, relations_created rep, errors rep)
   | Raise _ => None
   end) = Some (2, ["baking"; "party"], 1, []) /\
  List.filter (fun c => match c with CPlaceInBucket _ _ _ _ => true | _ => false end) tr
  = [CPlaceInBucket 107 1 7 11; CPlaceInBucket 108 1 7 11].
Proof. vm_compute. split; reflexivity. Qed.

End BatchFacts.

(** ** Facts: merged values *)

Module MergeFacts.
Import Py Config ConfigStore ConfigFacts.

(** *** Association lists, continued *)

Section Dicts.
Context {V : Type}.
Implicit Types (d : list (string * V)) (k : string) (v : V).

Lemma dict_del_get_eq d k : dict_get (dict_del d k) k = None.
Proof.
  induction d as [|[k0 w] d IH]; simpl; [reflexivity|].
  destruct (String.eqb_spec k0 k) as [->|Hne]; simpl; [exact IH|].
  destruct (String.eqb_spec k0 k); [contradiction|exact IH].
Qed.

Lemma dict_del_get_ne d k k' : k <> k' -> dict_get (dict_del d k) k' = dict_get d k'.
Proof.
  intros Hne. induction d as [|[k0 w] d IH]; simpl; [reflexivity|].
  destruct (String.eqb_spec k0 k) as [->|Hk0]; simpl.
  - destruct (String.eqb_spec k k'); [contradiction|exact IH].
  - destruct (String.eqb_spec k0 k'); [reflexivity|exact IH].
Qed.

Lemma dict_del_absent d k : dict_get d k = None -> dict_del d k = d.
Proof.
  induction d as [|[k0 w] d IH]; simpl; [reflexivity|].
  destruct (String.eqb_spec k0 k); [discriminate|]. intros H. now rewrite IH.
Qed.

Lemma dict_get_Some_keys d k v : dict_get d k = Some v -> k ∈ map fst d.
Proof.
  intros H. apply list_elem_of_In.
  destruct (in_dec string_dec k (map fst d)) as [Hin|Hout]; [exact Hin|].
  apply dict_get_None_keys in Hout. congruence.
Qed.

Lemma dict_get_elem d k v : dict_get d k = Some v -> (k, v) ∈ d.
Proof.
  induction d as [|[k0 w] d IH]; simpl; [discriminate|].
  destruct (String.eqb_spec k0 k) as [->|Hne].
  - intros [= ->]. apply elem_of_cons. now left.
  - intros H. apply elem_of_cons. right. now apply IH.
Qed.

(** Two dictionaries with the same keys in the same order and the same
    value under every key are equal. *)
Lemma dict_ext d1 d2 :
  NoDup (map fst d1) -> map fst d1 = map fst d2 ->
  (forall k, dict_get d1 k = dict_get d2 k) -> d1 = d2.
Proof.
  revert d2. induction d1 as [|[k1 v1] d1 IH]; intros [|[k2 v2] d2] Hnd Hkeys Hget;
    simpl in *; try discriminate; [reflexivity|].
  injection Hkeys as Hk Hkeys. subst k2. apply NoDup_cons in Hnd as [Hnotin Hnd].
  pose proof (Hget k1) as H1. rewrite String.eqb_refl in H1. injection H1 as <-.
  f_equal. apply IH; auto. intros k. specialize (Hget k).
  destruct (String.eqb_spec k1 k) as [Heq|Hne]; [subst k; clear Hget|exact Hget].
  assert (Hn1 : dict_get d1 k1 = None).
  { apply dict_get_None_keys. intros Hin. apply Hnotin, list_elem_of_In, Hin. }
  assert (Hn2 : dict_get d2 k1 = None).
  { apply dict_get_None_keys. rewrite <- Hkeys. intros Hin.
    apply Hnotin, list_elem_of_In, Hin. }
  congruence.
Qed.

End Dicts.

(** *** The keys of a merged value *)

Lemma fold_tree_step_keys (us : list (string * tree)) :
  NoDup (map fst us) ->
  forall tb,
    map fst (fold_left tree_step us tb)
    = map fst tb
      ++ List.filter (fun k => negb (bool_decide (is_Some (dict_get tb k))))
           (map fst us).
Proof.
  induction us as [|[k0 v0] us IH]; intros Hnd tb; simpl.
  - now rewrite app_nil_r.
  - apply NoDup_cons in Hnd as [Hnotin Hnd]. simpl in Hnotin.
    rewrite (IH Hnd). unfold tree_step at 1 2. simpl. rewrite dict_set_keys.
    assert (Hfilter : forall v,
               List.filter (fun k => negb (bool_decide (is_Some (dict_get (dict_set tb k0 v) k))))
                 (map fst us)
               = List.filter (fun k => negb (bool_decide (is_Some (dict_get tb k))))
                   (map fst us)).
    { intros v. apply List.filter_ext_in. intros k Hk.
      rewrite dict_get_set_ne; [reflexivity|].
      intros ->. apply Hnotin, list_elem_of_In, Hk. }
    rewrite Hfilter.
    destruct (dict_get tb k0) as [old|] eqn:Hold.
    + rewrite bool_decide_eq_true_2 by eauto. reflexivity.
    + rewrite bool_decide_eq_false_2 by (intros [? ?]; congruence). simpl.
      now rewrite <- app_assoc.
Qed.

Lemma merge_tree_NoDup (tb us : list (string * tree)) :
  NoDup (map fst tb) -> NoDup (map fst (merge_tree tb (TDict us))).
Proof.
  rewrite merge_tree_unfold. revert tb.
  induction us as [|kv us IH]; intros tb Hnd; simpl; [exact Hnd|].
  apply IH. unfold tree_step. now apply dict_set_NoDup.
Qed.

(** *** Well-formed values, nesting depth *)

Lemma well_formed_dict (d : list (string * tree)) :
  well_formed (TDict d)
  <-> NoDup (map fst d) /\ Forall (fun kt => well_formed kt.2) d.
Proof.
  simpl. split; intros [Hnd Hall]; (split; [exact Hnd|]); clear Hnd.
  - induction d as [|kt d IH]; constructor; [apply Hall|apply IH, Hall].
  - induction Hall as [|kt d Hkt _ IH]; [exact I|split; assumption].
Qed.

Lemma well_formedb_spec (t : tree) : well_formedb t = true -> well_formed t.
Proof.
  induction t as [a|d IH] using tree_ind'; [intros _; exact I|].
  simpl. intros H. apply andb_true_iff in H as [Hnd Hall].
  apply bool_decide_eq_true in Hnd. split; [exact Hnd|]. clear Hnd.
  induction IH as [|kt d Hkt _ IHd]; [exact I|].
  apply andb_true_iff in Hall as [H1 H2]. split; [now apply Hkt|now apply IHd].
Qed.

Lemma depth_dict (d : list (string * tree)) (n : nat) :
  (depth (TDict d) <= S n)%nat <-> Forall (fun kt => (depth kt.2 <= n)%nat) d.
Proof.
  split; [apply depth_dict_elem|]. intros Hall. simpl. apply le_n_S.
  induction Hall as [|kt d Hkt _ IH]; [lia|]. lia.
Qed.

Lemma dict_set_Forall {V : Type} (P : V -> Prop) (d : list (string * V))
    (k : string) (v : V) :
  Forall (fun kv => P kv.2) d -> P v -> Forall (fun kv => P kv.2) (dict_set d k v).
Proof.
  intros Hall Hv. induction Hall as [|[k0 w] d Hw Hd IH]; simpl.
  - constructor; [exact Hv|constructor].
  - destruct (String.eqb k0 k); constructor; assumption.
Qed.

Lemma dict_get_Forall {V : Type} (P : V -> Prop) (d : list (string * V))
    (k : string) (v : V) :
  Forall (fun kv => P kv.2) d -> dict_get d k = Some v -> P v.
Proof.
  intros Hall Hget. apply dict_get_elem in Hget.
  rewrite Forall_forall in Hall. exact (Hall _ Hget).
Qed.

(** The fold of the merge keeps what holds of the values of both sides
    and of every value that merging two such mappings yields. *)
Lemma fold_tree_step_Forall (P : tree -> Prop) (us : list (string * tree)) :
  (forall x u, P (TDict x) -> P (TDict u) -> In (TDict u) (map snd us) ->
               P (TDict (merge_tree x (TDict u)))) ->
  Forall (fun kt => P kt.2) us ->
  forall tb, Forall (fun kt => P kt.2) tb ->
             Forall (fun kt => P kt.2) (fold_left tree_step us tb).
Proof.
  induction us as [|[k v] us IH]; intros Hrec Hus tb Htb; simpl; [exact Htb|].
  apply Forall_cons in Hus as [Hv Hus]. simpl in Hv.
  apply IH; [intros x u Hx Hu Hin; apply Hrec; auto; simpl; now right|exact Hus|].
  unfold tree_step. simpl. apply dict_set_Forall; [exact Htb|].
  unfold combine_values.
  destruct (dict_get tb k) as [[a|x]|] eqn:Hold; try exact Hv.
  destruct v as [a|u]; [exact Hv|].
  apply Hrec; [|exact Hv|simpl; now left].
  exact (dict_get_Forall P _ _ _ Htb Hold).
Qed.

Lemma merge_tree_depth (n : nat) :
  forall tb tu : list (string * tree),
    (depth (TDict tb) <= n)%nat -> (depth (TDict tu) <= n)%nat ->
    (depth (TDict (merge_tree tb (TDict tu))) <= n)%nat.
Proof.
  induction n as [|n IH]; intros tb tu Hb Hu; [simpl in Hb; lia|].
  apply depth_dict. rewrite merge_tree_unfold.
  apply (fold_tree_step_Forall (fun t => (depth t <= n)%nat)).
  - intros x u Hx Hu' _. now apply IH.
  - now apply depth_dict.
  - now apply depth_dict.
Qed.

Lemma merge_tree_well_formed (n : nat) :
  forall tb tu : list (string * tree),
    (depth (TDict tu) <= n)%nat ->
    well_formed (TDict tb) -> well_formed (TDict tu) ->
    well_formed (TDict (merge_tree tb (TDict tu))).
Proof.
  induction n as [|n IH]; intros tb tu Hd Hb Hu; [simpl in Hd; lia|].
  apply well_formed_dict in Hb as [Hndb Hb]. apply well_formed_dict in Hu as [Hndu Hu].
  apply well_formed_dict. split; [now apply merge_tree_NoDup|].
  rewrite merge_tree_unfold. apply depth_dict in Hd.
  assert (Hboth : Forall (fun kt => well_formed kt.2 /\ (depth kt.2 <= n)%nat) tu).
  { apply Forall_and. now split. }
  clear Hu Hd Hndu Hndb. revert tb Hb.
  induction Hboth as [|[k v] us [Hv Hdv] _ IHus]; intros tb Hb; simpl; [exact Hb|].
  apply IHus. unfold tree_step. simpl. apply dict_set_Forall; [exact Hb|].
  unfold combine_values. simpl in Hv, Hdv.
  destruct (dict_get tb k) as [[a|x]|] eqn:Hold; try exact Hv.
  destruct v as [a|u]; [exact Hv|].
  apply IH; [exact Hdv| |exact Hv].
  exact (dict_get_Forall well_formed _ _ _ Hb Hold).
Qed.

Lemma filter_present_nil (tb : list (string * tree)) (ks : list string) :
  (forall k, k ∈ ks -> is_Some (dict_get tb k)) ->
  List.filter (fun k => negb (bool_decide (is_Some (dict_get tb k)))) ks = [].
Proof.
  induction ks as [|k ks IH]; intros Hall; simpl; [reflexivity|].
  rewrite bool_decide_eq_true_2 by (apply Hall, elem_of_cons; now left). simpl.
  apply IH. intros k' Hk'. apply Hall, elem_of_cons. now right.
Qed.

Lemma dict_get_keys_Some {V : Type} (d : list (string * V)) (k : string) :
  k ∈ map fst d -> is_Some (dict_get d k).
Proof.
  intros Hin. destruct (dict_get d k) eqn:Hget; [eauto|].
  apply dict_get_None_keys in Hget. exfalso. apply Hget, list_elem_of_In, Hin.
Qed.

(** Merging a mapping into itself changes nothing. *)
Lemma merge_tree_self (n : nat) :
  forall d : list (string * tree),
    (depth (TDict d) <= n)%nat -> well_formed (TDict d) ->
    merge_tree d (TDict d) = d.
Proof.
  induction n as [|n IH]; intros d Hd Hwf; [simpl in Hd; lia|].
  apply well_formed_dict in Hwf as [Hnd Hwf]. apply depth_dict in Hd.
  apply dict_ext.
  - now apply merge_tree_NoDup.
  - rewrite merge_tree_unfold, (fold_tree_step_keys _ Hnd), filter_present_nil.
    + apply app_nil_r.
    + intros k Hk. now apply dict_get_keys_Some.
  - intros k. rewrite merge_tree_unfold, (fold_tree_step_get _ _ Hnd).
    destruct (dict_get d k) as [v|] eqn:Hget; [|reflexivity].
    f_equal. unfold combine_values. destruct v as [a|x]; [reflexivity|].
    f_equal. apply IH.
    + exact (dict_get_Forall (fun t => (depth t <= n)%nat) _ _ _ Hd Hget).
    + exact (dict_get_Forall well_formed _ _ _ Hwf Hget).
Qed.

(** Merging the same update a second time changes nothing. *)
Lemma merge_tree_idem (n : nat) :
  forall tb tu : list (string * tree),
    (depth (TDict tu) <= n)%nat ->
    well_formed (TDict tb) -> well_formed (TDict tu) ->
    merge_tree (merge_tree tb (TDict tu)) (TDict tu) = merge_tree tb (TDict tu).
Proof.
  induction n as [|n IH]; intros tb tu Hd Hb Hu; [simpl in Hd; lia|].
  pose proof Hb as Hb0. pose proof Hu as Hu0.
  apply well_formed_dict in Hb as [Hndb Hb]. apply well_formed_dict in Hu as [Hndu Hu].
  apply depth_dict in Hd.
  set (m := merge_tree tb (TDict tu)).
  assert (Hget : forall k,
             dict_get m k
             = match dict_get tu k with
               | Some v => Some (combine_values (dict_get tb k) v)
               | None => dict_get tb k
               end).
  { intros k. unfold m. rewrite merge_tree_unfold. now apply fold_tree_step_get. }
  apply dict_ext.
  - apply merge_tree_NoDup. now apply merge_tree_NoDup.
  - rewrite merge_tree_unfold, (fold_tree_step_keys _ Hndu), filter_present_nil.
    + apply app_nil_r.
    + intros k Hk. rewrite Hget.
      destruct (dict_get_keys_Some _ _ Hk) as [v Hv]. rewrite Hv. eauto.
  - intros k. rewrite merge_tree_unfold, (fold_tree_step_get _ _ Hndu).
    rewrite !Hget.
    destruct (dict_get tu k) as [v|] eqn:Hv; [|reflexivity].
    f_equal.
    destruct v as [a|u];
      [unfold combine_values; now destruct (dict_get tb k) as [[a'|x]|]|].
    assert (Hdu : (depth (TDict u) <= n)%nat)
      by exact (dict_get_Forall (fun t => (depth t <= n)%nat) _ _ _ Hd Hv).
    assert (Hwu : well_formed (TDict u))
      by exact (dict_get_Forall well_formed _ _ _ Hu Hv).
    unfold combine_values.
    destruct (dict_get tb k) as [[a|x]|] eqn:Hold.
    + f_equal. now apply (merge_tree_self n).
    + f_equal. apply IH; auto.
      exact (dict_get_Forall well_formed _ _ _ Hb Hold).
    + f_equal. now apply (merge_tree_self n).
Qed.

(** Merging into the empty mapping gives the update. *)
Lemma merge_tree_empty (tu : list (string * tree)) :
  NoDup (map fst tu) -> merge_tree [] (TDict tu) = tu.
Proof.
  intros Hnd. apply dict_ext.
  - apply merge_tree_NoDup. constructor.
  - rewrite merge_tree_unfold, (fold_tree_step_keys _ Hnd). simpl.
    generalize (map fst tu). intros ks.
    induction ks as [|k ks IH]; [reflexivity|].
    simpl. f_equal. exact IH.
  - intros k. rewrite merge_tree_unfold, (fold_tree_step_get _ _ Hnd). simpl.
    now destruct (dict_get tu k).
Qed.

(** *** Values as objects, and back *)

Lemma alloc_dict (d : list (string * tree)) (h : list (list (string * val))) :
  alloc (TDict d) h
  = let '(h', d') := alloc_items d h in (h' ++ [d'], VDict (length h')).
Proof.
  simpl.
  match goal with
  | |- (let '(_, _) := ?f d h in _) = _ =>
      assert (Hgo : forall d h, f d h = alloc_items d h)
  end.
  { clear. intros d. induction d as [|kt d IH]; intros h; simpl; [reflexivity|].
    destruct (alloc kt.2 h) as [h1 v]. now rewrite IH. }
  now rewrite Hgo.
Qed.

Lemma denotes_grows (h h' : list (list (string * val))) (v : val) (t : tree) :
  denotes h v t -> (forall l d, h !! l = Some d -> h' !! l = Some d) ->
  denotes h' v t.
Proof.
  intros Hden Hext. eapply den_impl; [exact Hden|].
  intros l d _ Hl. split; [tauto|now apply Hext].
Qed.

(** A well-formed value is allocated as objects that read as that
    value; the objects that existed stay. *)
Lemma alloc_denotes (n : nat) :
  forall (t : tree) (h : list (list (string * val))),
    (depth t <= n)%nat -> well_formed t ->
    (forall l d, h !! l = Some d -> (alloc t h).1 !! l = Some d) /\
    denotes (alloc t h).1 (alloc t h).2 t.
Proof.
  induction n as [|n IH]; intros [a|d] h Hd Hwf.
  - split; [auto|constructor].
  - simpl in Hd. lia.
  - split; [auto|constructor].
  - apply well_formed_dict in Hwf as [Hnd Hwf]. apply depth_dict in Hd.
    assert (Hitems : forall d h,
               Forall (fun kt => (depth kt.2 <= n)%nat) d ->
               Forall (fun kt => well_formed kt.2) d ->
               (forall l x, h !! l = Some x -> (alloc_items d h).1 !! l = Some x) /\
               related (denotes (alloc_items d h).1) (alloc_items d h).2 d).
    { clear d h Hd Hnd Hwf. intros d.
      induction d as [|kt d IHd]; intros h Hd Hwf; simpl.
      - split; [auto|constructor].
      - apply Forall_cons in Hd as [Hd1 Hd]. apply Forall_cons in Hwf as [Hw1 Hwf].
        destruct (IH kt.2 h Hd1 Hw1) as [Hext1 Hden1].
        destruct (alloc kt.2 h) as [h1 v]. simpl in Hext1, Hden1.
        destruct (IHd h1 Hd Hwf) as [Hext2 Hrel].
        destruct (alloc_items d h1) as [h2 vs]. simpl in *.
        split; [auto|]. constructor; [|exact Hrel].
        split; [reflexivity|]. simpl. now apply (denotes_grows h1). }
    destruct (Hitems d h Hd Hwf) as [Hext Hrel].
    rewrite alloc_dict. destruct (alloc_items d h) as [h' d']. simpl in *.
    split.
    + intros l x Hl. apply lookup_app_l_Some. now apply Hext.
    + apply den_dict with (d := d').
      * tauto.
      * rewrite lookup_app_r by lia. now rewrite Nat.sub_diag.
      * now rewrite (related_keys _ _ _ Hrel).
      * eapply related_impl; [exact Hrel|]. apply Forall_forall.
        intros kt _ v Hv. apply (denotes_grows h'); [exact Hv|].
        intros l x Hl. now apply lookup_app_l_Some.
Qed.

Lemma read_dict (fuel : nat) (h : list (list (string * val))) (l : nat) :
  read (S fuel) h (VDict l)
  = match h !! l with
    | None => None
    | Some d => option_map TDict (read_items fuel h d)
    end.
Proof.
  simpl. destruct (h !! l) as [d|]; [|reflexivity]. f_equal.
  induction d as [|kv d IH]; simpl; [reflexivity|].
  destruct (read fuel h kv.2); [|reflexivity]. now rewrite IH.
Qed.

(** Objects that read as a value are written as that value. *)
Lemma read_denotes (fuel : nat) :
  forall (h : list (list (string * val))) (A : nat -> Prop) (v : val) (t : tree),
    den h A v t -> (depth t <= fuel)%nat -> read fuel h v = Some t.
Proof.
  induction fuel as [|fuel IH]; intros h A v t Hden Hd.
  - inversion Hden; subst; [reflexivity|]. simpl in Hd. lia.
  - inversion Hden as [a|l d td Hna Hl Hnd Hrel]; subst; [reflexivity|].
    rewrite read_dict, Hl. apply depth_dict in Hd.
    assert (Hitems : read_items fuel h d = Some td).
    { clear Hl Hnd Hden. induction Hrel as [|[k v] [k' t] d td [Hk Hv] _ IHrel];
        simpl in *; [reflexivity|].
      apply Forall_cons in Hd as [Hd1 Hd]. subst k'.
      rewrite (IH h A v t Hv Hd1), (IHrel Hd). reflexivity. }
    now rewrite Hitems.
Qed.

(** [_deep_merge] on the objects of two well-formed values, within the
    recursion limit, returns the merged value. *)
Lemma deep_merge_values_spec (recursion_limit : nat)
    (existing updates : list (string * tree)) :
  well_formed (TDict existing) -> well_formed (TDict updates) ->
  (depth (TDict existing) <= recursion_limit)%nat ->
  (depth (TDict updates) <= recursion_limit)%nat ->
  deep_merge_values recursion_limit existing updates
  = Ok (merge_tree existing (TDict updates)).
Proof.
  intros Hwe Hwu Hde Hdu. unfold deep_merge_values.
  destruct (alloc_denotes _ (TDict existing) [] Hde Hwe) as [_ Hden1].
  rewrite alloc_dict in *. destruct (alloc_items existing []) as [h0 d0].
  simpl in Hden1.
  destruct (alloc_denotes _ (TDict updates) (h0 ++ [d0]) Hdu Hwu) as [Hext Hden2].
  rewrite alloc_dict in *. destruct (alloc_items updates (h0 ++ [d0])) as [h1 d1].
  simpl in Hext, Hden2.
  assert (Hden1' : denotes (h1 ++ [d1]) (VDict (length h0)) (TDict existing)).
  { now apply (denotes_grows (h0 ++ [d0])). }
  destruct (merge_ok_all recursion_limit (h1 ++ [d1]) (fun _ => False)
              (length h0) (length h1) existing updates Hdu)
    as (h' & Hcall & _ & _ & Hden); [tauto|exact Hden1'|exact Hden2|].
  rewrite Hcall.
  rewrite (read_denotes _ _ _ _ _ Hden); [reflexivity|].
  now apply merge_tree_depth.
Qed.

End MergeFacts.

(** ** Facts: the configuration file *)

Module ConfigStoreFacts.
Import Py Config ConfigStore ConfigFacts MergeFacts.

Lemma load_readable (fs : file) :
  readable fs ->
  exists config,
    _load_config fs = Ok config /\
    doc_projects config = Some (projects_in fs) /\
    doc_others config = others_in fs.
Proof.
  unfold projects_in, others_in.
  destruct fs as [|msg|[[projects|] others]]; simpl; intros Hr;
    [eexists; eauto|contradiction|eexists; eauto..].
Qed.

Lemma key_inj (p q : Z) : q <> p -> pretty p <> (pretty q : string).
Proof. intros Hne Heq. apply Hne. symmetry. now apply (inj pretty). Qed.

Lemma dict_set_set {V : Type} (d : list (string * V)) (k : string) (v w : V) :
  dict_set (dict_set d k v) k w = dict_set d k w.
Proof.
  induction d as [|[k0 x] d IH]; simpl.
  - now rewrite String.eqb_refl.
  - destruct (String.eqb_spec k0 k) as [->|Hne]; simpl.
    + now rewrite String.eqb_refl.
    + destruct (String.eqb_spec k0 k); [contradiction|]. now rewrite IH.
Qed.

(** What [_get_project_config_impl] returns on a readable file. *)
Lemma get_reads_stored (project_id : Z) (fs : file) :
  readable fs ->
  _get_project_config_impl project_id fs
  = (Ok {| get_project_id := project_id; get_config := stored fs project_id |}, fs).
Proof.
  intros Hr. destruct (load_readable fs Hr) as (config & Hload & Hp & _).
  unfold _get_project_config_impl, and_then, load, of_result, pure, stored.
  rewrite Hload, Hp. reflexivity.
Qed.

(** X22.  On a file that can be read and a disk that takes the write,
    [_set_project_config_impl] stores the configuration under the
    project: a read of the same project returns it; [created] tells
    whether the project had no entry; the configuration of every other
    project and the other keys of the file are as before. *)
Theorem set_then_get (write_error : document -> option string) (project_id : Z)
    (project_config : list (string * tree)) (fs : file) :
  readable fs -> (forall doc, write_error doc = None) ->
  exists fs',
    _set_project_config_impl write_error project_id project_config fs
    = (Ok {| set_project_id := project_id; set_config := project_config;
             set_created := negb (bool_decide (is_Some (stored fs project_id))) |},
       fs') /\
    _get_project_config_impl project_id fs'
    = (Ok {| get_project_id := project_id; get_config := Some project_config |}, fs') /\
    (forall q, q <> project_id -> stored fs' q = stored fs q) /\
    others_in fs' = others_in fs.
Proof.
  intros Hr Hdisk. destruct (load_readable fs Hr) as (config & Hload & Hp & Ho).
  unfold _set_project_config_impl, and_then, load, of_result, _save_config, pure.
  rewrite Hload, Hp. simpl getitem. cbv beta iota. rewrite Hdisk.
  eexists. split; [reflexivity|].
  split; [|split].
  - rewrite get_reads_stored by exact I. unfold stored, projects_in. simpl.
    now rewrite dict_get_set_eq.
  - intros q Hq. unfold stored at 1, projects_in at 1. simpl.
    rewrite dict_get_set_ne by now apply key_inj. reflexivity.
  - unfold others_in at 1. simpl. exact Ho.
Qed.

Lemma set_then_get_witness :
  exists fs',
    _set_project_config_impl good_disk 8 [("name", TAtom (AStr "Garden"))] kitchen_file
    = (Ok {| set_project_id := 8; set_config := [("name", TAtom (AStr "Garden"))];
             set_created := true |}, fs') /\
    _get_project_config_impl 8 fs'
    = (Ok {| get_project_id := 8;
             get_config := Some [("name", TAtom (AStr "Garden"))] |}, fs') /\
    stored fs' 7 = stored kitchen_file 7.
Proof.
  destruct (set_then_get good_disk 8 [("name", TAtom (AStr "Garden"))] kitchen_file)
    as (fs' & Hset & Hget & Hothers & _).
  - exact I.
  - reflexivity.
  - exists fs'. split; [exact Hset|]. split; [exact Hget|]. apply Hothers. lia.
Defined.

(** X23.  On a file that can be read and a disk that takes the write,
    [_delete_project_config_impl] removes the entry of the project and
    says whether there was one; the other projects and the other keys of
    the file are as before; without an entry the file is not written at
    all; and a second deletion finds nothing to delete and does not write,
    whatever the disk does then. *)
Theorem delete_then_get (write_error : document -> option string) (project_id : Z)
    (fs : file) :
  readable fs -> (forall doc, write_error doc = None) ->
  exists fs',
    _delete_project_config_impl write_error project_id fs
    = (Ok {| del_project_id := project_id;
             del_deleted := bool_decide (is_Some (stored fs project_id)) |}, fs') /\
    stored fs' project_id = None /\
    (forall q, q <> project_id -> stored fs' q = stored fs q) /\
    others_in fs' = others_in fs /\
    (stored fs project_id = None -> fs' = fs) /\
    forall disk,
      _delete_project_config_impl disk project_id fs'
      = (Ok {| del_project_id := project_id; del_deleted := false |}, fs').
Proof.
  intros Hr Hdisk. destruct (load_readable fs Hr) as (config & Hload & Hp & Ho).
  assert (Hno : forall fs0 disk,
             readable fs0 -> stored fs0 project_id = None ->
             _delete_project_config_impl disk project_id fs0
             = (Ok {| del_project_id := project_id; del_deleted := false |}, fs0)).
  { intros fs0 disk Hr0 Hs0.
    destruct (load_readable fs0 Hr0) as (config0 & Hload0 & Hp0 & _).
    unfold _delete_project_config_impl, and_then, load, of_result, pure, has_key.
    rewrite Hload0, Hp0. simpl getitem. cbv beta iota.
    unfold stored in Hs0. rewrite Hs0.
    rewrite bool_decide_eq_false_2 by (intros [? ?]; discriminate). reflexivity. }
  destruct (stored fs project_id) as [old|] eqn:Hold.
  - unfold _delete_project_config_impl, and_then, load, of_result, _save_config,
      pure, has_key.
    rewrite Hload, Hp. simpl getitem. cbv beta iota.
    unfold stored in Hold. rewrite Hold.
    rewrite !bool_decide_eq_true_2 by eauto. rewrite Hdisk.
    eexists. split; [reflexivity|].
    assert (Hgone : stored
                      (Holds (with_projects (dict_del (projects_in fs) (pretty project_id))
                                config)) project_id = None).
    { unfold stored, projects_in. simpl. apply dict_del_get_eq. }
    split; [exact Hgone|]. split; [|split; [|split]].
    + intros q Hq. unfold stored at 1, projects_in at 1. simpl.
      rewrite dict_del_get_ne by now apply key_inj. reflexivity.
    + unfold others_in at 1. simpl. exact Ho.
    + discriminate.
    + intros disk. now apply Hno.
  - exists fs. rewrite bool_decide_eq_false_2 by (intros [? ?]; discriminate).
    split; [now apply Hno|]. split; [exact Hold|]. split; [auto|].
    split; [reflexivity|]. split; [auto|]. intros disk. now apply Hno.
Qed.

Lemma delete_then_get_witness :
  exists fs',
    _delete_project_config_impl good_disk 7 kitchen_file
    = (Ok {| del_project_id := 7; del_deleted := true |}, fs') /\
    stored fs' 7 = None /\
    _delete_project_config_impl full_disk 7 fs'
    = (Ok {| del_project_id := 7; del_deleted := false |}, fs').
Proof.
  destruct (delete_then_get good_disk 7 kitchen_file)
    as (fs' & Hdel & Hgone & _ & _ & _ & Hagain).
  - exact I.
  - reflexivity.
  - exists fs'. split; [exact Hdel|]. split; [exact Hgone|apply Hagain].
Defined.


(** X25.  On a file that can be read and a disk that takes the write,
    with values of unique keys nested within the recursion limit,
    [_update_project_config_impl] stores the deep merge of the stored
    configuration of the project (the empty mapping when it has none) and
    the update, returns it, and a read of the project returns it; for a
    project without an entry that is the update itself; the other projects
    and the other keys of the file are as before. *)
Theorem update_then_get (write_error : document -> option string)
    (recursion_limit : nat) (project_id : Z) (updates : list (string * tree))
    (fs : file) :
  readable fs -> (forall doc, write_error doc = None) ->
  well_formed (TDict (get_default (stored fs project_id) [])) ->
  well_formed (TDict updates) ->
  (depth (TDict (get_default (stored fs project_id) [])) <= recursion_limit)%nat ->
  (depth (TDict updates) <= recursion_limit)%nat ->
  let merged := merge_tree (get_default (stored fs project_id) []) (TDict updates) in
  exists fs',
    _update_project_config_impl write_error recursion_limit project_id updates fs
    = (Ok {| upd_project_id := project_id; upd_config := merged |}, fs') /\
    _get_project_config_impl project_id fs'
    = (Ok {| get_project_id := project_id; get_config := Some merged |}, fs') /\
    (stored fs project_id = None -> merged = updates) /\
    (forall q, q <> project_id -> stored fs' q = stored fs q) /\
    others_in fs' = others_in fs.
Proof.
  intros Hr Hdisk Hwe Hwu Hde Hdu merged.
  destruct (load_readable fs Hr) as (config & Hload & Hp & Ho).
  unfold _update_project_config_impl, and_then, load, of_result, _save_config, pure.
  rewrite Hload, Hp. simpl getitem. cbv beta iota.
  fold (stored fs project_id).
  rewrite (deep_merge_values_spec _ _ _ Hwe Hwu Hde Hdu). fold merged.
  rewrite Hdisk. eexists. split; [reflexivity|].
  split; [|split; [|split]].
  - rewrite get_reads_stored by exact I. unfold stored, projects_in. simpl.
    now rewrite dict_get_set_eq.
  - intros Hnone. unfold merged. rewrite Hnone. simpl get_default.
    apply merge_tree_empty. now apply well_formed_dict in Hwu as [Hnd _].
  - intros q Hq. unfold stored at 1, projects_in at 1. simpl.
    rewrite dict_get_set_ne by now apply key_inj. reflexivity.
  - unfold others_in at 1. simpl. exact Ho.
Qed.

Lemma update_then_get_witness :
  exists fs',
    _update_project_config_impl good_disk 100 7 kitchen_update kitchen_file
    = (Ok {| upd_project_id := 7;
             upd_config :=
               [("name", TAtom (AStr "Kitchen"));
                ("sort_strategy",
                 TDict [("default", TAtom (AStr "priority"));
                        ("buckets", TDict [("Done", TAtom (AStr "manual"))])]);
                ("default_bucket", TAtom (AStr "To Do"))] |}, fs') /\
    others_in fs' = [("version", TAtom (AInt 1))].
Proof.
  destruct (update_then_get good_disk 100 7 kitchen_update kitchen_file)
    as (fs' & Hupd & _ & _ & _ & Ho).
  - exact I.
  - reflexivity.
  - apply well_formedb_spec. reflexivity.
  - apply well_formedb_spec. reflexivity.
  - simpl. lia.
  - simpl. lia.
  - exists fs'. split; [exact Hupd|exact Ho].
Defined.

(** X26.  Updating a project twice with the same update is the same
    as updating it once: the second call returns the same configuration
    and leaves the file exactly as the first call left it. *)
Theorem update_twice (write_error : document -> option string)
    (recursion_limit : nat) (project_id : Z) (updates : list (string * tree))
    (fs : file) :
  readable fs -> (forall doc, write_error doc = None) ->
  well_formed (TDict (get_default (stored fs project_id) [])) ->
  well_formed (TDict updates) ->
  (depth (TDict (get_default (stored fs project_id) [])) <= recursion_limit)%nat ->
  (depth (TDict updates) <= recursion_limit)%nat ->
  exists r fs',
    _update_project_config_impl write_error recursion_limit project_id updates fs
    = (Ok r, fs') /\
    _update_project_config_impl write_error recursion_limit project_id updates fs'
    = (Ok r, fs').
Proof.
  intros Hr Hdisk Hwe Hwu Hde Hdu.
  destruct (load_readable fs Hr) as (config & Hload & Hp & Ho).
  set (existing := get_default (stored fs project_id) []) in *.
  set (merged := merge_tree existing (TDict updates)).
  assert (Hwm : well_formed (TDict merged)).
  { now apply (merge_tree_well_formed recursion_limit). }
  assert (Hdm : (depth (TDict merged) <= recursion_limit)%nat).
  { now apply merge_tree_depth. }
  assert (Hidem : merge_tree merged (TDict updates) = merged).
  { now apply (merge_tree_idem recursion_limit). }
  unfold _update_project_config_impl, and_then, load, of_result, _save_config, pure.
  rewrite Hload, Hp. simpl getitem. cbv beta iota.
  fold (stored fs project_id). fold existing.
  rewrite (deep_merge_values_spec _ _ _ Hwe Hwu Hde Hdu). fold merged.
  rewrite Hdisk. eexists _, _. split; [reflexivity|].
  simpl _load_config. cbv beta iota. simpl getitem. cbv beta iota.
  rewrite dict_get_set_eq. simpl get_default.
  rewrite (deep_merge_values_spec _ _ _ Hwm Hwu Hdm Hdu), Hidem, Hdisk.
  rewrite dict_set_set. reflexivity.
Qed.

Lemma update_twice_witness :
  exists r fs',
    _update_project_config_impl good_disk 100 7 kitchen_update kitchen_file
    = (Ok r, fs') /\
    _update_project_config_impl good_disk 100 7 kitchen_update fs' = (Ok r, fs').
Proof.
  apply (update_twice good_disk 100 7 kitchen_update kitchen_file).
  - exact I.
  - reflexivity.
  - apply well_formedb_spec. reflexivity.
  - apply well_formedb_spec. reflexivity.
  - simpl. lia.
  - simpl. lia.
Defined.

(** X27.  The keys of a merged configuration, in order: the keys of
    the existing value keep their places, and the keys that only the
    update has follow, in the order of the update (the file is written
    with [sort_keys=False], so this is the order in the file). *)
Theorem merged_keys_in_order (recursion_limit : nat)
    (existing updates : list (string * tree)) :
  well_formed (TDict existing) -> well_formed (TDict updates) ->
  (depth (TDict existing) <= recursion_limit)%nat ->
  (depth (TDict updates) <= recursion_limit)%nat ->
  exists merged,
    deep_merge_values recursion_limit existing updates = Ok merged /\
    map fst merged
    = map fst existing
      ++ List.filter (fun k => negb (has_key existing k)) (map fst updates).
Proof.
  intros Hwe Hwu Hde Hdu. eexists. split; [now apply deep_merge_values_spec|].
  rewrite merge_tree_unfold. apply fold_tree_step_keys.
  now apply well_formed_dict in Hwu as [Hnd _].
Qed.

Lemma merged_keys_in_order_witness :
  exists merged,
    deep_merge_values 100
      [("name", TAtom (AStr "Kitchen"));
       ("sort_strategy", TDict [("default", TAtom (AStr "due_date"))])]
      kitchen_update = Ok merged /\
    map fst merged = ["name"; "sort_strategy"] ++ ["default_bucket"].
Proof.
  apply (merged_keys_in_order 100
           [("name", TAtom (AStr "Kitchen"));
            ("sort_strategy", TDict [("default", TAtom (AStr "due_date"))])]
           kitchen_update).
  - apply well_formedb_spec. reflexivity.
  - apply well_formedb_spec. reflexivity.
  - simpl. lia.
  - simpl. lia.
Defined.

End ConfigStoreFacts.

(** ** Facts: the relations of a whole batch call *)

Module ForwardFacts.
Import Py SortKeys Allocator Batch Behaviour Creation LoopFacts RelationFacts
  BehaviourFacts StepFacts.

(** A computation that never raises returns, from any history. *)
Lemma behaves_returns {A} (P : call -> Prop) (Q : A -> Prop) (m : M A) :
  behaves P never Q m ->
  forall tr, exists a cs, m tr = (Ok a, tr ++ cs) /\ Forall P cs /\ Q a.
Proof.
  intros Hm tr. destruct (Hm tr) as (cs & Htr & Hcs & Hres).
  destruct (m tr) as [[a|e] tr1]; simpl in *; subst tr1; [|destruct Hres].
  exists a, cs. auto.
Qed.

Section Phases.
Context (svc : service) (set_iter : list string -> list string).

(** Steps 3 and 4 set up labels and buckets, and nothing else. *)
Lemma step3_sets_up (create_missing_labels : bool) (needed : list string)
    (label_map : gmap string Z) (rep : Report) :
  behaves (fun c => is_setup_call c = true) never anything
    (step3_create_labels svc set_iter create_missing_labels needed label_map rep).
Proof.
  unfold step3_create_labels.
  destruct create_missing_labels; simpl; [|now apply behaves_ret].
  destruct (bool_decide (needed <> [])); [|now apply behaves_ret].
  apply behaves_for_each; [|exact I].
  intros [lm r] [i name] _ _. apply (behaves_bind _ _ anything).
  - apply (behaves_try _ _ anything anything).
    apply behaves_perform; [reflexivity|intros; exact I].
  - intros [new_label|e] _; now apply behaves_ret.
Qed.

Lemma step4_sets_up (project_id : Z) (tasks : list TaskInput)
    (create_missing_buckets : bool) (rep : Report) :
  behaves (fun c => is_setup_call c = true) never anything
    (step4_buckets svc set_iter project_id tasks create_missing_buckets rep).
Proof.
  unfold step4_buckets.
  destruct (existsb _ tasks); [|now apply behaves_ret].
  apply (behaves_bind _ _ anything).
  { apply (behaves_try _ _ anything anything).
    apply behaves_perform; [reflexivity|intros; exact I]. }
  intros [view|e] _; [|now apply behaves_ret].
  apply (behaves_bind _ _ anything).
  { apply (behaves_try _ _ anything anything).
    apply behaves_perform; [reflexivity|intros; exact I]. }
  intros [existing_buckets|e] _; [|now apply behaves_ret].
  destruct create_missing_buckets; [|now apply behaves_ret].
  apply (behaves_bind _ _ anything).
  - unfold create_missing_bucket_loop. apply behaves_for_each; [|exact I].
    intros [bm r] [i name] _ _. apply (behaves_bind _ _ anything).
    + apply (behaves_try _ _ anything anything).
      apply behaves_perform; [reflexivity|intros; exact I].
    + intros [new_bucket|e] _; now apply behaves_ret.
  - intros [bm r] _. now apply behaves_ret.
Qed.

(** Step 6 attaches labels, and nothing else. *)
Lemma step6_attaches (label_map : gmap string Z)
    (created_tasks : list (TaskInput * CreatedTask)) (rep : Report) :
  behaves (fun c => is_attach_call c = true) never anything
    (step6_add_labels svc label_map created_tasks rep).
Proof.
  unfold step6_add_labels. apply behaves_for_each; [|exact I].
  intros r [ti ct] _ _. apply behaves_for_each; [|exact I].
  intros r' name _ _. destruct (lookup_truthy label_map name); [|now apply behaves_ret].
  apply (behaves_bind _ _ anything).
  - apply (behaves_try _ _ anything anything).
    apply behaves_perform; [reflexivity|intros; exact I].
  - intros [?|e] _; now apply behaves_ret.
Qed.

(** Steps 8 and 9 put tasks into buckets and place them, and nothing
    else. *)
Lemma step8_positions (project_id : Z) (view : option Z) (bucket_map : gmap string Z)
    (created_tasks : list (TaskInput * CreatedTask)) (rep : Report) :
  behaves (fun c => is_position_call c = true) never anything
    (step8_place_in_buckets svc project_id view bucket_map created_tasks rep).
Proof.
  unfold step8_place_in_buckets.
  destruct view as [view_id|]; [|now apply behaves_ret].
  destruct (truthy_int view_id && negb (bool_decide (bucket_map = ∅)))%bool;
    [|now apply behaves_ret].
  apply behaves_for_each; [|exact I].
  intros r [ti ct] _ _.
  destruct (ti_bucket ti) as [bucket_name|]; [|now apply behaves_ret].
  destruct (negb (String.eqb bucket_name "")); [|now apply behaves_ret].
  destruct (lookup_truthy bucket_map bucket_name); [|now apply behaves_ret].
  apply (behaves_bind _ _ anything).
  - apply (behaves_try _ _ anything anything).
    unfold _set_task_position_impl. apply (behaves_bind _ _ anything).
    + apply behaves_perform; [reflexivity|intros; exact I].
    + intros _ _. simpl. now apply behaves_ret.
  - intros [?|e] _; now apply behaves_ret.
Qed.

Lemma step9_positions (project_id : Z) (apply_sort : bool)
    (project_config : option ProjectConfig) (view : option Z)
    (bucket_map : gmap string Z)
    (created_tasks : list (TaskInput * CreatedTask)) (rep : Report) :
  behaves (fun c => is_position_call c = true) anything anything
    (step9_auto_sort svc project_id apply_sort project_config view bucket_map
       created_tasks rep).
Proof.
  unfold step9_auto_sort.
  destruct view as [view_id|]; [|now apply behaves_ret].
  destruct (apply_sort && config_truthy project_config && truthy_int view_id)%bool;
    [|now apply behaves_ret].
  apply behaves_for_each; [|exact I].
  intros r [bucket_name bucket_tasks] _ _.
  match goal with
  | |- context [String.eqb ?s "manual"] => destruct (String.eqb s "manual")
  end; [now apply behaves_ret|].
  destruct (lookup_truthy bucket_map bucket_name); [|now apply behaves_ret].
  apply (behaves_bind _ _ anything).
  { apply (behaves_try _ _ anything anything).
    apply behaves_perform; [reflexivity|intros; exact I]. }
  intros [existing_raw|e] _; [|now apply behaves_ret].
  apply (behaves_bind _ _ anything).
  { apply behaves_lift.
    match goal with
    | |- match ?f with _ => _ end => now destruct f
    end. }
  intros existing _. apply (behaves_bind _ _ anything).
  - unfold place_new_tasks. apply behaves_for_each; [|exact I].
    intros [[es ks] r'] [ti ct] _ _. apply (behaves_bind _ _ anything).
    + apply (behaves_try _ _ anything anything).
      apply behaves_perform; [reflexivity|intros; exact I].
    + intros res _. now apply behaves_ret.
  - intros [[es ks] r'] _. now apply behaves_ret.
Qed.

(** Step 7 issues the calls of the entries that the map resolves. *)
Lemma step7_run (ref_map : gmap string Z)
    (created_tasks : list (TaskInput * CreatedTask)) (rep : Report) (tr : list call) :
  exists rep',
    step7_create_relations svc ref_map created_tasks rep tr
    = (Ok rep',
       tr ++ flat_map (calls_of_entry ref_map) (flat_map entries_of created_tasks)).
Proof.
  rewrite step7_as_entries.
  destruct (relate_loop svc ref_map (flat_map entries_of created_tasks) rep tr)
    as (rep' & Hrun & _).
  now exists rep'.
Qed.

(** The history of a batch call whose labels were listed: set-up calls,
    the creation calls, attach calls, the relation calls resolved with the
    ref map of all the created tasks, position calls. *)
Lemma batch_steps_phases (project_id : Z) (tasks : list TaskInput)
    (create_missing_labels create_missing_buckets apply_sort : bool)
    (project_config : option ProjectConfig) (tr : list call)
    (existing_labels : list Label) :
  svc tr CListLabels = Ok existing_labels ->
  exists before labelling after,
    (batch_steps svc set_iter project_id tasks create_missing_labels
       create_missing_buckets apply_sort project_config tr).2
    = (tr ++ CListLabels :: before) ++ create_calls project_id tasks ++ labelling
      ++ flat_map
           (calls_of_entry
              (ref_map_of
                 (created_of
                    (outcomes svc project_id tasks (tr ++ CListLabels :: before)))))
           (flat_map entries_of
              (created_of
                 (outcomes svc project_id tasks (tr ++ CListLabels :: before))))
      ++ after /\
    Forall (fun c => is_setup_call c = true) before /\
    Forall (fun c => is_attach_call c = true) labelling /\
    Forall (fun c => is_position_call c = true) after.
Proof.
  intros Hlabels. unfold batch_steps.
  unfold bind at 1, perform at 1. rewrite Hlabels.
  set (label_map := name_map label_title label_id existing_labels).
  destruct (behaves_returns _ _ _
              (step3_sets_up create_missing_labels (needed_labels label_map tasks)
                 label_map empty_report) (tr ++ [CListLabels]))
    as ([label_map3 rep3] & cs3 & H3 & Hcs3 & _).
  unfold bind at 1. rewrite H3.
  destruct (behaves_returns _ _ _
              (step4_sets_up project_id tasks create_missing_buckets rep3)
              ((tr ++ [CListLabels]) ++ cs3))
    as ([[view bucket_map] rep4] & cs4 & H4 & Hcs4 & _).
  unfold bind at 1. rewrite H4.
  assert (Htr4 : ((tr ++ [CListLabels]) ++ cs3) ++ cs4
                 = tr ++ CListLabels :: cs3 ++ cs4).
  { now rewrite <- !app_assoc. }
  rewrite Htr4. set (tr4 := tr ++ CListLabels :: cs3 ++ cs4).
  unfold bind at 1. rewrite step5_run.
  set (created_tasks := created_of (outcomes svc project_id tasks tr4)).
  match goal with
  | |- context [step6_add_labels svc label_map3 created_tasks ?r] => set (rep5 := r)
  end.
  destruct (behaves_returns _ _ _
              (step6_attaches label_map3 created_tasks rep5)
              (tr4 ++ create_calls project_id tasks))
    as (rep6 & cs6 & H6 & Hcs6 & _).
  unfold bind at 1. rewrite H6.
  destruct (step7_run (ref_map_of created_tasks) created_tasks rep6
              ((tr4 ++ create_calls project_id tasks) ++ cs6))
    as (rep7 & H7).
  unfold bind at 1. rewrite H7. unfold bind at 1.
  match goal with
  | |- context [step8_place_in_buckets svc project_id view bucket_map created_tasks
                  rep7 ?t] =>
      destruct (behaves_returns _ _ _
                  (step8_positions project_id view bucket_map created_tasks rep7) t)
        as (rep8 & cs8 & H8 & Hcs8 & _)
  end.
  rewrite H8.
  match goal with
  | |- context [step9_auto_sort svc project_id apply_sort project_config view
                  bucket_map created_tasks rep8 ?t] =>
      destruct (step9_positions project_id apply_sort project_config view
                  bucket_map created_tasks rep8 t)
        as (cs9 & H9 & Hcs9 & _)
  end.
  rewrite H9.
  exists (cs3 ++ cs4), cs6, (cs8 ++ cs9). fold tr4. fold created_tasks.
  repeat apply conj.
  - now rewrite <- !app_assoc.
  - now apply Forall_app.
  - exact Hcs6.
  - now apply Forall_app.
Qed.

(** A task that the service created is among the created tasks, and
    no other is. *)
Lemma created_of_outcomes (project_id : Z) (tasks : list TaskInput) (tr : list call)
    (task_input : TaskInput) (created_task : CreatedTask) :
  (task_input, created_task) ∈ created_of (outcomes svc project_id tasks tr)
  <-> exists i title,
        tasks !! i = Some task_input /\ ti_title task_input = Some title /\
        svc (tr ++ create_calls project_id (take i tasks))
          (CCreateTask project_id (data_of title task_input))
        = Ok created_task.
Proof.
  unfold created_of. rewrite list_elem_of_omap. split.
  - intros ([t [ct|e]] & Ho & Hm); simpl in Hm; [|discriminate].
    injection Hm as -> ->.
    apply list_elem_of_lookup in Ho as [i Hi].
    assert (Ht : tasks !! i = Some task_input).
    { rewrite <- (outcomes_inputs svc project_id tasks tr), list_lookup_fmap, Hi.
      reflexivity. }
    rewrite (outcomes_lookup svc project_id tasks tr i task_input Ht) in Hi.
    destruct (ti_title task_input) as [title|]; [|discriminate].
    exists i, title. repeat split; [exact Ht|]. congruence.
  - intros (i & title & Ht & Htitle & Hsvc).
    exists (task_input, Ok created_task). split; [|reflexivity].
    apply (list_elem_of_lookup_2 _ i).
    rewrite (outcomes_lookup svc project_id tasks tr i task_input Ht), Htitle.
    now rewrite Hsvc.
Qed.

End Phases.

(** The ref map holds, for a ref, the identifier of the last created
    task that carries it. *)
Lemma ref_map_of_last (earlier later : list (TaskInput * CreatedTask))
    (tc : TaskInput * CreatedTask) (r : string) :
  ti_ref tc.1 = Some r -> r <> "" ->
  (forall tc', tc' ∈ later -> ti_ref tc'.1 <> Some r) ->
  ref_map_of (earlier ++ tc :: later) !! r = Some (ct_id tc.2).
Proof.
  intros Href Hne. revert earlier tc Href.
  induction later as [|tc' later IH] using rev_ind; intros earlier tc Href Hlater.
  - rewrite ref_map_of_snoc, Href.
    destruct (String.eqb_spec r "") as [->|_]; [congruence|]. simpl.
    apply lookup_insert_eq.
  - replace (earlier ++ tc :: later ++ [tc']) with ((earlier ++ tc :: later) ++ [tc'])
      by now rewrite <- app_assoc.
    rewrite ref_map_of_snoc.
    assert (Hrest : ref_map_of (earlier ++ tc :: later) !! r = Some (ct_id tc.2)).
    { apply IH; [exact Href|]. intros tc0 Hin. apply Hlater, elem_of_app. now left. }
    assert (Hother : ti_ref tc'.1 <> Some r).
    { apply Hlater, elem_of_app. right. now apply list_elem_of_singleton. }
    destruct (ti_ref tc'.1) as [r'|]; [|exact Hrest].
    destruct (negb (String.eqb r' "")); [|exact Hrest].
    rewrite lookup_insert_ne by congruence. exact Hrest.
Qed.

(** The entries of a created task: one for each ref of [blocked_by],
    one for each ref of [blocks], one for a non-empty [subtask_of]. *)
Lemma entries_of_created (created_tasks : list (TaskInput * CreatedTask))
    (tc : TaskInput * CreatedTask) (r : string) :
  tc ∈ created_tasks ->
  (r ∈ get_default (ti_blocked_by tc.1) [] ->
   {| e_task := ct_id tc.2; e_field := BlockedBy; e_ref := r |}
   ∈ flat_map entries_of created_tasks) /\
  (r ∈ get_default (ti_blocks tc.1) [] ->
   {| e_task := ct_id tc.2; e_field := Blocks; e_ref := r |}
   ∈ flat_map entries_of created_tasks) /\
  (ti_subtask_of tc.1 = Some r -> r <> "" ->
   {| e_task := ct_id tc.2; e_field := SubtaskOf; e_ref := r |}
   ∈ flat_map entries_of created_tasks).
Proof.
  intros Htc.
  assert (Hsub : forall e, e ∈ entries_of tc -> e ∈ flat_map entries_of created_tasks).
  { intros e He. apply list_elem_of_In, in_flat_map. exists tc.
    split; now apply list_elem_of_In. }
  unfold entries_of in Hsub. repeat apply conj.
  - intros Hr. apply Hsub, elem_of_app. left.
    apply list_elem_of_fmap. now exists r.
  - intros Hr. apply Hsub, elem_of_app. right. apply elem_of_app. left.
    apply list_elem_of_fmap. now exists r.
  - intros Hr Hne. apply Hsub, elem_of_app. right. apply elem_of_app. right.
    rewrite Hr. destruct (String.eqb_spec r "") as [->|_]; [congruence|].
    now apply list_elem_of_singleton.
Qed.

(** C6.  A batch call whose labels cannot be listed stops there: no
    task and no relation is created.  Otherwise its calls come in this
    order: the labels are listed and labels and buckets are set up; the
    tasks are created, one call for each task input that has a title;
    labels are attached; the relations are created; tasks are positioned.
    So every creation call comes before every relation call.  The created
    tasks are exactly the task inputs for which the service returned a
    task, wherever they stand in the list.  The relation calls are those of
    the entries of the created tasks (one entry for each ref of
    [blocked_by] and of [blocks] and one for a non-empty [subtask_of]),
    resolved with the ref map of all the created tasks: a non-empty ref
    is mapped to the identifier of the last created task that carries it,
    and an entry with that ref gives exactly one call, from the task of the
    entry to that task, of kind "blocked" for [blocked_by], "blocking" for
    [blocks] and "parenttask" for [subtask_of] (when the identifier is not
    0, as the code tests [if blocker_id:]).  The step that creates the
    relations never raises, and where the service accepts every relation
    [relations_created] grows by the number of these calls. *)
Theorem forward_references_resolve (svc : service)
    (set_iter : list string -> list string) (project_id : Z)
    (tasks : list TaskInput)
    (create_missing_labels create_missing_buckets apply_sort : bool)
    (project_config : option ProjectConfig) (tr : list call) :
  let run :=
    batch_steps svc set_iter project_id tasks create_missing_labels
      create_missing_buckets apply_sort project_config tr in
  match svc tr CListLabels with
  | Raise e => run = (Raise e, tr ++ [CListLabels])
  | Ok _ =>
    exists before labelling after,
      let tr4 := tr ++ CListLabels :: before in
      let created_tasks := created_of (outcomes svc project_id tasks tr4) in
      let ref_map := ref_map_of created_tasks in
      run.2
      = tr4 ++ create_calls project_id tasks ++ labelling
        ++ flat_map (calls_of_entry ref_map) (flat_map entries_of created_tasks)
        ++ after /\
      Forall (fun c => is_setup_call c = true) before /\
      Forall (fun c => is_attach_call c = true) labelling /\
      Forall (fun c => is_position_call c = true) after /\
      (forall task_input created_task,
         (task_input, created_task) ∈ created_tasks
         <-> exists i title,
               tasks !! i = Some task_input /\ ti_title task_input = Some title /\
               svc (tr4 ++ create_calls project_id (take i tasks))
                 (CCreateTask project_id (data_of title task_input))
               = Ok created_task) /\
      (forall tc r,
         tc ∈ created_tasks ->
         (r ∈ get_default (ti_blocked_by tc.1) [] ->
          {| e_task := ct_id tc.2; e_field := BlockedBy; e_ref := r |}
          ∈ flat_map entries_of created_tasks) /\
         (r ∈ get_default (ti_blocks tc.1) [] ->
          {| e_task := ct_id tc.2; e_field := Blocks; e_ref := r |}
          ∈ flat_map entries_of created_tasks) /\
         (ti_subtask_of tc.1 = Some r -> r <> "" ->
          {| e_task := ct_id tc.2; e_field := SubtaskOf; e_ref := r |}
          ∈ flat_map entries_of created_tasks)) /\
      (forall earlier tc later r,
         created_tasks = earlier ++ tc :: later ->
         ti_ref tc.1 = Some r -> r <> "" ->
         (forall tc', tc' ∈ later -> ti_ref tc'.1 <> Some r) ->
         ref_map !! r = Some (ct_id tc.2) /\
         (ct_id tc.2 <> 0 ->
          forall e, e_ref e = r ->
            calls_of_entry ref_map e
            = [CCreateRelation (e_task e) (relation_kind (e_field e)) (ct_id tc.2)])) /\
      (forall rep6 tr6,
         exists rep7,
           step7_create_relations svc ref_map created_tasks rep6 tr6
           = (Ok rep7,
              tr6 ++ flat_map (calls_of_entry ref_map)
                       (flat_map entries_of created_tasks)) /\
           ((forall history t k o, svc history (CCreateRelation t k o) = Ok tt) ->
            relations_created rep7
            = relations_created rep6
              + Z.of_nat (length (flat_map (calls_of_entry ref_map)
                                    (flat_map entries_of created_tasks))))) /\
      relation_kind BlockedBy = "blocked" /\ relation_kind Blocks = "blocking" /\
      relation_kind SubtaskOf = "parenttask"
  end.
Proof.
  intros run. destruct (svc tr CListLabels) as [existing_labels|e] eqn:Hlabels.
  - destruct (batch_steps_phases svc set_iter project_id tasks create_missing_labels
                create_missing_buckets apply_sort project_config tr existing_labels
                Hlabels)
      as (before & labelling & after & Hrun & Hb & Hl & Ha).
    exists before, labelling, after. intros tr4 created_tasks ref_map.
    split; [exact Hrun|]. split; [exact Hb|]. split; [exact Hl|]. split; [exact Ha|].
    split; [|split; [|split; [|split; [|repeat split]]]].
    + intros task_input created_task. apply created_of_outcomes.
    + intros tc r Htc. now apply entries_of_created.
    + intros earlier tc later r Hsplit Href Hne Hlater.
      assert (Hlook : ref_map !! r = Some (ct_id tc.2)).
      { subst ref_map. rewrite Hsplit. now apply ref_map_of_last. }
      split; [exact Hlook|]. intros Hid e He. unfold calls_of_entry.
      now rewrite He, (lookup_truthy_Some _ r (ct_id tc.2) Hlook Hid).
    + intros rep6 tr6. rewrite step7_as_entries.
      destruct (relate_loop svc ref_map (flat_map entries_of created_tasks) rep6 tr6)
        as (rep7 & H7 & _).
      exists rep7. split; [exact H7|]. intros Haccept.
      destruct (relate_loop_accepting svc ref_map (flat_map entries_of created_tasks)
                  Haccept rep6 tr6) as (rep7' & H7' & Hcount).
      rewrite H7 in H7'. injection H7' as <-. exact Hcount.
  - unfold run, batch_steps. unfold bind at 1, perform at 1. now rewrite Hlabels.
Qed.

Lemma forward_references_resolve_witness :
  exists before labelling after,
    (batch_steps (sample_service None []) (fun l => l) 1 forward_batch
       true false true None []).2
    = ([] ++ CListLabels :: before) ++ create_calls 1 forward_batch ++ labelling
      ++ [CCreateRelation 101 "blocked" 102] ++ after.
Proof.
  pose proof (forward_references_resolve (sample_service None []) (fun l => l) 1
                forward_batch true false true None []) as H.
  cbv zeta in H. change (sample_service None [] [] CListLabels) with (Ok (@nil Label)) in H.
  cbv iota in H.
  destruct H as (before & labelling & after & Hrun & Hb & _).
  assert (Hbefore : before = []).
  { assert (Hc : (batch_steps (sample_service None []) (fun l => l) 1 forward_batch
                    true false true None []).2
                 = [CListLabels;
                    CCreateTask 1 (data_of "B" (task_named "B"));
                    CCreateTask 1 (data_of "A" (task_named "A"));
                    CCreateRelation 101 "blocked" 102])
      by (vm_compute; reflexivity).
    rewrite Hc in Hrun. clear Hc.
    destruct before as [|c before]; [reflexivity|].
    cbn [app] in Hrun. injection Hrun as Hc _. subst c.
    apply Forall_cons in Hb as [Hb _]. discriminate Hb. }
  subst before. exists [], labelling, after. exact Hrun.
Defined.

End ForwardFacts.
